(** * GLB viewer samples: model loading, framing and disposal

    A shallow embedding of the four viewer samples of the repository:

    - [Page]         the standalone HTML page (uploadModel, clearModels,
                     calculateBoundingInfo),
    - [GlbViewer]    the component built on the <babylon-viewer> element
                     (onModelChange, onModelError, loadModelIntoViewer,
                     clearModel),
    - [BabylonViewer] the component with the modelUrl prop (loadModel,
                     handleFileSelected, disposeBabylon),
    - [BabylonScene] components/BabylonScene.vue (handleFileImport,
                     onBeforeUnmount).

    JavaScript numbers are modelled as exact rationals extended with
    +Infinity, -Infinity and NaN: rounding, overflow to an infinity and
    the sign of zero are not represented, so what is proved of a computed
    value holds of the code where its arithmetic is exact.  Event handlers run to completion, so each handler is a
    function on the component state; an awaited promise or a callback
    splits a handler into the part that runs up to the request and the
    part that runs on its outcome. *)

From Stdlib Require Import QArith Qcanon.
From stdpp Require Import base numbers list strings sets.

Local Open Scope Qc_scope.

(** ** JavaScript numbers *)

Module JS.

Inductive num : Type :=
| Fin (q : Qc)
| PInf
| NInf
| NaN.

#[global] Instance num_eq_dec : EqDecision num.
Proof. solve_decision. Defined.

Definition of_Z (n : Z) : num := Fin (Qc_of_Z n).
Definition ratio (n : Z) (d : positive) : num := Fin (Q2Qc (n # d)).

Definition isFinite (a : num) : bool :=
  match a with Fin _ => true | _ => false end.

(** [a < b] *)
Definition lt (a b : num) : bool :=
  match a, b with
  | NaN, _ | _, NaN => false
  | Fin p, Fin q => bool_decide (p < q)
  | Fin _, PInf => true
  | Fin _, NInf => false
  | PInf, _ => false
  | NInf, NInf => false
  | NInf, _ => true
  end.

(** [a === b] *)
Definition strict_eq (a b : num) : bool :=
  match a, b with
  | NaN, _ | _, NaN => false
  | _, _ => bool_decide (a = b)
  end.

(** [if (r < l) l = r], the update of the engine's [minimizeInPlace];
    [larger] is that of [maximizeInPlace]. *)
Definition smaller (l r : num) : num := if lt r l then r else l.
Definition larger (l r : num) : num := if lt l r then r else l.

Definition Math_min (a b : num) : num :=
  match a, b with
  | NaN, _ | _, NaN => NaN
  | _, _ => if lt b a then b else a
  end.

Definition Math_max (a b : num) : num :=
  match a, b with
  | NaN, _ | _, NaN => NaN
  | _, _ => if lt a b then b else a
  end.

(** [Math.max(a, b, c)] *)
Definition Math_max3 (a b c : num) : num := Math_max (Math_max a b) c.

Definition Math_abs (a : num) : num :=
  match a with
  | Fin q => Fin (if bool_decide (q < 0) then - q else q)
  | PInf | NInf => PInf
  | NaN => NaN
  end.

Definition neg (a : num) : num :=
  match a with
  | Fin q => Fin (- q)
  | PInf => NInf
  | NInf => PInf
  | NaN => NaN
  end.

Definition add (a b : num) : num :=
  match a, b with
  | NaN, _ | _, NaN => NaN
  | Fin p, Fin q => Fin (p + q)
  | PInf, NInf | NInf, PInf => NaN
  | PInf, _ | _, PInf => PInf
  | NInf, _ | _, NInf => NInf
  end.

Definition sub (a b : num) : num := add a (neg b).

(** Sign of a number that is not NaN: [Lt] negative, [Eq] zero, [Gt]
    positive. *)
Definition sgn (a : num) : comparison :=
  match a with
  | Fin q => q ?= 0
  | PInf => Gt
  | NInf => Lt
  | NaN => Eq
  end.

Definition signed_inf (s t : comparison) : num :=
  match s, t with
  | Eq, _ | _, Eq => NaN
  | Lt, Lt | Gt, Gt => PInf
  | _, _ => NInf
  end.

Definition mul (a b : num) : num :=
  match a, b with
  | NaN, _ | _, NaN => NaN
  | Fin p, Fin q => Fin (p * q)
  | _, _ => signed_inf (sgn a) (sgn b)
  end.

Definition div (a b : num) : num :=
  match a, b with
  | NaN, _ | _, NaN => NaN
  | Fin p, Fin q =>
      if bool_decide (q = 0)
      then signed_inf (sgn a) Gt
      else Fin (p / q)
  | Fin _, _ => Fin 0
  | _, Fin q => signed_inf (sgn a) (if bool_decide (q < 0) then Lt else Gt)
  | _, _ => NaN
  end.

(** [Number.MAX_VALUE] = (2^53 - 1) * 2^971 and
    [Number.MIN_VALUE] = 2^-1074, the smallest positive double. *)
Definition MAX_VALUE : num := of_Z ((2 ^ 53 - 1) * 2 ^ 971).
Definition MIN_VALUE : num := ratio 1 (2 ^ 1074).

End JS.

Abbreviation num := JS.num.
Abbreviation Fin := JS.Fin.
Abbreviation PInf := JS.PInf.
Abbreviation NInf := JS.NInf.
Abbreviation NaN := JS.NaN.

(** ** The engine's vectors, bounding boxes and meshes

    The rendering engine is an external library.  Only what the samples
    use is described here, with the behaviour its documentation gives:
    [Vector3.Minimize] and [Vector3.Maximize] keep the left component
    unless the right one is smaller (resp. larger), [Vector3.Center] is the
    componentwise half sum, and disposing a mesh detaches it from the
    scene's mesh list. *)

Record Vector3 : Type := mkVector3 { x : num; y : num; z : num }.

#[global] Instance Vector3_eq_dec : EqDecision Vector3.
Proof. solve_decision. Defined.

Module Vec.

Definition Zero : Vector3 := mkVector3 (JS.of_Z 0) (JS.of_Z 0) (JS.of_Z 0).

Definition Minimize (l r : Vector3) : Vector3 :=
  mkVector3 (JS.smaller (x l) (x r))
            (JS.smaller (y l) (y r))
            (JS.smaller (z l) (z r)).

Definition Maximize (l r : Vector3) : Vector3 :=
  mkVector3 (JS.larger (x l) (x r))
            (JS.larger (y l) (y r))
            (JS.larger (z l) (z r)).

Definition Center (a b : Vector3) : Vector3 :=
  mkVector3 (JS.div (JS.add (x a) (x b)) (JS.of_Z 2))
            (JS.div (JS.add (y a) (y b)) (JS.of_Z 2))
            (JS.div (JS.add (z a) (z b)) (JS.of_Z 2)).

Definition subtract (a b : Vector3) : Vector3 :=
  mkVector3 (JS.sub (x a) (x b)) (JS.sub (y a) (y b)) (JS.sub (z a) (z b)).

Definition scale (a : Vector3) (k : num) : Vector3 :=
  mkVector3 (JS.mul (x a) k) (JS.mul (y a) k) (JS.mul (z a) k).

Definition isFinite (a : Vector3) : bool :=
  JS.isFinite (x a) && JS.isFinite (y a) && JS.isFinite (z a).

End Vec.

Record BoundingBox : Type := mkBox {
  minimumWorld : Vector3;
  maximumWorld : Vector3
}.

#[global] Instance BoundingBox_eq_dec : EqDecision BoundingBox.
Proof. solve_decision. Defined.

(** A mesh as the samples see it.  [getBoundingInfo] is [None] for a node
    without that method; [parent] holds the unique id of the parent
    node. *)
Record Mesh : Type := mkMesh {
  uniqueId : nat;
  name : string;
  isVisible : bool;
  parent : option nat;
  getBoundingInfo : option BoundingBox
}.

#[global] Instance Mesh_eq_dec : EqDecision Mesh.
Proof. solve_decision. Defined.

(** [node.isDescendantOf(ancestor)] for an attached mesh: the parent links
    are followed upwards through the attached meshes, for [steps] steps
    at most.  A walk that reaches the ancestor at all reaches it before
    it meets a mesh twice, so the number of attached meshes is enough
    steps ([isDescendantOf_enough] below). *)
Fixpoint isDescendantOf (steps : nat) (attached : list Mesh) (ancestor : nat)
    (m : Mesh) : bool :=
  match parent m with
  | None => false
  | Some p =>
      bool_decide (p = ancestor)
      || match steps with
         | O => false
         | S n =>
             match head (filter (fun k => uniqueId k = p) attached) with
             | Some k => isDescendantOf n attached ancestor k
             | None => false
             end
         end
  end.

(** [mesh.dispose()] as the samples call it, without arguments: the mesh
    leaves the scene's mesh list and so does every mesh below it, each
    being disposed in turn ([dispose_spec] below). *)
Definition dispose (mesh : Mesh) (attached : list Mesh) : list Mesh :=
  filter (fun m => uniqueId m <> uniqueId mesh
                   /\ isDescendantOf (length attached) attached (uniqueId mesh) m = false)
         attached.

Definition set_parent (p : nat) (m : Mesh) : Mesh :=
  mkMesh (uniqueId m) (name m) (isVisible m) (Some p) (getBoundingInfo m).

(** [s.includes(pat)] *)
Fixpoint includes (pat s : string) : bool :=
  String.prefix pat s ||
  match s with
  | EmptyString => false
  | String _ s' => includes pat s'
  end.

(** The result of a framing computation. *)
Record Framing : Type := mkFraming { center : Vector3; radius : num }.

#[global] Instance Framing_eq_dec : EqDecision Framing.
Proof. solve_decision. Defined.

Record Camera : Type := mkCamera {
  target : Vector3;
  cam_radius : num;
  lowerRadiusLimit : num;
  upperRadiusLimit : num
}.

#[global] Instance Camera_eq_dec : EqDecision Camera.
Proof. solve_decision. Defined.

(** ** The standalone page *)

Module Page.

Record Scene : Type := mkScene { meshes : list Mesh; camera : Camera }.

#[global] Instance Scene_eq_dec : EqDecision Scene.
Proof. solve_decision. Defined.

Record State : Type := mkState {
  scene : option Scene;
  modelLoaded : bool
}.

#[global] Instance State_eq_dec : EqDecision State.
Proof. solve_decision. Defined.

(** The running bounds of [calculateBoundingInfo]. *)
Record Bounds : Type := mkBounds {
  minX : num; minY : num; minZ : num;
  maxX : num; maxY : num; maxZ : num
}.

Definition start : Bounds := mkBounds PInf PInf PInf NInf NInf NInf.

(** The guard of the loop body: the mesh has a bounding box, is visible
    and is not an environment mesh. *)
Definition counted (mesh : Mesh) : bool :=
  bool_decide (is_Some (getBoundingInfo mesh))
  && isVisible mesh
  && negb (includes "ground" (name mesh))
  && negb (includes "skybox" (name mesh)).

(** The six updates of the loop body. *)
Definition absorb (b : Bounds) (box : BoundingBox) : Bounds :=
  let min := minimumWorld box in
  let max := maximumWorld box in
  mkBounds (JS.Math_min (minX b) (x min))
           (JS.Math_min (minY b) (y min))
           (JS.Math_min (minZ b) (z min))
           (JS.Math_max (maxX b) (x max))
           (JS.Math_max (maxY b) (y max))
           (JS.Math_max (maxZ b) (z max)).

Definition visit (b : Bounds) (mesh : Mesh) : Bounds :=
  if counted mesh then
    match getBoundingInfo mesh with
    | Some box => absorb b box
    | None => b
    end
  else b.

Definition fallback : Framing := mkFraming Vec.Zero (JS.of_Z 5).

Definition calculateBoundingInfo (meshes : list Mesh) : Framing :=
  let b := fold_left visit meshes start in
  if JS.strict_eq (minX b) PInf then fallback
  else
    mkFraming
      (mkVector3 (JS.div (JS.add (minX b) (maxX b)) (JS.of_Z 2))
                 (JS.div (JS.add (minY b) (maxY b)) (JS.of_Z 2))
                 (JS.div (JS.add (minZ b) (maxZ b)) (JS.of_Z 2)))
      (JS.div (JS.Math_max3 (JS.Math_abs (JS.sub (maxX b) (minX b)))
                            (JS.Math_abs (JS.sub (maxY b) (minY b)))
                            (JS.Math_abs (JS.sub (maxZ b) (minZ b))))
              (JS.of_Z 2)).

(** The test of [clearModels]: everything but the environment. *)
Definition is_model (mesh : Mesh) : bool :=
  bool_decide (name mesh <> "ground") && negb (includes "skybox" (name mesh)).

Definition clearModels (st : State) : State :=
  match scene st with
  | Some sc =>
      let snapshot := meshes sc in
      let attached :=
        fold_left (fun now mesh => if is_model mesh then dispose mesh now else now)
                  snapshot (meshes sc) in
      mkState (Some (mkScene attached (camera sc))) (modelLoaded st)
  | None => st
  end.

(** The success callback of [uploadModel] and [loadDefaultModel].  The
    importer has attached [loaded] to the scene before it calls back;
    [root] is the unique id the engine gives to the new "root" mesh. *)
Definition onImported (root : nat) (loaded : list Mesh) (st : State) : State :=
  match scene st with
  | Some sc =>
      let rootMesh := mkMesh root "root" true None (Some (mkBox Vec.Zero Vec.Zero)) in
      let adopt m :=
        if bool_decide (parent m = None) && bool_decide (uniqueId m <> root)
        then set_parent root m else m in
      let loaded' := map adopt loaded in
      let boundingInfo := calculateBoundingInfo loaded' in
      let cam := camera sc in
      let cam' := mkCamera (center boundingInfo)
                           (JS.mul (radius boundingInfo) (JS.ratio 5 2))
                           (lowerRadiusLimit cam) (upperRadiusLimit cam) in
      mkState (Some (mkScene (meshes sc ++ loaded' ++ [rootMesh]) cam')) true
  | None => st
  end.

(** [uploadModel] up to the import request: nothing without a file. *)
Definition uploadModel (file : option string) (st : State) : State :=
  match file with
  | None => st
  | Some _ => clearModels st
  end.

Definition loadDefaultModel (st : State) : State := clearModels st.

End Page.

(** ** Exceptions and completions

    A thrown JavaScript value is seen through its [message]; a missing
    message is the empty string, which is falsy like [undefined]. *)

Record Error : Type := mkError { message : string }.

#[global] Instance Error_eq_dec : EqDecision Error.
Proof. solve_decision. Defined.

(** [a || b] on strings: the empty string is falsy. *)
Definition or_else (a b : string) : string :=
  if bool_decide (a = "") then b else a.

(** How a run of statements ends: normally, by [return], by a thrown
    value, or suspended at an [await] (or at a request whose callback runs
    later) with the request handed to the environment. *)
Inductive Completion (S : Type) : Type :=
| Normal (s : S)
| Return (s : S)
| Throw (e : Error) (s : S)
| Await (s : S).

Arguments Normal {S} s.
Arguments Return {S} s.
Arguments Throw {S} e s.
Arguments Await {S} s.

#[global] Instance Completion_eq_dec {S} `{EqDecision S} : EqDecision (Completion S).
Proof. solve_decision. Defined.

(** What an awaited promise settles to. *)
Inductive Settled (A : Type) : Type :=
| Resolved (a : A)
| Rejected (e : Error).

Arguments Resolved {A} a.
Arguments Rejected {A} e.

#[global] Instance Settled_eq_dec {A} `{EqDecision A} : EqDecision (Settled A).
Proof. solve_decision. Defined.

Module Stmt.

Definition t (S : Type) : Type := S -> Completion S.

Definition skip {S} : t S := fun s => Normal s.
Definition ret {S} : t S := fun s => Return s.
Definition throw {S} (e : Error) : t S := fun s => Throw e s.
Definition await {S} : t S := fun s => Await s.
Definition assign {S} (f : S -> S) : t S := fun s => Normal (f s).

Definition seq {S} (a b : t S) : t S :=
  fun s => match a s with
           | Normal s' => b s'
           | other => other
           end.

(** [try { body } catch (e) { handler e }] *)
Definition try_catch {S} (body : t S) (handler : Error -> t S) : t S :=
  fun s => match body s with
           | Throw e s' => handler e s'
           | other => other
           end.

(** [try { body } finally { fin }]: [fin] runs when [body] is left; when
    it ends normally the completion of [body] stands.  A body suspended
    at an [await] has not been left. *)
Definition try_finally {S} (body fin : t S) : t S :=
  fun s =>
    let after (k : S -> Completion S) (s' : S) :=
      match fin s' with
      | Normal s'' => k s''
      | other => other
      end in
    match body s with
    | Normal s' => after Normal s'
    | Return s' => after Return s'
    | Throw e s' => after (Throw e) s'
    | Await s' => Await s'
    end.

(** A method call on a reference that may be null. *)
Definition on {S A} (ref : S -> option A) (what : string) (k : A -> t S) : t S :=
  fun s => match ref s with
           | Some a => k a s
           | None => Throw (mkError ("Cannot read properties of null (reading '" ++ what ++ "')")) s
           end.

(** The body of a function: [return] ends the function, not the caller. *)
Definition call {S} (body : t S) : t S :=
  fun s => match body s with
           | Return s' => Normal s'
           | other => other
           end.

(** [{ s1; s2; ... }] *)
Definition block {S} (body : list (t S)) : t S := foldr seq skip body.

Definition when {S} (cond : S -> bool) (a : t S) : t S :=
  fun s => if cond s then a s else Normal s.

Definition ifte {S} (cond : S -> bool) (a b : t S) : t S :=
  fun s => if cond s then a s else b s.

Definition state_of {S} (c : Completion S) : S :=
  match c with Normal s | Return s | Throw _ s | Await s => s end.

Definition uncaught {S} (c : Completion S) : bool :=
  match c with Throw _ _ => true | _ => false end.

Definition suspended {S} (c : Completion S) : bool :=
  match c with Await _ => true | _ => false end.

End Stmt.


(** ** The component on the <babylon-viewer> element *)

Module GlbViewer.

(** The viewer instance, as far as the component inspects it. *)
Record Viewer : Type := mkViewer { hasLoadModel : bool; hasDispose : bool }.

#[global] Instance Viewer_eq_dec : EqDecision Viewer.
Proof. solve_decision. Defined.

Record State : Type := mkState {
  viewerElement : bool;             (* the element ref is set *)
  viewerInstance : option Viewer;
  currentFile : option string;
  isModelLoaded : bool;
  isLoading : bool;
  isViewerReady : bool;
  loadError : option string;
  listening : bool                  (* modelchange, modelerror attached *)
}.

#[global] Instance State_eq_dec : EqDecision State.
Proof. solve_decision. Defined.

Definition set_viewerInstance v st :=
  mkState (viewerElement st) v (currentFile st) (isModelLoaded st)
          (isLoading st) (isViewerReady st) (loadError st) (listening st).
Definition set_currentFile f st :=
  mkState (viewerElement st) (viewerInstance st) f (isModelLoaded st)
          (isLoading st) (isViewerReady st) (loadError st) (listening st).
Definition set_isModelLoaded b st :=
  mkState (viewerElement st) (viewerInstance st) (currentFile st) b
          (isLoading st) (isViewerReady st) (loadError st) (listening st).
Definition set_isLoading b st :=
  mkState (viewerElement st) (viewerInstance st) (currentFile st)
          (isModelLoaded st) b (isViewerReady st) (loadError st) (listening st).
Definition set_isViewerReady b st :=
  mkState (viewerElement st) (viewerInstance st) (currentFile st)
          (isModelLoaded st) (isLoading st) b (loadError st) (listening st).
Definition set_loadError e st :=
  mkState (viewerElement st) (viewerInstance st) (currentFile st)
          (isModelLoaded st) (isLoading st) (isViewerReady st) e (listening st).
Definition set_listening b st :=
  mkState (viewerElement st) (viewerInstance st) (currentFile st)
          (isModelLoaded st) (isLoading st) (isViewerReady st) (loadError st) b.

(** The state of a freshly mounted component. *)
Definition mounted : State :=
  mkState true None None false false false None false.

(** The component before [onMounted]; [element] tells whether the ref to
    the viewer element is set. *)
Definition created (element : bool) : State :=
  mkState element None None false false false None false.

(** [onMounted]: the viewerready listener is added to the element; when
    there is no element the failure is shown. *)
Definition onMounted : Stmt.t State :=
  Stmt.ifte viewerElement
    Stmt.skip
    (Stmt.assign (set_loadError (Some "Viewer element could not be found in DOM."))).

(** The [modelerror] event: its [message], and the string form of its
    [error] when that is truthy. *)
Record ErrorEvent : Type := mkErrorEvent {
  ev_message : string;
  ev_error : option string
}.

(** [details] is [viewerElement.value.viewerDetails]; the inner option is
    its [viewer] field. *)
Definition onViewerReady (details : option (option Viewer)) : Stmt.t State :=
  Stmt.call (Stmt.block [
    Stmt.when (fun st => negb (viewerElement st)) Stmt.ret;
    match details with
    | Some (Some viewer) =>
        Stmt.block [
          Stmt.assign (set_viewerInstance (Some viewer));
          Stmt.assign (set_isViewerReady true);
          Stmt.assign (set_loadError None);
          Stmt.assign (set_listening true) ]
    | _ =>
        Stmt.block [
          Stmt.assign (set_loadError
            (Some "Viewer initialized, but API instance could not be accessed."));
          Stmt.assign (set_isViewerReady false) ]
    end ]).

(** [detail] is [event.detail], the source that was loaded, if any. *)
Definition onModelChange (detail : option string) : Stmt.t State :=
  Stmt.block [
    Stmt.assign (set_isLoading false);
    match detail with
    | Some _ =>
        Stmt.block [ Stmt.assign (set_isModelLoaded true);
                     Stmt.assign (set_loadError None) ]
    | None => Stmt.assign (set_isModelLoaded false)
    end ].

Definition onModelError (event : ErrorEvent) : Stmt.t State :=
  Stmt.block [
    Stmt.assign (set_isLoading false);
    Stmt.assign (set_isModelLoaded false);
    Stmt.assign (set_loadError (Some
      (or_else (ev_message event)
               (match ev_error event with
                | Some text => text
                | None => "Unknown model loading error."
                end)))) ].

Definition not_ready (st : State) : bool :=
  negb (isViewerReady st) || negb (bool_decide (is_Some (viewerInstance st))).

(** [viewerInstance.value.loadModel(...)]: a type error when the instance
    has no such function, otherwise the request is handed over. *)
Definition call_loadModel : Stmt.t State :=
  Stmt.on viewerInstance "loadModel" (fun viewer =>
    if hasLoadModel viewer then Stmt.await
    else Stmt.throw (mkError "viewerInstance.value.loadModel is not a function")).

Definition loadModelIntoViewer_catch (error : Error) : Stmt.t State :=
  Stmt.block [
    Stmt.assign (set_loadError
      (Some (or_else (message error) "Error initiating model load.")));
    Stmt.assign (set_isLoading false);
    Stmt.assign (set_isModelLoaded false) ].

(** [loadModelIntoViewer] up to its [await]. *)
Definition loadModelIntoViewer (file : string) : Stmt.t State :=
  Stmt.call (Stmt.block [
    Stmt.when not_ready (Stmt.block [
      Stmt.assign (set_loadError (Some "Viewer not ready. Cannot load model."));
      Stmt.ret ]);
    Stmt.assign (set_isLoading true);
    Stmt.assign (set_loadError None);
    Stmt.try_catch call_loadModel loadModelIntoViewer_catch ]).

(** [loadModelIntoViewer] from its [await] on. *)
Definition loadModelIntoViewer_resume (outcome : Settled unit) : Stmt.t State :=
  Stmt.call (Stmt.try_catch
    (match outcome with
     | Resolved _ => Stmt.skip
     | Rejected error => Stmt.throw error
     end)
    loadModelIntoViewer_catch).

Definition handleFileChange (file : option string) : Stmt.t State :=
  match file with
  | Some f => Stmt.block [ Stmt.assign (set_currentFile (Some f));
                           loadModelIntoViewer f ]
  | None => Stmt.skip
  end.

Definition clearModel_catch (error : Error) : Stmt.t State :=
  Stmt.block [
    Stmt.assign (set_loadError (Some "Failed to clear model."));
    Stmt.assign (set_isLoading false);
    Stmt.assign (set_isModelLoaded false) ].

(** [clearModel] up to its [await]. *)
Definition clearModel : Stmt.t State :=
  Stmt.call (Stmt.block [
    Stmt.when not_ready Stmt.ret;
    Stmt.assign (set_isLoading true);
    Stmt.assign (set_loadError None);
    Stmt.assign (set_currentFile None);
    Stmt.try_catch
      (Stmt.on viewerInstance "loadModel" (fun viewer =>
         if hasLoadModel viewer then Stmt.await
         else Stmt.assign (set_isLoading false)))
      clearModel_catch ]).

(** [clearModel] from its [await] on. *)
Definition clearModel_resume (outcome : Settled unit) : Stmt.t State :=
  Stmt.call (Stmt.try_catch
    (match outcome with
     | Resolved _ => Stmt.block [ Stmt.assign (set_isModelLoaded false);
                                  Stmt.assign (set_isLoading false) ]
     | Rejected error => Stmt.throw error
     end)
    clearModel_catch).

(** The template: [:disabled] of the file input and of the clear
    button. *)
Definition fileInput_disabled (st : State) : bool :=
  isLoading st || negb (isViewerReady st).

Definition clearButton_disabled (st : State) : bool :=
  negb (isModelLoaded st) || isLoading st || negb (isViewerReady st).

(** *** The component in its environment

    The viewer element owns the geometry.  A request stays in flight from
    the call of [loadModel] until the element reports how it ended: the
    events it dispatches for that request, then the settling of the
    promise. *)

Inductive ViewerEvent : Type :=
| ModelChange (detail : option string)
| ModelError (event : ErrorEvent).

Inductive Event : Type :=
| ViewerReady (details : option (option Viewer))
| FileChange (file : option string)
| ClearClick
| LoadEnds (events : list ViewerEvent) (outcome : Settled unit)
| ClearEnds (events : list ViewerEvent) (outcome : Settled unit).

Record World : Type := mkWorld {
  component : State;
  loads : nat;       (* suspended loadModelIntoViewer calls *)
  clears : nat       (* suspended clearModel calls *)
}.

#[global] Instance World_eq_dec : EqDecision World.
Proof. solve_decision. Defined.

Definition dispatch (ev : ViewerEvent) : Stmt.t State :=
  match ev with
  | ModelChange detail =>
      Stmt.when listening (onModelChange detail)
  | ModelError event =>
      Stmt.when listening (onModelError event)
  end.

Definition step (ev : Event) (w : World) : option World :=
  let st := component w in
  match ev with
  | ViewerReady details =>
      Some (mkWorld (Stmt.state_of (onViewerReady details st)) (loads w) (clears w))
  | FileChange file =>
      if fileInput_disabled st then None
      else
        let c := handleFileChange file st in
        Some (mkWorld (Stmt.state_of c)
                      (if Stmt.suspended c then S (loads w) else loads w)
                      (clears w))
  | ClearClick =>
      if clearButton_disabled st then None
      else
        let c := clearModel st in
        Some (mkWorld (Stmt.state_of c) (loads w)
                      (if Stmt.suspended c then S (clears w) else clears w))
  | LoadEnds events outcome =>
      match loads w with
      | O => None
      | S n =>
          let st1 := Stmt.state_of (Stmt.block (map dispatch events) st) in
          Some (mkWorld (Stmt.state_of (loadModelIntoViewer_resume outcome st1))
                        n (clears w))
      end
  | ClearEnds events outcome =>
      match clears w with
      | O => None
      | S n =>
          let st1 := Stmt.state_of (Stmt.block (map dispatch events) st) in
          Some (mkWorld (Stmt.state_of (clearModel_resume outcome st1))
                        (loads w) n)
      end
  end.

Fixpoint run (evs : list Event) (w : World) : option World :=
  match evs with
  | [] => Some w
  | ev :: rest =>
      match step ev w with
      | Some w' => run rest w'
      | None => None
      end
  end.

Definition initial : World := mkWorld mounted 0 0.

Definition in_flight (w : World) : nat := loads w + clears w.

End GlbViewer.

(** ** The component with the modelUrl prop *)

Module BabylonViewer.

Record Engine : Type := mkEngine { renderLoop : bool }.

#[global] Instance Engine_eq_dec : EqDecision Engine.
Proof. solve_decision. Defined.

Record Scene : Type := mkScene { meshes : list Mesh }.

#[global] Instance Scene_eq_dec : EqDecision Scene.
Proof. solve_decision. Defined.

Inductive Emit : Type :=
| ModelLoaded (source : string)
| ModelErrored (text : string).

#[global] Instance Emit_eq_dec : EqDecision Emit.
Proof. solve_decision. Defined.

Record State : Type := mkState {
  babylonCanvas : bool;             (* the canvas ref is set *)
  modelUrl : string;                (* props.modelUrl *)
  isLoading : bool;
  errorLoading : option string;
  hasModel : bool;
  engine : option Engine;
  scene : option Scene;
  camera : option Camera;
  resizeListener : bool;            (* handleResize is on window *)
  emitted : list Emit
}.

#[global] Instance State_eq_dec : EqDecision State.
Proof. solve_decision. Defined.

Definition set_modelUrl u st :=
  mkState (babylonCanvas st) u (isLoading st) (errorLoading st) (hasModel st)
          (engine st) (scene st) (camera st) (resizeListener st) (emitted st).
Definition set_isLoading b st :=
  mkState (babylonCanvas st) (modelUrl st) b (errorLoading st) (hasModel st)
          (engine st) (scene st) (camera st) (resizeListener st) (emitted st).
Definition set_errorLoading e st :=
  mkState (babylonCanvas st) (modelUrl st) (isLoading st) e (hasModel st)
          (engine st) (scene st) (camera st) (resizeListener st) (emitted st).
Definition set_hasModel b st :=
  mkState (babylonCanvas st) (modelUrl st) (isLoading st) (errorLoading st) b
          (engine st) (scene st) (camera st) (resizeListener st) (emitted st).
Definition set_engine e st :=
  mkState (babylonCanvas st) (modelUrl st) (isLoading st) (errorLoading st)
          (hasModel st) e (scene st) (camera st) (resizeListener st) (emitted st).
Definition set_scene s st :=
  mkState (babylonCanvas st) (modelUrl st) (isLoading st) (errorLoading st)
          (hasModel st) (engine st) s (camera st) (resizeListener st) (emitted st).
Definition set_camera c st :=
  mkState (babylonCanvas st) (modelUrl st) (isLoading st) (errorLoading st)
          (hasModel st) (engine st) (scene st) c (resizeListener st) (emitted st).
Definition set_resizeListener b st :=
  mkState (babylonCanvas st) (modelUrl st) (isLoading st) (errorLoading st)
          (hasModel st) (engine st) (scene st) (camera st) b (emitted st).
Definition emit ev st :=
  mkState (babylonCanvas st) (modelUrl st) (isLoading st) (errorLoading st)
          (hasModel st) (engine st) (scene st) (camera st) (resizeListener st)
          (emitted st ++ [ev]).

(** The component before [onMounted]. *)
Definition created (url : string) : State :=
  mkState true url false None false None None None false [].

(** The geometry attached to the scene. *)
Definition attached (st : State) : list Mesh :=
  match scene st with
  | Some sc => meshes sc
  | None => []
  end.

(** The importer adds the loaded meshes to the scene it was given. *)
Definition attach (loaded : list Mesh) (st : State) : State :=
  match scene st with
  | Some sc => set_scene (Some (mkScene (meshes sc ++ loaded))) st
  | None => st
  end.

(** *** Framing: the block shared by [loadModel] and
    [handleFileSelected] *)

(** [mesh.getBoundingInfo().boundingBox] *)
Definition boxOf (mesh : Mesh) : Error + BoundingBox :=
  match getBoundingInfo mesh with
  | Some box => inr box
  | None => inl (mkError "mesh.getBoundingInfo is not a function")
  end.

(** The loop over [result.meshes[1..]]. *)
Fixpoint unionFrom (min max : Vector3) (rest : list Mesh)
  : Error + (Vector3 * Vector3) :=
  match rest with
  | [] => inr (min, max)
  | mesh :: rest' =>
      match boxOf mesh with
      | inl e => inl e
      | inr box =>
          unionFrom (Vec.Minimize min (minimumWorld box))
                    (Vec.Maximize max (maximumWorld box)) rest'
      end
  end.

Record Fit : Type := mkFit {
  fit_center : Vector3;
  fit_extents : Vector3;
  fit_size : num;
  fit_radius : num
}.

#[global] Instance Fit_eq_dec : EqDecision Fit.
Proof. solve_decision. Defined.

Definition fit (min max : Vector3) : Fit :=
  let center := Vec.Center min max in
  let extents := Vec.subtract max min in
  let size := JS.Math_max3 (x extents) (y extents) (z extents) in
  let radius := JS.mul size (JS.ratio 3 2) in
  mkFit center extents size radius.

(** [None] when no mesh was loaded: the block is skipped. *)
Definition measure (loaded : list Mesh) : Error + option Fit :=
  match loaded with
  | [] => inr None
  | first :: rest =>
      match boxOf first with
      | inl e => inl e
      | inr box =>
          match unionFrom (minimumWorld box) (maximumWorld box) rest with
          | inl e => inl e
          | inr (min, max) => inr (Some (fit min max))
          end
      end
  end.

Definition frameModel (loaded : list Mesh) : Stmt.t State :=
  match measure loaded with
  | inl e => Stmt.throw e
  | inr None => Stmt.skip
  | inr (Some f) =>
      Stmt.on camera "setTarget" (fun _ =>
        Stmt.assign (set_camera (Some
          (mkCamera (fit_center f) (fit_radius f)
                    (JS.mul (fit_size f) (JS.ratio 1 10))
                    (JS.mul (fit_radius f) (JS.of_Z 5))))))
  end.

(** *** Loading from a URL *)

Definition report (e : Error) : Stmt.t State :=
  Stmt.block [
    Stmt.assign (set_errorLoading
      (Some (or_else (message e) "Unknown error occurred.")));
    Stmt.assign (emit (ModelErrored (or_else (message e) "Unknown error occurred."))) ].

Definition stopLoading : Stmt.t State := Stmt.assign (set_isLoading false).

(** [loadModel] up to its [await]. *)
Definition loadModel (url : string) : Stmt.t State :=
  Stmt.call (Stmt.block [
    Stmt.when (fun st => bool_decide (scene st = None)) Stmt.ret;
    Stmt.assign (set_isLoading true);
    Stmt.assign (set_errorLoading None);
    Stmt.try_finally
      (Stmt.try_catch
         (Stmt.ifte (fun _ => String.prefix "blob:" url)
            (Stmt.block [
               Stmt.assign (set_errorLoading
                 (Some "Please use the Add Model button to load models."));
               Stmt.ret ])
            Stmt.await)
         report)
      stopLoading ]).

(** [loadModel] from its [await] on. *)
Definition loadModel_resume (url : string) (outcome : Settled (list Mesh))
  : Stmt.t State :=
  Stmt.call (Stmt.try_finally
    (Stmt.try_catch
       (Stmt.block [
          match outcome with
          | Resolved loaded =>
              Stmt.block [ Stmt.assign (attach loaded); frameModel loaded ]
          | Rejected e => Stmt.throw e
          end;
          Stmt.assign (set_hasModel true);
          Stmt.assign (emit (ModelLoaded url)) ])
       report)
    stopLoading).

(** *** Set-up and tear-down *)

Definition disposeBabylon : Stmt.t State :=
  Stmt.block [
    Stmt.assign (set_resizeListener false);
    Stmt.when (fun st => bool_decide (is_Some (engine st))) (Stmt.block [
      Stmt.on engine "stopRenderLoop" (fun _ =>
        Stmt.assign (set_engine (Some (mkEngine false))));
      Stmt.when (fun st => bool_decide (is_Some (scene st))) (Stmt.block [
        Stmt.on scene "dispose" (fun _ =>
          Stmt.assign (set_scene (Some (mkScene []))));
        Stmt.assign (set_scene None) ]);
      Stmt.on engine "dispose" (fun _ => Stmt.skip);
      Stmt.assign (set_engine None);
      Stmt.assign (set_camera None) ]) ].

(** [initializeBabylon] up to its [await]; [boot] is what the engine's
    constructors throw, if they do. *)
Definition initializeBabylon (boot : option Error) : Stmt.t State :=
  Stmt.call (Stmt.block [
    Stmt.when (fun st => negb (babylonCanvas st)) Stmt.ret;
    disposeBabylon;
    Stmt.assign (set_isLoading true);
    Stmt.assign (set_errorLoading None);
    Stmt.assign (set_hasModel false);
    Stmt.try_finally
      (Stmt.try_catch
         (Stmt.block [
            match boot with
            | Some e => Stmt.throw e
            | None => Stmt.skip
            end;
            Stmt.assign (set_engine (Some (mkEngine false)));
            Stmt.assign (set_scene (Some (mkScene [])));
            Stmt.assign (set_camera (Some
              (mkCamera Vec.Zero (JS.of_Z 10) (JS.of_Z 2) (JS.of_Z 50))));
            Stmt.on engine "runRenderLoop" (fun _ =>
              Stmt.assign (set_engine (Some (mkEngine true))));
            Stmt.assign (set_resizeListener true);
            fun st =>
              if bool_decide (modelUrl st <> "")
              then loadModel (modelUrl st) st
              else Stmt.assign (set_isLoading false) st ])
         report)
      stopLoading ]).

(** [initializeBabylon] from its [await] of [loadModel] on. *)
Definition initializeBabylon_resume (url : string)
    (outcome : Settled (list Mesh)) : Stmt.t State :=
  Stmt.call (Stmt.try_finally
    (Stmt.try_catch (loadModel_resume url outcome) report)
    stopLoading).

(** *** Loading from a file *)

(** [handleFileSelected] up to [reader.readAsArrayBuffer]. *)
Definition handleFileSelected (file : option string) : Stmt.t State :=
  Stmt.call (Stmt.block [
    Stmt.when (fun st => bool_decide (file = None) || bool_decide (scene st = None))
              Stmt.ret;
    Stmt.assign (set_isLoading true);
    Stmt.assign (set_errorLoading None);
    Stmt.await ]).

(** [reader.onload] up to its [await]; [content] is
    [fileEvent.target?.result]. *)
Definition reader_onload (content : option string) : Stmt.t State :=
  Stmt.call (Stmt.block [
    Stmt.when (fun _ => bool_decide (content = None)) (Stmt.block [
      Stmt.assign (set_errorLoading (Some "Error: Could not read file"));
      Stmt.assign (set_isLoading false);
      Stmt.ret ]);
    Stmt.try_finally (Stmt.try_catch Stmt.await report) stopLoading ]).

(** [reader.onload] from its [await] on. *)
Definition reader_onload_resume (file : string)
    (outcome : Settled (list Mesh)) : Stmt.t State :=
  Stmt.call (Stmt.try_finally
    (Stmt.try_catch
       (Stmt.block [
          match outcome with
          | Resolved loaded =>
              Stmt.block [ Stmt.assign (attach loaded); frameModel loaded ]
          | Rejected e => Stmt.throw e
          end;
          Stmt.assign (set_hasModel true);
          Stmt.assign (emit (ModelLoaded file)) ])
       report)
    stopLoading).

Definition reader_onerror : Stmt.t State :=
  Stmt.block [
    Stmt.assign (set_errorLoading (Some "Error: Failed to read the file"));
    Stmt.assign (set_isLoading false) ].

(** The template: the Add Model overlay, which holds the file input, is
    rendered under [v-if="!hasModel && !isLoading"]. *)
Definition addModel_shown (st : State) : bool :=
  negb (hasModel st) && negb (isLoading st).

(** *** Loads that do not overlap

    One load from its request to its outcome, with nothing else in
    between. *)

Inductive Load : Type :=
| Mount (boot : option Error) (outcome : Settled (list Mesh))
| UrlChange (url : string) (boot : option Error) (outcome : Settled (list Mesh))
| FileChosen (file : string) (read : option (option string))
             (outcome : Settled (list Mesh)).

Definition then_resume (c : Completion State) (k : Stmt.t State) : State :=
  match c with
  | Await s => Stmt.state_of (k s)
  | other => Stmt.state_of other
  end.

(** [None] when the user interface does not offer the load. *)
Definition perform (l : Load) (st : State) : option State :=
  match l with
  | Mount boot outcome =>
      Some (then_resume (initializeBabylon boot st)
                        (initializeBabylon_resume (modelUrl st) outcome))
  | UrlChange url boot outcome =>
      (* the watcher on props.modelUrl *)
      let st' := set_modelUrl url st in
      if bool_decide (url <> "") && bool_decide (url <> modelUrl st)
         && babylonCanvas st
      then Some (then_resume (initializeBabylon boot st')
                             (initializeBabylon_resume url outcome))
      else Some st'
  | FileChosen file read outcome =>
      if addModel_shown st then
        match handleFileSelected (Some file) st with
        | Await s1 =>
            match read with
            | None => Some (Stmt.state_of (reader_onerror s1))
            | Some content =>
                Some (then_resume (reader_onload content s1)
                                  (reader_onload_resume file outcome))
            end
        | other => Some (Stmt.state_of other)
        end
      else None
  end.

Fixpoint perform_all (ls : list Load) (st : State) : option State :=
  match ls with
  | [] => Some st
  | l :: rest =>
      match perform l st with
      | Some st' => perform_all rest st'
      | None => None
      end
  end.

End BabylonViewer.

(** ** components/BabylonScene.vue *)

Module BabylonScene.

Record Engine : Type := mkEngine { engine_disposed : bool }.

#[global] Instance Engine_eq_dec : EqDecision Engine.
Proof. solve_decision. Defined.

(** [transformNodes] holds the model roots with their positions, as
    (unique id, position). *)
Record Scene : Type := mkScene {
  meshes : list Mesh;
  transformNodes : list (nat * Vector3);
  activeCamera : option Camera;
  scene_disposed : bool
}.

#[global] Instance Scene_eq_dec : EqDecision Scene.
Proof. solve_decision. Defined.

Record State : Type := mkState {
  canvasRef : bool;                 (* the canvas ref is set *)
  loadingStatus : string;
  engine : option Engine;
  scene : option Scene;
  loadedModel : list Mesh;
  resizeHandler : bool;             (* the handler has been created *)
  canvasListeners : bool;           (* wheel, touchmove on the canvas *)
  windowListener : bool             (* resize on window *)
}.

#[global] Instance State_eq_dec : EqDecision State.
Proof. solve_decision. Defined.

Definition set_loadingStatus s st :=
  mkState (canvasRef st) s (engine st) (scene st) (loadedModel st)
          (resizeHandler st) (canvasListeners st) (windowListener st).
Definition set_engine e st :=
  mkState (canvasRef st) (loadingStatus st) e (scene st) (loadedModel st)
          (resizeHandler st) (canvasListeners st) (windowListener st).
Definition set_scene s st :=
  mkState (canvasRef st) (loadingStatus st) (engine st) s (loadedModel st)
          (resizeHandler st) (canvasListeners st) (windowListener st).
Definition set_loadedModel l st :=
  mkState (canvasRef st) (loadingStatus st) (engine st) (scene st) l
          (resizeHandler st) (canvasListeners st) (windowListener st).
Definition set_resizeHandler b st :=
  mkState (canvasRef st) (loadingStatus st) (engine st) (scene st)
          (loadedModel st) b (canvasListeners st) (windowListener st).
Definition set_canvasListeners b st :=
  mkState (canvasRef st) (loadingStatus st) (engine st) (scene st)
          (loadedModel st) (resizeHandler st) b (windowListener st).
Definition set_windowListener b st :=
  mkState (canvasRef st) (loadingStatus st) (engine st) (scene st)
          (loadedModel st) (resizeHandler st) (canvasListeners st) b.

(** The component before [initScene]. *)
Definition created : State :=
  mkState true "" None None [] false false false.

(** The component after [initScene]. *)
Definition initialised : State :=
  mkState true "" (Some (mkEngine false))
    (Some (mkScene [] []
             (Some (mkCamera Vec.Zero (JS.of_Z 10) (JS.ratio 1 10) (JS.of_Z 100)))
             false))
    [] true true true.

(** [initScene]: nothing without the canvas; otherwise the listeners
    on the canvas, the engine, the scene with its camera (radius 10,
    limits 0.1 and 100), and the resize handler on window. *)
Definition initScene : Stmt.t State :=
  Stmt.call (Stmt.block [
    Stmt.when (fun st => negb (canvasRef st)) Stmt.ret;
    Stmt.assign (set_canvasListeners true);
    Stmt.assign (set_engine (Some (mkEngine false)));
    Stmt.assign (set_scene (Some
      (mkScene [] []
         (Some (mkCamera Vec.Zero (JS.of_Z 10) (JS.ratio 1 10) (JS.of_Z 100)))
         false)));
    Stmt.assign (set_resizeHandler true);
    Stmt.assign (set_windowListener true) ]).

(** The two callbacks registered by [onMounted]: the load event of the
    window, and the timer that initialises when no engine exists yet. *)
Definition onWindowLoad : Stmt.t State := initScene.

Definition onFallbackTimer : Stmt.t State :=
  Stmt.when (fun st => bool_decide (engine st = None)) initScene.

Definition attached (st : State) : list Mesh :=
  match scene st with
  | Some sc => meshes sc
  | None => []
  end.

Definition on_meshes (f : list Mesh -> list Mesh) (st : State) : State :=
  match scene st with
  | Some sc =>
      set_scene (Some (mkScene (f (meshes sc)) (transformNodes sc)
                               (activeCamera sc) (scene_disposed sc))) st
  | None => st
  end.

(** [loadedModel.forEach(mesh => mesh.dispose())] *)
Definition disposeLoaded (st : State) : State :=
  fold_left (fun now mesh => on_meshes (dispose mesh) now) (loadedModel st) st.

(** [handleFileImport] up to [reader.readAsArrayBuffer]; [file] is
    [target.files[0]]. *)
Definition handleFileImport (file : option string) : Stmt.t State :=
  Stmt.call (Stmt.block [
    Stmt.when (fun st => bool_decide (file = None) || bool_decide (scene st = None))
              Stmt.ret;
    Stmt.assign (set_loadingStatus ("Loading " ++ default "" file ++ "..."));
    Stmt.when (fun st => negb (bool_decide (loadedModel st = []))) (Stmt.block [
      Stmt.assign disposeLoaded;
      Stmt.assign (set_loadedModel []) ]);
    Stmt.await ]).

(** [reader.onload] up to the request to the importer; [sync] is what
    [ImportMesh] throws before returning, if it does. *)
Definition reader_onload (content : option string) (sync : option Error)
  : Stmt.t State :=
  Stmt.call (Stmt.block [
    Stmt.when (fun _ => bool_decide (content = None)) (Stmt.block [
      Stmt.assign (set_loadingStatus "Error: Could not read file");
      Stmt.ret ]);
    Stmt.try_catch
      (match sync with
       | Some e => Stmt.throw e
       | None => Stmt.await
       end)
      (fun error =>
         Stmt.assign (set_loadingStatus ("Exception: " ++ message error))) ]).

Definition reader_onerror : Stmt.t State :=
  Stmt.assign (set_loadingStatus "Error: Failed to read the file").

(** The progress callback; [percentage] is the rounded value as text. *)
Definition onProgress (percentage : option string) : Stmt.t State :=
  match percentage with
  | Some p => Stmt.assign (set_loadingStatus ("Loading: " ++ p ++ "%"))
  | None => Stmt.skip
  end.

(** The error callback of [ImportMesh]. *)
Definition onError (text : string) : Stmt.t State :=
  Stmt.assign (set_loadingStatus ("Error: " ++ text)).

(** *** Framing in the success callback *)

Definition grow (acc : Vector3 * Vector3) (mesh : Mesh) : Vector3 * Vector3 :=
  match getBoundingInfo mesh with
  | Some box => (Vec.Minimize (fst acc) (minimumWorld box),
                 Vec.Maximize (snd acc) (maximumWorld box))
  | None => acc
  end.

Definition bounds (loaded : list Mesh) : Vector3 * Vector3 :=
  fold_left grow loaded
    (mkVector3 JS.MAX_VALUE JS.MAX_VALUE JS.MAX_VALUE,
     mkVector3 JS.MIN_VALUE JS.MIN_VALUE JS.MIN_VALUE).

Record Fit : Type := mkFit {
  fit_center : Vector3;
  fit_size : Vector3;
  fit_maxSize : num
}.

#[global] Instance Fit_eq_dec : EqDecision Fit.
Proof. solve_decision. Defined.

Definition fit (loaded : list Mesh) : Fit :=
  let (min, max) := bounds loaded in
  let center := Vec.Center min max in
  let size := Vec.subtract max min in
  let maxSize := JS.Math_max3 (x size) (y size) (z size) in
  mkFit center size maxSize.

Definition adopt (root : nat) (mesh : Mesh) : Mesh :=
  if bool_decide (parent mesh = None) then set_parent root mesh else mesh.

(** [modelRoot.position = center.scale(-1)] *)
Definition rootPosition (loaded : list Mesh) : Vector3 :=
  Vec.scale (fit_center (fit loaded)) (JS.of_Z (-1)).

(** [camera.rebuildAnglesAndRadius()]: the engine computes the angles and
    the radius anew from the position of the camera and its target;
    [rebuilt] is the radius it arrives at.  The position is the one of
    the last frame drawn: a radius assigned since then is overwritten. *)
Definition rebuildAnglesAndRadius (rebuilt : num) (cam : Camera) : Camera :=
  mkCamera (target cam) rebuilt (lowerRadiusLimit cam) (upperRadiusLimit cam).

(** The success callback of [ImportMesh].  The importer has attached
    [loaded] to the scene; [root] is the unique id of the new model
    root and [rebuilt] the radius the engine computes in
    [rebuildAnglesAndRadius].  The meshes in the scene and in
    [loadedModel] are the same objects, so both see the new parent.  The
    angles of the camera are not represented.  The callback ends by
    setting a timer that hands the meshes to the framing behaviour of the
    camera 100 ms later; how the engine then moves the camera is not
    represented either, so nothing is said here of the camera once that
    timer has fired. *)
Definition onSuccess (root : nat) (rebuilt : num) (loaded : list Mesh)
  : Stmt.t State :=
  Stmt.call (Stmt.block [
    Stmt.assign (set_loadingStatus "Model loaded successfully");
    Stmt.assign (set_loadedModel loaded);
    Stmt.when (fun _ => bool_decide (length loaded = 0%nat)) (Stmt.block [
      Stmt.assign (set_loadingStatus "Warning: No meshes were loaded");
      Stmt.ret ]);
    Stmt.assign (fun st =>
      set_loadedModel (map (adopt root) loaded)
        (on_meshes (map (fun m =>
           if bool_decide (uniqueId m ∈ map uniqueId loaded)
           then adopt root m else m)) st));
    Stmt.on scene "activeCamera" (fun sc =>
      let f := fit loaded in
      let cam' :=
        match activeCamera sc with
        | Some cam =>
            let aimed :=                      (* camera.setTarget(Zero) *)
              mkCamera Vec.Zero (cam_radius cam)
                       (lowerRadiusLimit cam) (upperRadiusLimit cam) in
            let moved :=                      (* camera.radius = maxSize * 2 *)
              mkCamera (target aimed) (JS.mul (fit_maxSize f) (JS.of_Z 2))
                       (lowerRadiusLimit aimed) (upperRadiusLimit aimed) in
            Some (rebuildAnglesAndRadius rebuilt moved)
        | None => None
        end in
      Stmt.assign (set_scene (Some
        (mkScene (meshes sc) (transformNodes sc ++ [(root, rootPosition loaded)])
                 cam' (scene_disposed sc))))) ]).

(** The importer attaches the loaded meshes to the scene, then calls
    back. *)
Definition attach (loaded : list Mesh) : State -> State :=
  on_meshes (fun now => now ++ loaded).

(** *** Tear-down *)

Definition onBeforeUnmount : Stmt.t State :=
  Stmt.block [
    Stmt.when (fun st => negb (bool_decide (loadedModel st = [])))
              (Stmt.assign disposeLoaded);
    Stmt.when (fun st => bool_decide (is_Some (scene st)))
      (Stmt.on scene "dispose" (fun sc =>
         Stmt.assign (set_scene (Some
           (mkScene [] [] (activeCamera sc) true)))));
    Stmt.when (fun st => bool_decide (is_Some (engine st)))
      (Stmt.on engine "dispose" (fun _ =>
         Stmt.assign (set_engine (Some (mkEngine true)))));
    Stmt.when canvasRef (Stmt.assign (set_canvasListeners false));
    Stmt.when resizeHandler (Stmt.assign (set_windowListener false)) ].

(** *** The component in its environment

    The browser and the importer hold the requests in flight: file reads
    and imports.  Each handler runs to completion; their callbacks are
    separate events.  The render loop draws frames between them, and
    nothing but the success callback moves the camera here: when a
    callback starts, the position of the camera is the one of the radius
    it then has, around a target that is the origin from [initScene]
    on. *)

(** The distance from the camera to its target at the last frame. *)
Definition shown_radius (st : State) : num :=
  match scene st with
  | Some sc =>
      match activeCamera sc with
      | Some cam => cam_radius cam
      | None => JS.of_Z 0
      end
  | None => JS.of_Z 0
  end.

Inductive Event : Type :=
| FileImport (file : option string)
| ReaderLoad (content : option string) (sync : option Error)
| ReaderError
| Progress (percentage : option string)
| ImportEnds (root : nat) (outcome : Settled (list Mesh)).

Record World : Type := mkWorld {
  component : State;
  reads : nat;        (* file reads in flight *)
  imports : nat       (* imports in flight *)
}.

#[global] Instance World_eq_dec : EqDecision World.
Proof. solve_decision. Defined.

Definition step (ev : Event) (w : World) : option World :=
  let st := component w in
  match ev with
  | FileImport file =>
      let c := handleFileImport file st in
      Some (mkWorld (Stmt.state_of c)
                    (if Stmt.suspended c then S (reads w) else reads w)
                    (imports w))
  | ReaderLoad content sync =>
      match reads w with
      | O => None
      | S n =>
          let c := reader_onload content sync st in
          Some (mkWorld (Stmt.state_of c) n
                        (if Stmt.suspended c then S (imports w) else imports w))
      end
  | ReaderError =>
      match reads w with
      | O => None
      | S n => Some (mkWorld (Stmt.state_of (reader_onerror st)) n (imports w))
      end
  | Progress percentage =>
      match imports w with
      | O => None
      | S _ => Some (mkWorld (Stmt.state_of (onProgress percentage st))
                             (reads w) (imports w))
      end
  | ImportEnds root outcome =>
      match imports w with
      | O => None
      | S n =>
          match outcome with
          | Resolved loaded =>
              Some (mkWorld (Stmt.state_of (onSuccess root (shown_radius st) loaded
                                                      (attach loaded st)))
                            (reads w) n)
          | Rejected e =>
              Some (mkWorld (Stmt.state_of (onError (message e) st)) (reads w) n)
          end
      end
  end.

Fixpoint run (evs : list Event) (w : World) : option World :=
  match evs with
  | [] => Some w
  | ev :: rest =>
      match step ev w with
      | Some w' => run rest w'
      | None => None
      end
  end.

Definition initial : World := mkWorld initialised 0 0.

Definition in_flight (w : World) : nat := reads w + imports w.

(** One load from its request to its outcome, with nothing else in
    between. *)
Inductive Load : Type :=
| ReadFails (file : string)
| ReadEmpty (file : string)
| ImportThrows (file content : string) (e : Error)
| ImportFails (file content : string) (root : nat) (e : Error)
| ImportSucceeds (file content : string) (root : nat) (loaded : list Mesh).

Definition events_of (l : Load) : list Event :=
  match l with
  | ReadFails file => [FileImport (Some file); ReaderError]
  | ReadEmpty file => [FileImport (Some file); ReaderLoad None None]
  | ImportThrows file content e =>
      [FileImport (Some file); ReaderLoad (Some content) (Some e)]
  | ImportFails file content root e =>
      [FileImport (Some file); ReaderLoad (Some content) None;
       ImportEnds root (Rejected e)]
  | ImportSucceeds file content root loaded =>
      [FileImport (Some file); ReaderLoad (Some content) None;
       ImportEnds root (Resolved loaded)]
  end.

(** Whether a status line announces a load in progress. *)
Definition shows_loading (st : State) : bool :=
  String.prefix "Loading" (loadingStatus st).

End BabylonScene.

(** ** Sample data *)

Module Sample.

Definition vec (a b c : Z) : Vector3 :=
  mkVector3 (JS.of_Z a) (JS.of_Z b) (JS.of_Z c).

Definition halves (a b c : Z) : Vector3 :=
  mkVector3 (JS.ratio a 2) (JS.ratio b 2) (JS.ratio c 2).

Definition node (id : nat) (label : string) (lo hi : Vector3) : Mesh :=
  mkMesh id label true None (Some (mkBox lo hi)).

(** The two nodes of the specification's example. *)
Definition cube : Mesh := node 1 "cube" (vec (-1) (-1) (-1)) (vec 1 1 1).
Definition shifted : Mesh := node 2 "shifted" (vec 0 0 0) (vec 2 2 2).

(** A node that lies wholly below the origin on every axis. *)
Definition sunken : Mesh := node 3 "sunken" (vec (-2) (-2) (-2)) (vec (-1) (-1) (-1)).

(** A node that is not shown, two meshes with the names the standalone
    page leaves alone, and a node without a bounding box. *)
Definition hidden : Mesh :=
  mkMesh 4 "hidden" false None (Some (mkBox (vec 1 1 1) (vec 3 3 3))).
Definition veiled : Mesh :=
  mkMesh 8 "veiled" false None (Some (mkBox (vec 0 0 0) (vec 1 1 1))).
Definition ground : Mesh :=
  mkMesh 5 "ground" true None (Some (mkBox (vec (-5) 0 (-5)) (vec 5 0 5))).
Definition skybox : Mesh :=
  mkMesh 6 "hdrskybox" true None (Some (mkBox (vec (-50) (-50) (-50)) (vec 50 50 50))).
Definition bare : Mesh := mkMesh 7 "bare" true None None.

(** A node whose box has its corners the other way round. *)
Definition turned : Mesh := node 12 "turned" (vec 4 4 4) (vec 1 1 1).

Definition lens : Camera :=
  mkCamera (vec 0 0 0) (JS.of_Z 5) (JS.of_Z 2) (JS.of_Z 10).

(** The standalone page with a model of two nodes among two meshes that
    it leaves alone. *)
Definition page_scene : Page.Scene :=
  Page.mkScene [ground; cube; skybox; shifted] lens.
Definition page : Page.State := Page.mkState (Some page_scene) true.



(** The component on the viewer element once the viewer is ready. *)
Definition idle_viewer : GlbViewer.World :=
  GlbViewer.mkWorld
    (GlbViewer.mkState true (Some (GlbViewer.mkViewer true true)) None
                       false false true None true)
    0 0.

(** The viewer becomes ready and a file is chosen; the world this leads
    to, with the request in flight. *)
Definition first_request : list GlbViewer.Event :=
  [GlbViewer.ViewerReady (Some (Some (GlbViewer.mkViewer true true)));
   GlbViewer.FileChange (Some "model.glb")].

Definition loading_viewer : GlbViewer.World :=
  GlbViewer.mkWorld
    (GlbViewer.mkState true (Some (GlbViewer.mkViewer true true))
                       (Some "model.glb") false true true None true)
    1 0.

(** The request has resolved and the element has dispatched no event for
    it. *)
Definition unanswered_viewer : GlbViewer.World :=
  GlbViewer.mkWorld (GlbViewer.component loading_viewer) 0 0.

(** The model is shown; then the clear button has been clicked. *)
Definition loaded_viewer : GlbViewer.World :=
  GlbViewer.mkWorld
    (GlbViewer.mkState true (Some (GlbViewer.mkViewer true true))
                       (Some "model.glb") true false true None true)
    0 0.

Definition clearing_viewer : GlbViewer.World :=
  GlbViewer.mkWorld
    (GlbViewer.mkState true (Some (GlbViewer.mkViewer true true))
                       None true true true None true)
    0 1.


End Sample.

(** ** What the claims speak of

    The words of the specification, stated apart from the code: the order
    on numbers, least and greatest elements, the union of bounding boxes,
    its midpoint and its extent. *)

Module Spec.

(** The order on numbers; NaN is not comparable. *)
Definition le (a b : num) : Prop :=
  match a, b with
  | NaN, _ | _, NaN => False
  | NInf, _ => True
  | _, PInf => True
  | Fin p, Fin q => p <= q
  | _, _ => False
  end.

#[global] Instance le_dec : RelDecision le.
Proof. intros [] []; simpl; apply _. Defined.

Definition least (m : num) (l : list num) : Prop :=
  m ∈ l /\ forall a, a ∈ l -> le m a.

Definition greatest (m : num) (l : list num) : Prop :=
  m ∈ l /\ forall a, a ∈ l -> le a m.

Definition axes : list (Vector3 -> num) := [x; y; z].

(** Along [axis], the union of [boxes] spans from [lo] to [hi]. *)
Definition spans (axis : Vector3 -> num) (boxes : list BoundingBox)
    (lo hi : Qc) : Prop :=
  least (Fin lo) (map (fun b => axis (minimumWorld b)) boxes)
  /\ greatest (Fin hi) (map (fun b => axis (maximumWorld b)) boxes).

(** [c] is the componentwise midpoint (min + max) / 2 of the union. *)
Definition midpoint_of_union (boxes : list BoundingBox) (c : Vector3) : Prop :=
  Forall (fun axis => exists lo hi,
            spans axis boxes lo hi /\ axis c = Fin ((lo + hi) / Qc_of_Z 2))
         axes.

(** [e] is max - min of the union, componentwise. *)
Definition extent_of_union (boxes : list BoundingBox) (e : Vector3) : Prop :=
  Forall (fun axis => exists lo hi,
            spans axis boxes lo hi /\ axis e = Fin (hi - lo))
         axes.

(** [s] is the length of the largest axis of [e]. *)
Definition largest_axis (e : Vector3) (s : Qc) : Prop :=
  greatest (Fin s) [x e; y e; z e].

Definition finite_box (b : BoundingBox) : Prop :=
  Vec.isFinite (minimumWorld b) = true /\ Vec.isFinite (maximumWorld b) = true.

(** The corners of a box are in order. *)
Definition ordered_box (b : BoundingBox) : Prop :=
  Forall (fun axis => le (axis (minimumWorld b)) (axis (maximumWorld b))) axes.

(** The boxes of the meshes that have one. *)
Definition boxes_of (meshes : list Mesh) : list BoundingBox :=
  omap getBoundingInfo meshes.

Definition is_finite (f : Framing) : Prop :=
  Vec.isFinite (center f) = true /\ JS.isFinite (radius f) = true.

Definition has_box (m : Mesh) : Prop := is_Some (getBoundingInfo m).

(** In the component on the viewer element: nothing is in flight, or one
    request is and the loading flag is set. *)
Definition one_request (w : GlbViewer.World) : Prop :=
  GlbViewer.in_flight w = 0%nat
  \/ (GlbViewer.in_flight w = 1%nat
      /\ GlbViewer.isLoading (GlbViewer.component w) = true).

(** In BabylonScene.vue: nothing is in flight, the scene exists and the
    attached geometry is the tracked set. *)
Definition at_rest (w : BabylonScene.World) : Prop :=
  BabylonScene.in_flight w = 0%nat
  /\ BabylonScene.scene (BabylonScene.component w) <> None
  /\ BabylonScene.attached (BabylonScene.component w)
     = BabylonScene.loadedModel (BabylonScene.component w).

(** In the modelUrl component: no load is shown in progress; while the
    model flag is false no geometry is attached; the scene exists only
    with its engine and its camera. *)
Definition settled (st : BabylonViewer.State) : Prop :=
  BabylonViewer.isLoading st = false
  /\ (BabylonViewer.hasModel st = false -> BabylonViewer.attached st = [])
  /\ (BabylonViewer.engine st = None -> BabylonViewer.scene st = None)
  /\ (BabylonViewer.scene st <> None -> BabylonViewer.camera st <> None).

(** The importer hands over meshes, each with its bounding box. *)
Definition boxed (l : BabylonViewer.Load) : Prop :=
  match l with
  | BabylonViewer.Mount _ (Resolved loaded)
  | BabylonViewer.UrlChange _ _ (Resolved loaded)
  | BabylonViewer.FileChosen _ _ (Resolved loaded) => Forall has_box loaded
  | _ => True
  end.

(** The boxes the standalone page takes into account. *)
Definition counted_boxes (meshes : list Mesh) : list BoundingBox :=
  boxes_of (filter (fun m => Page.counted m = true) meshes).

(** What the standalone page takes for an environment mesh: one named
    "ground", or with "skybox" in its name. *)
Definition environment (m : Mesh) : Prop :=
  name m = "ground" \/ includes "skybox" (name m) = true.


(** In the component on the viewer element: a ready component holds its
    viewer instance and listens to the element, and so does a component
    with a request in flight. *)
Definition wired (w : GlbViewer.World) : Prop :=
  (GlbViewer.isViewerReady (GlbViewer.component w) = true ->
   is_Some (GlbViewer.viewerInstance (GlbViewer.component w))
   /\ GlbViewer.listening (GlbViewer.component w) = true)
  /\ (GlbViewer.in_flight w <> 0%nat ->
      GlbViewer.listening (GlbViewer.component w) = true).

(** The loading flag is set although no request is in flight. *)
Definition stuck (w : GlbViewer.World) : Prop :=
  GlbViewer.in_flight w = 0%nat
  /\ GlbViewer.isLoading (GlbViewer.component w) = true.

(** The source a load of the modelUrl component reports. *)
Definition source_of (l : BabylonViewer.Load) (st : BabylonViewer.State) : string :=
  match l with
  | BabylonViewer.Mount _ _ => BabylonViewer.modelUrl st
  | BabylonViewer.UrlChange url _ _ => url
  | BabylonViewer.FileChosen file _ _ => file
  end.

(** No minimum coordinate of the box exceeds Number.MAX_VALUE, as for
    every box whose coordinates are doubles. *)
Definition within_doubles (b : BoundingBox) : Prop :=
  Forall (fun axis => le (axis (minimumWorld b)) JS.MAX_VALUE) axes.

(** On every axis some box reaches Number.MIN_VALUE, the smallest
    positive double: the union extends into the positive side. *)
Definition reaches_positive (boxes : list BoundingBox) : Prop :=
  Forall (fun axis => exists b, b ∈ boxes /\ le JS.MIN_VALUE (axis (maximumWorld b)))
         axes.

(** BabylonScene.vue after initScene: the canvas, the resize handler, the
    engine and the scene exist. *)
Definition set_up (st : BabylonScene.State) : Prop :=
  BabylonScene.canvasRef st = true
  /\ BabylonScene.resizeHandler st = true
  /\ BabylonScene.engine st <> None
  /\ BabylonScene.scene st <> None.

(** The model roots the loads of a sequence create: one for each import
    that succeeds with at least one mesh. *)
Definition roots_of (ls : list BabylonScene.Load) : list nat :=
  flat_map (fun l => match l with
                     | BabylonScene.ImportSucceeds _ _ root (_ :: _) => [root]
                     | _ => []
                     end) ls.

(** The model roots in the scene of BabylonScene.vue. *)
Definition model_roots (st : BabylonScene.State) : list nat :=
  match BabylonScene.scene st with
  | Some sc => map fst (BabylonScene.transformNodes sc)
  | None => []
  end.

End Spec.

(** A number that takes part in the order. *)
Definition ord (a : num) : Prop := a <> NaN.

(** ** Numbers: order, minimum and maximum *)

Section Numbers.

Implicit Types a b c : num.

Lemma Fin_ord q : ord (Fin q).
Proof. discriminate. Qed.

Lemma le_refl a : ord a -> Spec.le a a.
Proof. destruct a; simpl; intros; try done. Qed.

Lemma le_trans a b c : Spec.le a b -> Spec.le b c -> Spec.le a c.
Proof.
  destruct a, b, c; simpl; try done. apply Qcle_trans.
Qed.

Lemma le_antisym a b : Spec.le a b -> Spec.le b a -> a = b.
Proof.
  destruct a, b; simpl; try done.
  intros H1 H2. f_equal. by apply Qcle_antisym.
Qed.

Lemma lt_true a b : JS.lt a b = true -> Spec.le a b /\ a <> b.
Proof.
  destruct a, b; simpl; try done.
  rewrite bool_decide_eq_true. intros H. split.
  - by apply Qclt_le_weak.
  - intros [= ->]. by apply (Qclt_not_eq q0 q0).
Qed.

Lemma lt_false a b : ord a -> ord b -> JS.lt a b = false -> Spec.le b a.
Proof.
  destruct a, b; simpl; try done.
  rewrite bool_decide_eq_false. intros _ _. apply Qcnot_lt_le.
Qed.

Lemma Math_min_smaller a b :
  ord a -> ord b -> JS.Math_min a b = JS.smaller a b.
Proof. by destruct a, b. Qed.

Lemma Math_max_larger a b :
  ord a -> ord b -> JS.Math_max a b = JS.larger a b.
Proof. by destruct a, b. Qed.

Lemma smaller_spec a b :
  ord a -> ord b ->
  (JS.smaller a b = a \/ JS.smaller a b = b)
  /\ Spec.le (JS.smaller a b) a /\ Spec.le (JS.smaller a b) b
  /\ ord (JS.smaller a b).
Proof.
  intros Ha Hb. unfold JS.smaller. destruct (JS.lt b a) eqn:E.
  - apply lt_true in E as [E _]. repeat split; eauto using le_refl.
  - apply lt_false in E; repeat split; eauto using le_refl.
Qed.

Lemma larger_spec a b :
  ord a -> ord b ->
  (JS.larger a b = a \/ JS.larger a b = b)
  /\ Spec.le a (JS.larger a b) /\ Spec.le b (JS.larger a b)
  /\ ord (JS.larger a b).
Proof.
  intros Ha Hb. unfold JS.larger. destruct (JS.lt a b) eqn:E.
  - apply lt_true in E as [E _]. repeat split; eauto using le_refl.
  - apply lt_false in E; repeat split; eauto using le_refl.
Qed.

(** Folding a minimum over a list yields the least element of the start
    value and the list. *)
Lemma fold_smaller_least (l : list num) a :
  ord a -> Forall ord l ->
  Spec.least (fold_left JS.smaller l a) (a :: l).
Proof.
  revert a. induction l as [|b l IH]; intros a Ha Hl; simpl.
  - split; [by apply elem_of_cons; left|].
    intros c Hc. apply list_elem_of_singleton in Hc as ->. by apply le_refl.
  - apply Forall_cons in Hl as [Hb Hl].
    destruct (smaller_spec a b Ha Hb) as (Hpick & Hma & Hmb & Hom).
    destruct (IH _ Hom Hl) as [Hin Hle]. split.
    + rewrite elem_of_cons in Hin. rewrite !elem_of_cons.
      destruct Hin as [Hin|Hin]; [|by auto].
      destruct Hpick as [Hp|Hp]; rewrite Hin, Hp; auto.
    + intros c Hc. rewrite !elem_of_cons in Hc.
      destruct Hc as [->|[->|Hc]].
      * apply le_trans with (JS.smaller a b); [|done].
        apply Hle, elem_of_cons; by left.
      * apply le_trans with (JS.smaller a b); [|done].
        apply Hle, elem_of_cons; by left.
      * apply Hle, elem_of_cons; by right.
Qed.

Lemma fold_larger_greatest (l : list num) a :
  ord a -> Forall ord l ->
  Spec.greatest (fold_left JS.larger l a) (a :: l).
Proof.
  revert a. induction l as [|b l IH]; intros a Ha Hl; simpl.
  - split; [by apply elem_of_cons; left|].
    intros c Hc. apply list_elem_of_singleton in Hc as ->. by apply le_refl.
  - apply Forall_cons in Hl as [Hb Hl].
    destruct (larger_spec a b Ha Hb) as (Hpick & Hma & Hmb & Hom).
    destruct (IH _ Hom Hl) as [Hin Hle]. split.
    + rewrite elem_of_cons in Hin. rewrite !elem_of_cons.
      destruct Hin as [Hin|Hin]; [|by auto].
      destruct Hpick as [Hp|Hp]; rewrite Hin, Hp; auto.
    + intros c Hc. rewrite !elem_of_cons in Hc.
      destruct Hc as [->|[->|Hc]].
      * apply le_trans with (JS.larger a b); [done|].
        apply Hle, elem_of_cons; by left.
      * apply le_trans with (JS.larger a b); [done|].
        apply Hle, elem_of_cons; by left.
      * apply Hle, elem_of_cons; by right.
Qed.

Lemma least_unique (l l' : list num) m m' :
  l ≡ₚ l' -> Spec.least m l -> Spec.least m' l' -> m = m'.
Proof.
  intros Hp [Hin Hle] [Hin' Hle']. apply le_antisym.
  - apply Hle. by rewrite Hp.
  - apply Hle'. by rewrite <- Hp.
Qed.

Lemma greatest_unique (l l' : list num) m m' :
  l ≡ₚ l' -> Spec.greatest m l -> Spec.greatest m' l' -> m = m'.
Proof.
  intros Hp [Hin Hle] [Hin' Hle']. apply le_antisym.
  - apply Hle'. by rewrite <- Hp.
  - apply Hle. by rewrite Hp.
Qed.

End Numbers.

(** ** Arithmetic on finite numbers *)

Section Finite.

Implicit Types a b c : num.

Lemma isFinite_Fin a : JS.isFinite a = true -> exists q, a = Fin q.
Proof. destruct a; try done. eauto. Qed.

Lemma isFinite_ord a : JS.isFinite a = true -> ord a.
Proof. by destruct a. Qed.

Lemma two_nonzero : Qc_of_Z 2 <> 0.
Proof. rewrite <- Z2Qc_inj_0. by intros ?%Z2Qc_inj. Qed.

Lemma half_Fin q : JS.div (Fin q) (JS.of_Z 2) = Fin (q / Qc_of_Z 2).
Proof.
  unfold JS.div, JS.of_Z. by rewrite bool_decide_eq_false_2 by apply two_nonzero.
Qed.

Lemma abs_Fin q : 0 <= q -> JS.Math_abs (Fin q) = Fin q.
Proof.
  intros H. simpl. rewrite bool_decide_eq_false_2; [done|].
  by apply Qcle_not_lt.
Qed.

Lemma least_start_PInf (l : list num) m :
  l <> [] -> Forall (fun a => JS.isFinite a = true) l ->
  Spec.least m (PInf :: l) ->
  exists q, m = Fin q /\ Spec.least (Fin q) l.
Proof.
  intros Hne Hfin [Hin Hle].
  assert (m ∈ l) as Hm.
  { apply elem_of_cons in Hin as [->|Hin]; [|done].
    destruct l as [|a l]; [done|]. apply Forall_cons in Hfin as [Ha _].
    apply isFinite_Fin in Ha as [q ->].
    destruct (Hle (Fin q)). apply elem_of_cons. right. apply elem_of_cons. by left. }
  rewrite Forall_forall in Hfin.
  destruct (isFinite_Fin m) as [q ->]; [by apply Hfin|].
  exists q. split; [done|]. split; [done|].
  intros a Ha. apply Hle, elem_of_cons. by right.
Qed.

Lemma greatest_start_NInf (l : list num) m :
  l <> [] -> Forall (fun a => JS.isFinite a = true) l ->
  Spec.greatest m (NInf :: l) ->
  exists q, m = Fin q /\ Spec.greatest (Fin q) l.
Proof.
  intros Hne Hfin [Hin Hle].
  assert (m ∈ l) as Hm.
  { apply elem_of_cons in Hin as [->|Hin]; [|done].
    destruct l as [|a l]; [done|]. apply Forall_cons in Hfin as [Ha _].
    apply isFinite_Fin in Ha as [q ->].
    destruct (Hle (Fin q)). apply elem_of_cons. right. apply elem_of_cons. by left. }
  rewrite Forall_forall in Hfin.
  destruct (isFinite_Fin m) as [q ->]; [by apply Hfin|].
  exists q. split; [done|]. split; [done|].
  intros a Ha. apply Hle, elem_of_cons. by right.
Qed.

Lemma fold_Math_min_smaller (l : list num) a :
  ord a -> Forall ord l ->
  fold_left JS.Math_min l a = fold_left JS.smaller l a.
Proof.
  revert a. induction l as [|b l IH]; intros a Ha Hl; [done|].
  apply Forall_cons in Hl as [Hb Hl]. simpl.
  rewrite Math_min_smaller by done. apply IH; [|done].
  by destruct (smaller_spec a b) as (_ & _ & _ & ?).
Qed.

Lemma fold_Math_max_larger (l : list num) a :
  ord a -> Forall ord l ->
  fold_left JS.Math_max l a = fold_left JS.larger l a.
Proof.
  revert a. induction l as [|b l IH]; intros a Ha Hl; [done|].
  apply Forall_cons in Hl as [Hb Hl]. simpl.
  rewrite Math_max_larger by done. apply IH; [|done].
  by destruct (larger_spec a b) as (_ & _ & _ & ?).
Qed.

Lemma member_finite (l : list num) m :
  m ∈ l -> Forall (fun a => JS.isFinite a = true) l -> exists q, m = Fin q.
Proof.
  intros Hin Hfin. rewrite Forall_forall in Hfin. by apply isFinite_Fin, Hfin.
Qed.

(** The largest of three finite numbers. *)
Lemma max3_greatest a b c :
  JS.isFinite a = true -> JS.isFinite b = true -> JS.isFinite c = true ->
  exists s, JS.Math_max3 a b c = Fin s /\ Spec.greatest (Fin s) [a; b; c].
Proof.
  intros Ha Hb Hc.
  assert (JS.Math_max3 a b c = fold_left JS.larger [b; c] a) as ->.
  { unfold JS.Math_max3. simpl.
    rewrite (Math_max_larger a b) by auto using isFinite_ord.
    rewrite Math_max_larger; [done| |by apply isFinite_ord].
    by destruct (larger_spec a b) as (_ & _ & _ & ?); auto using isFinite_ord. }
  destruct (fold_larger_greatest [b; c] a) as [Hin Hle].
  { by apply isFinite_ord. }
  { repeat constructor; by apply isFinite_ord. }
  destruct (member_finite _ _ Hin) as [s Hs]; [by repeat constructor|].
  exists s. rewrite Hs in *. by split.
Qed.

End Finite.

(** ** The standalone page: calculateBoundingInfo *)

Section PageFraming.

Lemma on_axes (P : (Vector3 -> num) -> Prop) :
  Forall P Spec.axes <-> P x /\ P y /\ P z.
Proof.
  unfold Spec.axes. rewrite !Forall_cons, Forall_nil. tauto.
Qed.

Lemma finite_on_axis axis v :
  axis ∈ Spec.axes -> Vec.isFinite v = true -> JS.isFinite (axis v) = true.
Proof.
  unfold Spec.axes, Vec.isFinite. rewrite !elem_of_cons, elem_of_nil.
  rewrite !andb_true_iff. intros [->|[->|[->|[]]]]; tauto.
Qed.

Lemma counted_has_box m :
  Page.counted m = true -> exists box, getBoundingInfo m = Some box.
Proof.
  unfold Page.counted. rewrite !andb_true_iff, bool_decide_eq_true.
  intros [[[[box E] _] _] _]. eauto.
Qed.

Lemma fold_visit meshes b :
  fold_left Page.visit meshes b
  = fold_left Page.absorb (Spec.counted_boxes meshes) b.
Proof.
  revert b. induction meshes as [|m meshes IH]; intros b; [done|].
  unfold Spec.counted_boxes, Spec.boxes_of. rewrite filter_cons. simpl.
  unfold Page.visit at 2. destruct (decide (Page.counted m = true)) as [E|E].
  - rewrite E. destruct (counted_has_box m E) as [box Hbox].
    simpl. rewrite Hbox. simpl. apply IH.
  - apply not_true_is_false in E. rewrite E. apply IH.
Qed.

Lemma fold_absorb boxes b :
  fold_left Page.absorb boxes b =
  Page.mkBounds
    (fold_left JS.Math_min (map (fun box => x (minimumWorld box)) boxes) (Page.minX b))
    (fold_left JS.Math_min (map (fun box => y (minimumWorld box)) boxes) (Page.minY b))
    (fold_left JS.Math_min (map (fun box => z (minimumWorld box)) boxes) (Page.minZ b))
    (fold_left JS.Math_max (map (fun box => x (maximumWorld box)) boxes) (Page.maxX b))
    (fold_left JS.Math_max (map (fun box => y (maximumWorld box)) boxes) (Page.maxY b))
    (fold_left JS.Math_max (map (fun box => z (maximumWorld box)) boxes) (Page.maxZ b)).
Proof.
  revert b. induction boxes as [|box boxes IH]; intros b.
  - by destruct b.
  - simpl. by rewrite IH.
Qed.

Lemma finite_corners axis boxes :
  axis ∈ Spec.axes -> Forall Spec.finite_box boxes ->
  Forall (fun a => JS.isFinite a = true) (map (fun b => axis (minimumWorld b)) boxes)
  /\ Forall (fun a => JS.isFinite a = true) (map (fun b => axis (maximumWorld b)) boxes).
Proof.
  intros Hax Hfin. induction Hfin as [|box boxes [Hlo Hhi] _ [IH1 IH2]]; simpl.
  - by split.
  - split; constructor; auto using finite_on_axis.
Qed.

Lemma span_from_infinity axis boxes :
  boxes <> [] -> Forall Spec.finite_box boxes -> axis ∈ Spec.axes ->
  exists lo hi,
    Spec.spans axis boxes lo hi
    /\ fold_left JS.Math_min (map (fun b => axis (minimumWorld b)) boxes) PInf = Fin lo
    /\ fold_left JS.Math_max (map (fun b => axis (maximumWorld b)) boxes) NInf = Fin hi.
Proof.
  intros Hne Hfin Hax.
  destruct (finite_corners axis boxes Hax Hfin) as [Hlo Hhi].
  assert (forall l : list num, Forall (fun a => JS.isFinite a = true) l -> Forall ord l)
    as Hord by (intros l H; eapply Forall_impl; [done|apply isFinite_ord]).
  assert (forall f : BoundingBox -> num, map f boxes <> []) as Hmap
    by (intros f; by destruct boxes).
  rewrite fold_Math_min_smaller, fold_Math_max_larger by (auto; done).
  destruct (least_start_PInf _ _ (Hmap _) Hlo
              (fold_smaller_least _ PInf ltac:(done) (Hord _ Hlo))) as (lo & Elo & Hleast).
  destruct (greatest_start_NInf _ _ (Hmap _) Hhi
              (fold_larger_greatest _ NInf ltac:(done) (Hord _ Hhi))) as (hi & Ehi & Hgreatest).
  exists lo, hi. split; [by split|]. by split.
Qed.

(** With at least one counted box, all of them finite, the page computes
    the half sums and the half of the largest absolute difference. *)
Lemma page_framing meshes :
  Spec.counted_boxes meshes <> [] ->
  Forall Spec.finite_box (Spec.counted_boxes meshes) ->
  exists lx hx ly hy lz hz,
    Spec.spans x (Spec.counted_boxes meshes) lx hx
    /\ Spec.spans y (Spec.counted_boxes meshes) ly hy
    /\ Spec.spans z (Spec.counted_boxes meshes) lz hz
    /\ Page.calculateBoundingInfo meshes =
       mkFraming
         (mkVector3 (Fin ((lx + hx) / Qc_of_Z 2))
                    (Fin ((ly + hy) / Qc_of_Z 2))
                    (Fin ((lz + hz) / Qc_of_Z 2)))
         (JS.div (JS.Math_max3 (JS.Math_abs (Fin (hx - lx)))
                               (JS.Math_abs (Fin (hy - ly)))
                               (JS.Math_abs (Fin (hz - lz))))
                 (JS.of_Z 2)).
Proof.
  intros Hne Hfin.
  destruct (span_from_infinity x _ Hne Hfin) as (lx & hx & Hx & Elx & Ehx);
    [by repeat constructor|].
  destruct (span_from_infinity y _ Hne Hfin) as (ly & hy & Hy & Ely & Ehy);
    [apply elem_of_cons; right; by apply elem_of_cons; left|].
  destruct (span_from_infinity z _ Hne Hfin) as (lz & hz & Hz & Elz & Ehz);
    [do 2 (apply elem_of_cons; right); by apply elem_of_cons; left|].
  exists lx, hx, ly, hy, lz, hz. do 3 (split; [done|]).
  unfold Page.calculateBoundingInfo.
  rewrite fold_visit, fold_absorb.
  cbn [Page.minX Page.minY Page.minZ Page.maxX Page.maxY Page.maxZ Page.start].
  rewrite Elx, Ehx, Ely, Ehy, Elz, Ehz.
  cbn [JS.strict_eq JS.add JS.sub JS.neg].
  rewrite bool_decide_eq_false_2 by done.
  by rewrite !half_Fin.
Qed.

Lemma spans_unique axis boxes boxes' lo hi lo' hi' :
  boxes ≡ₚ boxes' ->
  Spec.spans axis boxes lo hi -> Spec.spans axis boxes' lo' hi' ->
  lo = lo' /\ hi = hi'.
Proof.
  intros Hp [Hlo Hhi] [Hlo' Hhi']. split.
  - assert (Fin lo = Fin lo') as [= ->]; [|done].
    eapply least_unique; [|done..]. by apply Permutation_map.
  - assert (Fin hi = Fin hi') as [= ->]; [|done].
    eapply greatest_unique; [|done..]. by apply Permutation_map.
Qed.

(** The midpoint of the union does not depend on the order of the
    boxes. *)
Lemma midpoint_unique boxes boxes' c c' :
  boxes ≡ₚ boxes' ->
  Spec.midpoint_of_union boxes c -> Spec.midpoint_of_union boxes' c' ->
  c = c'.
Proof.
  unfold Spec.midpoint_of_union. rewrite !on_axes.
  intros Hp (Hx & Hy & Hz) (Hx' & Hy' & Hz').
  destruct Hx as (lx & hx & Sx & Ex), Hx' as (lx' & hx' & Sx' & Ex').
  destruct Hy as (ly & hy & Sy & Ey), Hy' as (ly' & hy' & Sy' & Ey').
  destruct Hz as (lz & hz & Sz & Ez), Hz' as (lz' & hz' & Sz' & Ez').
  destruct (spans_unique _ _ _ _ _ _ _ Hp Sx Sx') as [-> ->].
  destruct (spans_unique _ _ _ _ _ _ _ Hp Sy Sy') as [-> ->].
  destruct (spans_unique _ _ _ _ _ _ _ Hp Sz Sz') as [-> ->].
  destruct c, c'; simpl in *. congruence.
Qed.

Lemma span_in_order axis boxes lo hi :
  boxes <> [] -> Forall Spec.ordered_box boxes -> axis ∈ Spec.axes ->
  Spec.spans axis boxes lo hi -> lo <= hi.
Proof.
  intros Hne Hord Hax [[_ Hlo] [_ Hhi]].
  destruct boxes as [|box boxes]; [done|].
  apply Forall_cons in Hord as [Hbox _].
  unfold Spec.ordered_box in Hbox. rewrite Forall_forall in Hbox.
  specialize (Hbox axis Hax).
  assert (Spec.le (Fin lo) (Fin hi)) as H; [|done].
  eapply le_trans; [apply Hlo; simpl; by apply elem_of_cons; left|].
  eapply le_trans; [done|]. apply Hhi; simpl; by apply elem_of_cons; left.
Qed.

Lemma counted_boxes_Permutation meshes meshes' :
  meshes ≡ₚ meshes' -> Spec.counted_boxes meshes ≡ₚ Spec.counted_boxes meshes'.
Proof. intros Hp. unfold Spec.counted_boxes, Spec.boxes_of. by rewrite Hp. Qed.

(** The centre is the midpoint of the union of the counted boxes. *)
Lemma page_center_midpoint meshes :
  Spec.counted_boxes meshes <> [] ->
  Forall Spec.finite_box (Spec.counted_boxes meshes) ->
  Spec.midpoint_of_union (Spec.counted_boxes meshes)
                         (center (Page.calculateBoundingInfo meshes)).
Proof.
  intros Hne Hfin.
  destruct (page_framing meshes Hne Hfin)
    as (lx & hx & ly & hy & lz & hz & Sx & Sy & Sz & ->).
  apply on_axes. simpl. repeat split; eauto.
Qed.

(** With boxes whose corners are in order, the radius is half the
    largest axis of the extent. *)
Lemma page_radius_half meshes :
  Spec.counted_boxes meshes <> [] ->
  Forall Spec.finite_box (Spec.counted_boxes meshes) ->
  Forall Spec.ordered_box (Spec.counted_boxes meshes) ->
  exists e s,
    Spec.extent_of_union (Spec.counted_boxes meshes) e
    /\ Spec.largest_axis e s
    /\ radius (Page.calculateBoundingInfo meshes) = Fin (s / Qc_of_Z 2).
Proof.
  intros Hne Hfin Hord.
  destruct (page_framing meshes Hne Hfin)
    as (lx & hx & ly & hy & lz & hz & Sx & Sy & Sz & ->).
  assert (forall axis lo hi, axis ∈ Spec.axes ->
            Spec.spans axis (Spec.counted_boxes meshes) lo hi ->
            JS.Math_abs (Fin (hi - lo)) = Fin (hi - lo)) as Habs.
  { intros axis lo hi Hax Hsp. apply abs_Fin.
    apply (Qcle_minus_iff lo hi). eauto using span_in_order. }
  cbn [radius].
  rewrite (Habs x lx hx), (Habs y ly hy), (Habs z lz hz); [|try done..].
  2,3,4: unfold Spec.axes; rewrite !elem_of_cons; auto.
  destruct (max3_greatest (Fin (hx - lx)) (Fin (hy - ly)) (Fin (hz - lz)))
    as (s & Es & Hs); [done..|].
  exists (mkVector3 (Fin (hx - lx)) (Fin (hy - ly)) (Fin (hz - lz))), s.
  split; [|split; [done|]].
  - apply on_axes. simpl. repeat split; eauto.
  - by rewrite Es, half_Fin.
Qed.

Lemma page_framing_Permutation meshes meshes' :
  meshes ≡ₚ meshes' ->
  Spec.counted_boxes meshes <> [] ->
  Forall Spec.finite_box (Spec.counted_boxes meshes) ->
  Page.calculateBoundingInfo meshes = Page.calculateBoundingInfo meshes'.
Proof.
  intros Hp Hne Hfin.
  pose proof (counted_boxes_Permutation _ _ Hp) as Hb.
  assert (Spec.counted_boxes meshes' <> []) as Hne'.
  { intros E. rewrite E in Hb. by apply Permutation_nil_r in Hb. }
  assert (Forall Spec.finite_box (Spec.counted_boxes meshes')) as Hfin'
    by by rewrite <- Hb.
  destruct (page_framing meshes Hne Hfin)
    as (lx & hx & ly & hy & lz & hz & Sx & Sy & Sz & ->).
  destruct (page_framing meshes' Hne' Hfin')
    as (lx' & hx' & ly' & hy' & lz' & hz' & Sx' & Sy' & Sz' & ->).
  destruct (spans_unique _ _ _ _ _ _ _ Hb Sx Sx') as [-> ->].
  destruct (spans_unique _ _ _ _ _ _ _ Hb Sy Sy') as [-> ->].
  by destruct (spans_unique _ _ _ _ _ _ _ Hb Sz Sz') as [-> ->].
Qed.

End PageFraming.

(** ** The modelUrl component: the framing block *)

Section ViewerFraming.

Import BabylonViewer.

Lemma boxes_of_cons m box rest :
  getBoundingInfo m = Some box ->
  Spec.boxes_of (m :: rest) = box :: Spec.boxes_of rest.
Proof. intros E. unfold Spec.boxes_of. simpl. by rewrite E. Qed.

Lemma unionFrom_folds lo hi rest :
  Forall Spec.has_box rest ->
  unionFrom lo hi rest =
  inr (mkVector3
         (fold_left JS.smaller (map (fun b => x (minimumWorld b)) (Spec.boxes_of rest)) (x lo))
         (fold_left JS.smaller (map (fun b => y (minimumWorld b)) (Spec.boxes_of rest)) (y lo))
         (fold_left JS.smaller (map (fun b => z (minimumWorld b)) (Spec.boxes_of rest)) (z lo)),
       mkVector3
         (fold_left JS.larger (map (fun b => x (maximumWorld b)) (Spec.boxes_of rest)) (x hi))
         (fold_left JS.larger (map (fun b => y (maximumWorld b)) (Spec.boxes_of rest)) (y hi))
         (fold_left JS.larger (map (fun b => z (maximumWorld b)) (Spec.boxes_of rest)) (z hi))).
Proof.
  intros Hall. revert lo hi.
  induction Hall as [|m rest [box Hbox] _ IH]; intros lo hi.
  - by destruct lo, hi.
  - rewrite (boxes_of_cons _ _ _ Hbox). simpl. unfold boxOf. rewrite Hbox.
    by rewrite IH.
Qed.

Lemma span_from_first axis box boxes :
  Forall Spec.finite_box (box :: boxes) -> axis ∈ Spec.axes ->
  exists lo hi,
    Spec.spans axis (box :: boxes) lo hi
    /\ fold_left JS.smaller (map (fun b => axis (minimumWorld b)) boxes)
                 (axis (minimumWorld box)) = Fin lo
    /\ fold_left JS.larger (map (fun b => axis (maximumWorld b)) boxes)
                 (axis (maximumWorld box)) = Fin hi.
Proof.
  intros Hfin Hax.
  destruct (finite_corners axis _ Hax Hfin) as [Hlo Hhi]. simpl in Hlo, Hhi.
  assert (forall l : list num, Forall (fun a => JS.isFinite a = true) l -> Forall ord l)
    as Hord by (intros l H; eapply Forall_impl; [done|apply isFinite_ord]).
  pose proof (Hord _ Hlo) as Olo. pose proof (Hord _ Hhi) as Ohi.
  apply Forall_cons in Olo as [Olo0 Olo], Ohi as [Ohi0 Ohi].
  pose proof (fold_smaller_least _ _ Olo0 Olo) as Hleast.
  pose proof (fold_larger_greatest _ _ Ohi0 Ohi) as Hgreatest.
  destruct (member_finite _ _ (proj1 Hleast) Hlo) as [lo Elo].
  destruct (member_finite _ _ (proj1 Hgreatest) Hhi) as [hi Ehi].
  exists lo, hi. rewrite Elo in Hleast |- *. rewrite Ehi in Hgreatest |- *.
  split; [split; [exact Hleast|exact Hgreatest]|by split].
Qed.

(** For a non-empty list of meshes with finite boxes the block computes
    the midpoint and the extent of the union, the largest axis of the
    extent and one and a half times that axis. *)
Lemma measure_spec loaded :
  loaded <> [] -> Forall Spec.has_box loaded ->
  Forall Spec.finite_box (Spec.boxes_of loaded) ->
  exists f s,
    measure loaded = inr (Some f)
    /\ Spec.midpoint_of_union (Spec.boxes_of loaded) (fit_center f)
    /\ Spec.extent_of_union (Spec.boxes_of loaded) (fit_extents f)
    /\ Spec.largest_axis (fit_extents f) s
    /\ fit_size f = Fin s
    /\ fit_radius f = Fin (s * Q2Qc (3 # 2)).
Proof.
  intros Hne Hall Hfin. destruct loaded as [|first rest]; [done|].
  apply Forall_cons in Hall as [[box Hbox] Hall].
  unfold measure, boxOf. rewrite Hbox, (unionFrom_folds _ _ _ Hall).
  rewrite (boxes_of_cons _ _ _ Hbox) in Hfin |- *.
  destruct (span_from_first x _ _ Hfin) as (lx & hx & Sx & -> & ->);
    [unfold Spec.axes; rewrite !elem_of_cons; auto|].
  destruct (span_from_first y _ _ Hfin) as (ly & hy & Sy & -> & ->);
    [unfold Spec.axes; rewrite !elem_of_cons; auto|].
  destruct (span_from_first z _ _ Hfin) as (lz & hz & Sz & -> & ->);
    [unfold Spec.axes; rewrite !elem_of_cons; auto|].
  destruct (max3_greatest (Fin (hx - lx)) (Fin (hy - ly)) (Fin (hz - lz)))
    as (s & Es & Hs); [done..|].
  eexists _, s. split; [done|].
  unfold fit. cbn [fit_center fit_extents fit_size fit_radius].
  unfold Vec.Center, Vec.subtract. cbn [x y z JS.add JS.sub JS.neg].
  rewrite !half_Fin. change (Fin (hx + - lx)) with (Fin (hx - lx)).
  change (Fin (hy + - ly)) with (Fin (hy - ly)).
  change (Fin (hz + - lz)) with (Fin (hz - lz)).
  rewrite Es. split; [|split; [|split; [exact Hs|by split]]].
  - apply on_axes. simpl. repeat split; eauto.
  - apply on_axes. simpl. repeat split; eauto.
Qed.

Lemma boxes_of_Permutation meshes meshes' :
  meshes ≡ₚ meshes' -> Spec.boxes_of meshes ≡ₚ Spec.boxes_of meshes'.
Proof. intros Hp. unfold Spec.boxes_of. by rewrite Hp. Qed.

Lemma measure_center_Permutation loaded loaded' f f' :
  loaded ≡ₚ loaded' ->
  loaded <> [] -> Forall Spec.has_box loaded ->
  Forall Spec.finite_box (Spec.boxes_of loaded) ->
  measure loaded = inr (Some f) -> measure loaded' = inr (Some f') ->
  fit_center f = fit_center f'.
Proof.
  intros Hp Hne Hall Hfin E E'.
  pose proof (boxes_of_Permutation _ _ Hp) as Hb.
  destruct (measure_spec loaded Hne Hall Hfin) as (g & s & Eg & Hmid & _).
  destruct (measure_spec loaded') as (g' & s' & Eg' & Hmid' & _).
  { intros ->. by apply Permutation_nil_r in Hp. }
  { by rewrite <- Hp. }
  { by rewrite <- Hb. }
  rewrite E in Eg. rewrite E' in Eg'.
  injection Eg as <-. injection Eg' as <-.
  by eapply midpoint_unique.
Qed.

End ViewerFraming.

(** ** The standalone page: what is left out *)

(** Closed decidable statements are settled by evaluation. *)
Ltac by_evaluation := apply (bool_decide_unpack _); vm_compute; exact I.

Section PageGuards.


Lemma filter_all {A} (P : A -> Prop) `{!forall a, Decision (P a)} (l : list A) :
  (forall a, a ∈ l -> P a) -> filter P l = l.
Proof.
  induction l as [|a l IH]; intros Hall; [done|].
  rewrite filter_cons_True by (apply Hall, elem_of_cons; by left).
  f_equal. apply IH. intros b Hb. apply Hall, elem_of_cons. by right.
Qed.

Lemma filter_none {A} (P : A -> Prop) `{!forall a, Decision (P a)} (l : list A) :
  Forall (fun a => ~ P a) l -> filter P l = [].
Proof.
  induction 1 as [|a l Ha _ IH]; [done|]. by rewrite filter_cons_False.
Qed.


(** *** What [dispose] takes from the scene *)

Lemma dispose_removes (k : Mesh) (l : list Mesh) (m : Mesh) :
  m ∈ dispose k l -> m ∈ l /\ uniqueId m <> uniqueId k.
Proof. unfold dispose. rewrite list_elem_of_filter. tauto. Qed.

Lemma dispose_sublist (k : Mesh) (l : list Mesh) : sublist (dispose k l) l.
Proof. apply (sublist_filter _). Qed.



Lemma child_isDescendantOf (n : nat) (l : list Mesh) (a : nat) (m : Mesh) :
  parent m = Some a -> isDescendantOf n l a m = true.
Proof. intros E. destruct n; simpl; rewrite E; by rewrite bool_decide_eq_true_2. Qed.













Lemma dispose_takes_children (k : Mesh) (l : list Mesh) (m : Mesh) :
  m ∈ dispose k l -> parent m <> Some (uniqueId k).
Proof.
  unfold dispose. rewrite list_elem_of_filter. intros [[_ E] _] Hp.
  by rewrite child_isDescendantOf in E.
Qed.


(** *** The loop of [clearModels] *)

Lemma clear_loop_sublist (snapshot now : list Mesh) :
  sublist
    (fold_left (fun now mesh => if Page.is_model mesh then dispose mesh now else now)
               snapshot now)
    now.
Proof.
  revert now. induction snapshot as [|k snapshot IH]; intros now; simpl; [done|].
  etransitivity; [apply IH|]. destruct (Page.is_model k); [apply dispose_sublist|done].
Qed.

Lemma sublist_elem_of {A} (l k : list A) (a : A) : sublist l k -> a ∈ l -> a ∈ k.
Proof. intros H Ha. by eapply elem_of_sublist. Qed.

(** No mesh that is left has the id of a model mesh of the snapshot, or
    such a mesh as its parent. *)
Lemma clear_loop_removes (snapshot now : list Mesh) (k m : Mesh) :
  k ∈ snapshot -> Page.is_model k = true ->
  m ∈ fold_left (fun now mesh => if Page.is_model mesh then dispose mesh now else now)
                snapshot now ->
  uniqueId m <> uniqueId k /\ parent m <> Some (uniqueId k).
Proof.
  revert now. induction snapshot as [|k' snapshot IH]; intros now; simpl.
  - intros Hk. by apply elem_of_nil in Hk.
  - intros [->|Hk]%elem_of_cons Hmodel Hm; [|by eapply IH].
    rewrite Hmodel in Hm.
    apply (sublist_elem_of _ _ _ (clear_loop_sublist snapshot _)) in Hm.
    split; [by apply dispose_removes in Hm as [_ Hid]|].
    by apply (dispose_takes_children _ now).
Qed.



Lemma clear_loop_nothing (snapshot now : list Mesh) :
  Forall (fun k => Page.is_model k = false) snapshot ->
  fold_left (fun now mesh => if Page.is_model mesh then dispose mesh now else now)
            snapshot now
  = now.
Proof.
  intros H. revert now. induction H as [|k snapshot E _ IH]; intros now; simpl; [done|].
  by rewrite E.
Qed.

Lemma environment_kept (m : Mesh) :
  Page.is_model m = false
  <-> name m = "ground" \/ includes "skybox" (name m) = true.
Proof.
  unfold Page.is_model. rewrite andb_false_iff, negb_false_iff.
  rewrite bool_decide_eq_false. split; (intros [H|H]; [left|by right]).
  - by destruct (decide (name m = "ground")).
  - auto.
Qed.

(** What [clearModels] leaves when there is a scene. *)
Lemma clearModels_scene (st : Page.State) (sc : Page.Scene) :
  Page.scene st = Some sc ->
  Page.clearModels st =
  Page.mkState
    (Some (Page.mkScene
             (fold_left (fun now mesh => if Page.is_model mesh then dispose mesh now
                                         else now)
                        (Page.meshes sc) (Page.meshes sc))
             (Page.camera sc)))
    (Page.modelLoaded st).
Proof. intros Hsc. unfold Page.clearModels. by rewrite Hsc. Qed.

(** Every mesh that is left is one the page takes for the
    environment. *)
Lemma cleared_meshes (ms : list Mesh) :
  Forall Spec.environment
    (fold_left (fun now mesh => if Page.is_model mesh then dispose mesh now else now)
               ms ms).
Proof.
  apply Forall_forall. intros m Hm. apply environment_kept.
  destruct (Page.is_model m) eqn:E; [|done].
  destruct (clear_loop_removes ms ms m m) as [Hid _]; try done.
  by apply (sublist_elem_of _ _ _ (clear_loop_sublist ms ms)).
Qed.




Lemma counted_shown (m : Mesh) :
  Page.counted m = true ->
  isVisible m = true /\ includes "ground" (name m) = false
  /\ includes "skybox" (name m) = false.
Proof.
  unfold Page.counted. rewrite !andb_true_iff, !negb_true_iff. tauto.
Qed.

Lemma calculateBoundingInfo_boxes meshes meshes' :
  Spec.counted_boxes meshes = Spec.counted_boxes meshes' ->
  Page.calculateBoundingInfo meshes = Page.calculateBoundingInfo meshes'.
Proof.
  intros E. unfold Page.calculateBoundingInfo. by rewrite !fold_visit, E.
Qed.


Lemma nothing_counted meshes :
  Spec.counted_boxes meshes = [] ->
  Page.calculateBoundingInfo meshes = Page.fallback.
Proof.
  intros E. unfold Page.calculateBoundingInfo. by rewrite fold_visit, E.
Qed.

Lemma no_box_not_counted m : getBoundingInfo m = None -> Page.counted m = false.
Proof. intros E. unfold Page.counted. by rewrite E. Qed.

End PageGuards.

(** C3.  For an empty sequence of nodes, or one in which no node passes
    the guard of the loop (no node has a bounding box, or every node is
    hidden or an environment mesh), calculateBoundingInfo returns the
    fixed default: the centre at the origin and the radius 5.  Every
    component of that result is finite. *)
Theorem C3_default_when_nothing_is_counted (meshes : list Mesh) :
  meshes = []
  \/ Forall (fun m => getBoundingInfo m = None) meshes
  \/ Forall (fun m => Page.counted m = false) meshes ->
  Page.calculateBoundingInfo meshes
  = mkFraming (mkVector3 (JS.of_Z 0) (JS.of_Z 0) (JS.of_Z 0)) (JS.of_Z 5)
  /\ Spec.is_finite (Page.calculateBoundingInfo meshes).
Proof.
  intros H.
  assert (Forall (fun m => Page.counted m = false) meshes) as Hnone.
  { destruct H as [->|[H|H]]; [done| |done].
    eapply Forall_impl; [done|]. apply no_box_not_counted. }
  rewrite nothing_counted.
  - by split.
  - unfold Spec.counted_boxes. rewrite filter_none; [done|].
    eapply Forall_impl; [done|]. simpl. intros m E. by rewrite E.
Qed.

Lemma C3_default_witness :
  Page.calculateBoundingInfo [Sample.hidden; Sample.ground; Sample.bare]
  = mkFraming (mkVector3 (JS.of_Z 0) (JS.of_Z 0) (JS.of_Z 0)) (JS.of_Z 5)
  /\ Spec.is_finite (Page.calculateBoundingInfo [Sample.hidden; Sample.ground; Sample.bare]).
Proof.
  apply C3_default_when_nothing_is_counted. right. right.
  repeat constructor.
Defined.




(** ** The example of the specification *)

Section Example.

Lemma spans_example axis :
  axis ∈ Spec.axes ->
  Spec.spans axis (Spec.boxes_of [Sample.cube; Sample.shifted])
             (Qc_of_Z (-1)) (Qc_of_Z 2).
Proof.
  unfold Spec.axes. rewrite !elem_of_cons, elem_of_nil.
  intros [->|[->|[->|[]]]].
  all: split; (split; [simpl; rewrite !elem_of_cons; auto|]).
  all: intros a; simpl; rewrite !elem_of_cons, elem_of_nil.
  all: intros [->|[->|[]]]; by_evaluation.
Qed.

End Example.

(** C7, as stated, fails on the standalone page for a non-empty sequence
    in which no node passes the guard of the loop.  For a single node
    that is not shown, with bounds [(0,0,0),(1,1,1)], the extent is
    (1,1,1) and its largest axis is 1, but calculateBoundingInfo returns
    the fallback radius 5: neither half of 1 nor 1 times a factor between
    1.5 and 2.5. *)
Lemma C7_hidden_node_gets_the_fallback_radius :
  exists e s,
    Spec.extent_of_union (Spec.boxes_of [Sample.veiled]) e
    /\ Spec.largest_axis e s
    /\ s = Qc_of_Z 1
    /\ radius (Page.calculateBoundingInfo [Sample.veiled]) = JS.of_Z 5
    /\ radius (Page.calculateBoundingInfo [Sample.veiled]) <> Fin (s / Qc_of_Z 2)
    /\ (forall k, Q2Qc (3 # 2) <= k <= Q2Qc (5 # 2) ->
          radius (Page.calculateBoundingInfo [Sample.veiled]) <> Fin (s * k)).
Proof.
  destruct (measure_spec [Sample.veiled]) as (f & s & E & _ & He & Hs & Es & _).
  - discriminate.
  - repeat constructor; by eexists.
  - repeat constructor.
  - injection E as <-.
    assert (s = Qc_of_Z 1) as ->.
    { assert (Fin s = JS.of_Z 1) as [= ->]; [|done]. rewrite <- Es. by_evaluation. }
    eexists _, _. split; [exact He|]. split; [exact Hs|]. split; [done|].
    assert (radius (Page.calculateBoundingInfo [Sample.veiled]) = JS.of_Z 5) as ->
      by by_evaluation.
    split; [done|]. split; [by_evaluation|].
    intros k [_ Hk] Heq.
    assert (Qc_of_Z 5 = Qc_of_Z 1 * k) as Hfive by (unfold JS.of_Z in Heq; congruence).
    assert (Qc_of_Z 5 <= Qc_of_Z 1 * Q2Qc (5 # 2)) as Hfalse.
    { rewrite Hfive. apply Qcmult_le_mono_nonneg_l; [by_evaluation|done]. }
    revert Hfalse. by_evaluation.
Qed.

(** C7, amended.  For the nodes that take part, the extent of the framing
    is max - min of the union of their boxes, componentwise, and the
    radius comes from the largest axis of that extent.  On the standalone
    page the nodes that take part are those that pass the guard of the
    loop; when there is one (boxes finite, corners in order) the radius
    is half the largest axis.  In the modelUrl component every node takes
    part; for a non-empty sequence the size is the largest axis and the
    radius is the size times 1.5, a factor between 1.5 and 2.5.  For the
    nodes with bounds [(-1,-1,-1),(1,1,1)] and [(0,0,0),(2,2,2)] the union
    spans from -1 to 2 on every axis, the centre is (0.5,0.5,0.5) and the
    largest axis of the extent is 3. *)
Theorem C7_extent_and_radius (meshes : list Mesh) :
  (Spec.counted_boxes meshes <> [] ->
   Forall Spec.finite_box (Spec.counted_boxes meshes) ->
   Forall Spec.ordered_box (Spec.counted_boxes meshes) ->
   exists e s,
     Spec.extent_of_union (Spec.counted_boxes meshes) e
     /\ Spec.largest_axis e s
     /\ radius (Page.calculateBoundingInfo meshes) = Fin (s / Qc_of_Z 2))
  /\ (meshes <> [] ->
      Forall Spec.has_box meshes ->
      Forall Spec.finite_box (Spec.boxes_of meshes) ->
      exists f s,
        BabylonViewer.measure meshes = inr (Some f)
        /\ Spec.extent_of_union (Spec.boxes_of meshes) (BabylonViewer.fit_extents f)
        /\ Spec.largest_axis (BabylonViewer.fit_extents f) s
        /\ BabylonViewer.fit_size f = Fin s
        /\ BabylonViewer.fit_radius f = Fin (s * Q2Qc (3 # 2))
        /\ Q2Qc (3 # 2) <= Q2Qc (3 # 2) <= Q2Qc (5 # 2))
  /\ (Forall (fun axis =>
                Spec.spans axis (Spec.boxes_of [Sample.cube; Sample.shifted])
                           (Qc_of_Z (-1)) (Qc_of_Z 2)) Spec.axes
      /\ Page.calculateBoundingInfo [Sample.cube; Sample.shifted]
         = mkFraming (Sample.halves 1 1 1) (JS.ratio 3 2)
      /\ BabylonViewer.measure [Sample.cube; Sample.shifted]
         = inr (Some (BabylonViewer.mkFit (Sample.halves 1 1 1) (Sample.vec 3 3 3)
                                          (JS.of_Z 3) (JS.ratio 9 2)))).
Proof.
  split; [|split].
  - apply page_radius_half.
  - intros Hne Hall Hfin.
    destruct (measure_spec meshes Hne Hall Hfin) as (f & s & E & _ & He & Hs & Es & Er).
    exists f, s. do 5 (split; [done|]). split; by_evaluation.
  - split; [|split].
    + rewrite Forall_forall. apply spans_example.
    + by_evaluation.
    + by_evaluation.
Qed.

Lemma C7_extent_witness :
  (exists e s,
     Spec.extent_of_union (Spec.counted_boxes [Sample.cube; Sample.hidden; Sample.shifted]) e
     /\ Spec.largest_axis e s
     /\ radius (Page.calculateBoundingInfo [Sample.cube; Sample.hidden; Sample.shifted])
        = Fin (s / Qc_of_Z 2))
  /\ (exists f s,
        BabylonViewer.measure [Sample.cube; Sample.shifted] = inr (Some f)
        /\ Spec.extent_of_union (Spec.boxes_of [Sample.cube; Sample.shifted])
                                (BabylonViewer.fit_extents f)
        /\ Spec.largest_axis (BabylonViewer.fit_extents f) s
        /\ BabylonViewer.fit_size f = Fin s
        /\ BabylonViewer.fit_radius f = Fin (s * Q2Qc (3 # 2))
        /\ Q2Qc (3 # 2) <= Q2Qc (3 # 2) <= Q2Qc (5 # 2)).
Proof.
  split.
  - apply (proj1 (C7_extent_and_radius [Sample.cube; Sample.hidden; Sample.shifted])).
    + vm_compute. discriminate.
    + repeat constructor.
    + repeat constructor; by_evaluation.
  - apply (proj1 (proj2 (C7_extent_and_radius [Sample.cube; Sample.shifted]))).
    + discriminate.
    + repeat constructor; by eexists.
    + repeat constructor.
Defined.

(** The slip in components/BabylonScene.vue: the running maximum starts at
    Number.MIN_VALUE, the smallest positive number, not at the most
    negative one.  For a node with bounds [(-2,-2,-2),(-1,-1,-1)] the
    midpoint of the union is (-1.5,-1.5,-1.5), which the standalone page
    and the modelUrl component compute, but in BabylonScene.vue the maximum
    stays at Number.MIN_VALUE on every axis and the centre is
    (-2 + Number.MIN_VALUE) / 2 on every axis, not the midpoint. *)
Lemma BabylonScene_center_is_not_the_midpoint :
  Spec.midpoint_of_union (Spec.boxes_of [Sample.sunken]) (Sample.halves (-3) (-3) (-3))
  /\ center (Page.calculateBoundingInfo [Sample.sunken]) = Sample.halves (-3) (-3) (-3)
  /\ (exists f, BabylonViewer.measure [Sample.sunken] = inr (Some f)
                /\ BabylonViewer.fit_center f = Sample.halves (-3) (-3) (-3))
  /\ snd (BabylonScene.bounds [Sample.sunken])
     = mkVector3 JS.MIN_VALUE JS.MIN_VALUE JS.MIN_VALUE
  /\ BabylonScene.fit_center (BabylonScene.fit [Sample.sunken])
     = (let c := JS.div (JS.add (JS.of_Z (-2)) JS.MIN_VALUE) (JS.of_Z 2) in
        mkVector3 c c c)
  /\ BabylonScene.fit_center (BabylonScene.fit [Sample.sunken])
     <> Sample.halves (-3) (-3) (-3).
Proof.
  assert (center (Page.calculateBoundingInfo [Sample.sunken])
          = Sample.halves (-3) (-3) (-3)) as E by by_evaluation.
  split; [|split; [done|split; [|split; [|split]]]].
  - rewrite <- E. by apply (page_center_midpoint [Sample.sunken]); repeat constructor.
  - eexists. split; [reflexivity|]. by_evaluation.
  - by_evaluation.
  - by_evaluation.
  - by_evaluation.
Qed.

(** C1, as stated, fails on the standalone page: a node that is not shown
    has a known bounding box but is left out of the union.  For the cube
    [(-1,-1,-1),(1,1,1)] and a hidden node [(1,1,1),(3,3,3)] the midpoint
    of the union of both boxes is (1,1,1); calculateBoundingInfo returns
    the centre (0,0,0) of the cube alone. *)
Lemma C1_hidden_node_is_left_out :
  Spec.midpoint_of_union (Spec.boxes_of [Sample.cube; Sample.hidden]) (Sample.vec 1 1 1)
  /\ center (Page.calculateBoundingInfo [Sample.cube; Sample.hidden]) = Sample.vec 0 0 0
  /\ center (Page.calculateBoundingInfo [Sample.cube; Sample.hidden]) <> Sample.vec 1 1 1.
Proof.
  split; [|split; by_evaluation].
  destruct (measure_spec [Sample.cube; Sample.hidden]) as (f & s & E & Hmid & _).
  - discriminate.
  - repeat constructor; by eexists.
  - repeat constructor.
  - assert (BabylonViewer.fit_center f = Sample.vec 1 1 1) as <-; [|done].
    injection E as <-. by_evaluation.
Qed.

(** C1, amended.  On the standalone page, when at least one node passes
    the guard of the loop (it has a bounding box, is shown and is not an
    environment mesh) and the boxes are finite, the centre is the
    componentwise midpoint (min + max) / 2 of the union of the boxes of
    the nodes that pass the guard.  In the modelUrl component, for every
    non-empty sequence of nodes with finite boxes, the centre is the
    midpoint of the union of all their boxes.  In both, the centre is the
    same for every permutation of the sequence. *)
Theorem C1_center_is_the_midpoint_of_the_union (meshes meshes' : list Mesh) :
  meshes ≡ₚ meshes' ->
  (Spec.counted_boxes meshes <> [] ->
   Forall Spec.finite_box (Spec.counted_boxes meshes) ->
   Spec.midpoint_of_union (Spec.counted_boxes meshes)
                          (center (Page.calculateBoundingInfo meshes))
   /\ center (Page.calculateBoundingInfo meshes')
      = center (Page.calculateBoundingInfo meshes))
  /\ (meshes <> [] ->
      Forall Spec.has_box meshes ->
      Forall Spec.finite_box (Spec.boxes_of meshes) ->
      exists f f',
        BabylonViewer.measure meshes = inr (Some f)
        /\ BabylonViewer.measure meshes' = inr (Some f')
        /\ Spec.midpoint_of_union (Spec.boxes_of meshes) (BabylonViewer.fit_center f)
        /\ BabylonViewer.fit_center f' = BabylonViewer.fit_center f).
Proof.
  intros Hp. split.
  - intros Hne Hfin. split; [by apply page_center_midpoint|].
    by rewrite (page_framing_Permutation meshes meshes').
  - intros Hne Hall Hfin.
    destruct (measure_spec meshes Hne Hall Hfin) as (f & s & E & Hmid & _).
    destruct (measure_spec meshes') as (f' & s' & E' & _).
    { intros ->. by apply Permutation_nil_r in Hp. }
    { by rewrite <- Hp. }
    { by rewrite <- (boxes_of_Permutation _ _ Hp). }
    exists f, f'. do 3 (split; [done|]).
    symmetry. by apply (measure_center_Permutation meshes meshes').
Qed.

Lemma C1_center_witness :
  (Spec.midpoint_of_union
     (Spec.counted_boxes [Sample.cube; Sample.hidden; Sample.shifted])
     (center (Page.calculateBoundingInfo [Sample.cube; Sample.hidden; Sample.shifted]))
   /\ center (Page.calculateBoundingInfo [Sample.shifted; Sample.cube; Sample.hidden])
      = center (Page.calculateBoundingInfo [Sample.cube; Sample.hidden; Sample.shifted]))
  /\ (exists f f',
        BabylonViewer.measure [Sample.cube; Sample.hidden; Sample.shifted] = inr (Some f)
        /\ BabylonViewer.measure [Sample.shifted; Sample.cube; Sample.hidden]
           = inr (Some f')
        /\ Spec.midpoint_of_union
             (Spec.boxes_of [Sample.cube; Sample.hidden; Sample.shifted])
             (BabylonViewer.fit_center f)
        /\ BabylonViewer.fit_center f' = BabylonViewer.fit_center f).
Proof.
  destruct (C1_center_is_the_midpoint_of_the_union
              [Sample.cube; Sample.hidden; Sample.shifted]
              [Sample.shifted; Sample.cube; Sample.hidden]) as [HP HV].
  - by_evaluation.
  - split.
    + apply HP.
      * vm_compute. discriminate.
      * repeat constructor.
    + apply HV.
      * discriminate.
      * repeat constructor; by eexists.
      * repeat constructor.
Defined.

(** ** Tear-down *)

Section TearDown.

Lemma disposeBabylon_result (st : BabylonViewer.State) :
  BabylonViewer.disposeBabylon st
  = Normal (match BabylonViewer.engine st with
            | Some _ =>
                BabylonViewer.set_camera None
                  (BabylonViewer.set_engine None
                     (BabylonViewer.set_scene None
                        (BabylonViewer.set_resizeListener false st)))
            | None => BabylonViewer.set_resizeListener false st
            end).
Proof.
  destruct st as [canvas url loading err has [e|] [sc|] cam listener log]; reflexivity.
Qed.

Lemma dispose_loaded_nothing_attached (st : BabylonScene.State) :
  BabylonScene.attached st = [] ->
  BabylonScene.disposeLoaded st = st.
Proof.
  unfold BabylonScene.disposeLoaded.
  induction (BabylonScene.loadedModel st) as [|m l IH]; intros E; [done|].
  simpl. assert (BabylonScene.on_meshes (dispose m) st = st) as ->; [|by apply IH].
  unfold BabylonScene.on_meshes, BabylonScene.attached in *.
  destruct st as [c s e [[ms tn cam d]|] lm rh cl wl]; simpl in *; [|done].
  by subst.
Qed.

Lemma disposeLoaded_frame (st : BabylonScene.State) :
  exists ms, BabylonScene.disposeLoaded st = BabylonScene.on_meshes (fun _ => ms) st.
Proof.
  unfold BabylonScene.disposeLoaded.
  generalize (BabylonScene.loadedModel st) as l. intros l. revert st.
  induction l as [|m l IH]; intros st; simpl.
  - exists (BabylonScene.attached st).
    by destruct st as [c s e [[ms tn cam d]|] lm rh cl wl].
  - destruct (IH (BabylonScene.on_meshes (dispose m) st)) as [ms ->].
    exists ms. by destruct st as [c s e [[ms' tn cam d]|] lm rh cl wl].
Qed.

Lemma onBeforeUnmount_result (st : BabylonScene.State) :
  BabylonScene.onBeforeUnmount st
  = Normal (BabylonScene.mkState
              (BabylonScene.canvasRef st) (BabylonScene.loadingStatus st)
              (match BabylonScene.engine st with
               | Some _ => Some (BabylonScene.mkEngine true)
               | None => None
               end)
              (match BabylonScene.scene st with
               | Some sc =>
                   Some (BabylonScene.mkScene [] [] (BabylonScene.activeCamera sc) true)
               | None => None
               end)
              (BabylonScene.loadedModel st) (BabylonScene.resizeHandler st)
              (if BabylonScene.canvasRef st then false
               else BabylonScene.canvasListeners st)
              (if BabylonScene.resizeHandler st then false
               else BabylonScene.windowListener st)).
Proof.
  destruct (disposeLoaded_frame st) as [ms E].
  unfold BabylonScene.onBeforeUnmount, Stmt.block, Stmt.when, Stmt.seq, Stmt.assign,
    Stmt.on, Stmt.skip. cbn [foldr]. rewrite E. clear E.
  destruct st as [c s [e|] [[ms' tn cam d]|] [|m lm] [|] cl wl]; destruct c; reflexivity.
Qed.

End TearDown.

(** C9.  Tear-down is idempotent and safe when set-up stopped half way.
    For every state of the component, whichever of the engine, the scene
    and the loaded model exist, disposeBabylon (modelUrl component) and
    the onBeforeUnmount hook (BabylonScene.vue) end normally, and running
    them a second time ends normally in the same state. *)
Theorem C9_teardown_is_idempotent :
  (forall st : BabylonViewer.State,
     exists st',
       BabylonViewer.disposeBabylon st = Normal st'
       /\ BabylonViewer.disposeBabylon st' = Normal st')
  /\ (forall st : BabylonScene.State,
        exists st',
          BabylonScene.onBeforeUnmount st = Normal st'
          /\ BabylonScene.onBeforeUnmount st' = Normal st').
Proof.
  split.
  - intros st. eexists. split; [apply disposeBabylon_result|].
    rewrite disposeBabylon_result.
    by destruct st as [canvas url loading err has [e|] sc cam listener log].
  - intros st. eexists. split; [apply onBeforeUnmount_result|].
    rewrite onBeforeUnmount_result.
    by destruct st as [[|] s [e|] [[ms tn cam d]|] lm [|] cl wl].
Qed.

(** ** Requests before the viewer is ready *)

(** C8.  A load or clear requested before initialisation has completed
    does nothing to the geometry: the handler ends without handing any
    request to the viewer or the importer.  In the component on the viewer
    element loadModelIntoViewer only sets the not-ready message and
    clearModel changes nothing; in BabylonScene.vue handleFileImport
    changes nothing while the scene does not exist, and so do loadModel
    and handleFileSelected of the modelUrl component. *)
Theorem C8_not_ready_no_operation :
  (forall (st : GlbViewer.State) (file : string),
     GlbViewer.not_ready st = true ->
     GlbViewer.loadModelIntoViewer file st
     = Normal (GlbViewer.set_loadError (Some "Viewer not ready. Cannot load model.") st)
     /\ GlbViewer.clearModel st = Normal st)
  /\ (forall (st : BabylonScene.State) (file : option string),
        BabylonScene.scene st = None ->
        BabylonScene.handleFileImport file st = Normal st)
  /\ (forall (st : BabylonViewer.State) (url : string) (file : option string),
        BabylonViewer.scene st = None ->
        BabylonViewer.loadModel url st = Normal st
        /\ BabylonViewer.handleFileSelected file st = Normal st).
Proof.
  split; [|split].
  - intros st file H.
    unfold GlbViewer.loadModelIntoViewer, GlbViewer.clearModel, Stmt.call,
      Stmt.block, Stmt.when, Stmt.seq. cbn [foldr]. by rewrite H.
  - intros st file H.
    unfold BabylonScene.handleFileImport, Stmt.call, Stmt.block, Stmt.when, Stmt.seq.
    cbn [foldr]. rewrite H. by destruct file.
  - intros st url file H.
    unfold BabylonViewer.loadModel, BabylonViewer.handleFileSelected, Stmt.call,
      Stmt.block, Stmt.when, Stmt.seq.
    cbn [foldr]. rewrite H. by destruct file.
Qed.

Lemma C8_not_ready_witness :
  (GlbViewer.loadModelIntoViewer "model.glb" GlbViewer.mounted
   = Normal (GlbViewer.set_loadError (Some "Viewer not ready. Cannot load model.")
                                     GlbViewer.mounted)
   /\ GlbViewer.clearModel GlbViewer.mounted = Normal GlbViewer.mounted)
  /\ BabylonScene.handleFileImport (Some "model.glb") BabylonScene.created
     = Normal BabylonScene.created
  /\ (BabylonViewer.loadModel "model.glb" (BabylonViewer.created "")
      = Normal (BabylonViewer.created "")
      /\ BabylonViewer.handleFileSelected (Some "model.glb") (BabylonViewer.created "")
         = Normal (BabylonViewer.created "")).
Proof.
  destruct C8_not_ready_no_operation as (HB & HD & HC).
  split; [|split].
  - apply HB. reflexivity.
  - apply HD. reflexivity.
  - apply HC. reflexivity.
Defined.

(** ** Errors at the load boundary *)

Section LoadErrors.

Lemma or_else_nonempty (a b : string) : b <> "" -> or_else a b <> "".
Proof. unfold or_else. by case_bool_decide. Qed.

(** Whatever the import gives, the continuation of a load in the modelUrl
    component ends normally with the loading flag cleared. *)
Lemma resume_settles (source : string) (outcome : Settled (list Mesh))
    (st : BabylonViewer.State) :
  exists st',
    BabylonViewer.loadModel_resume source outcome st = Normal st'
    /\ BabylonViewer.reader_onload_resume source outcome st = Normal st'
    /\ BabylonViewer.isLoading st' = false
    /\ (forall e, outcome = Rejected e ->
          BabylonViewer.hasModel st' = BabylonViewer.hasModel st
          /\ BabylonViewer.errorLoading st'
             = Some (or_else (message e) "Unknown error occurred."))
    /\ (forall loaded e, outcome = Resolved loaded ->
          BabylonViewer.measure loaded = inl e ->
          BabylonViewer.hasModel st' = BabylonViewer.hasModel st
          /\ BabylonViewer.errorLoading st'
             = Some (or_else (message e) "Unknown error occurred.")).
Proof.
  unfold BabylonViewer.loadModel_resume, BabylonViewer.reader_onload_resume.
  destruct outcome as [loaded|e].
  - unfold Stmt.call, Stmt.try_finally, Stmt.try_catch, Stmt.block, Stmt.seq,
      BabylonViewer.frameModel. cbn [foldr Stmt.assign Stmt.skip].
    destruct (BabylonViewer.measure loaded) as [e|[f|]] eqn:E.
    + eexists. do 3 (split; [reflexivity|]). split; [done|].
      intros ? ? [= <-] Hm. rewrite E in Hm. injection Hm as <-.
      split; [|done]. unfold BabylonViewer.attach.
      by destruct (BabylonViewer.scene st).
    + unfold Stmt.on. cbn. destruct (BabylonViewer.camera _) eqn:Ecam.
      * eexists. do 3 (split; [reflexivity|]). split; [done|].
        intros ? ? [= <-]. by rewrite E.
      * eexists. do 3 (split; [reflexivity|]). split; [done|].
        intros ? ? [= <-]. by rewrite E.
    + eexists. do 3 (split; [reflexivity|]). split; [done|].
      intros ? ? [= <-]. by rewrite E.
  - eexists. do 3 (split; [reflexivity|]). split; [|done].
    by intros ? [= <-].
Qed.

End LoadErrors.

(** C6.  Every error raised during a load is caught where the load is
    handled: the handler ends normally (nothing is thrown on to the
    framework), a message for the user is set and the component no longer
    shows a load in progress.  This holds for a file that cannot be read,
    for a payload that cannot be decoded and for a load that cannot be
    started, in the modelUrl component (handleFileSelected and loadModel),
    in BabylonScene.vue (handleFileImport, where the status line is both
    the progress display and the message) and in the component on the
    viewer element (loadModelIntoViewer). *)
Theorem C6_load_errors_are_caught :
  (forall (st : BabylonViewer.State) (source : string) (e : Error)
          (outcome : Settled (list Mesh)),
     (exists st1,
        BabylonViewer.reader_onerror st = Normal st1
        /\ BabylonViewer.isLoading st1 = false
        /\ BabylonViewer.errorLoading st1 = Some "Error: Failed to read the file")
     /\ (exists st2,
           BabylonViewer.reader_onload None st = Normal st2
           /\ BabylonViewer.isLoading st2 = false
           /\ BabylonViewer.errorLoading st2 = Some "Error: Could not read file")
     /\ (exists st3 text,
           BabylonViewer.reader_onload_resume source (Rejected e) st = Normal st3
           /\ BabylonViewer.loadModel_resume source (Rejected e) st = Normal st3
           /\ BabylonViewer.isLoading st3 = false
           /\ BabylonViewer.errorLoading st3 = Some text /\ text <> "")
     /\ (exists st4,
           BabylonViewer.reader_onload_resume source outcome st = Normal st4
           /\ BabylonViewer.loadModel_resume source outcome st = Normal st4
           /\ BabylonViewer.isLoading st4 = false))
  /\ (forall (st : BabylonScene.State) (content : string) (e : Error) (text : string),
        BabylonScene.reader_onerror st
        = Normal (BabylonScene.set_loadingStatus "Error: Failed to read the file" st)
        /\ BabylonScene.reader_onload None None st
           = Normal (BabylonScene.set_loadingStatus "Error: Could not read file" st)
        /\ BabylonScene.reader_onload (Some content) (Some e) st
           = Normal (BabylonScene.set_loadingStatus ("Exception: " ++ message e) st)
        /\ BabylonScene.onError text st
           = Normal (BabylonScene.set_loadingStatus ("Error: " ++ text) st)
        /\ Forall (fun status =>
                     BabylonScene.shows_loading (BabylonScene.set_loadingStatus status st)
                     = false /\ status <> "")
                  [ "Error: Failed to read the file"; "Error: Could not read file";
                    ("Exception: " ++ message e)%string;
                    ("Error: " ++ text)%string ])
  /\ (forall (st : GlbViewer.State) (file : string) (e : Error),
        (exists st1 text,
           GlbViewer.loadModelIntoViewer_resume (Rejected e) st = Normal st1
           /\ GlbViewer.isLoading st1 = false
           /\ GlbViewer.loadError st1 = Some text /\ text <> "")
        /\ Stmt.uncaught (GlbViewer.loadModelIntoViewer file st) = false
        /\ (GlbViewer.not_ready st = false ->
            (exists viewer, GlbViewer.viewerInstance st = Some viewer
                            /\ GlbViewer.hasLoadModel viewer = false) ->
            exists st2 text,
              GlbViewer.loadModelIntoViewer file st = Normal st2
              /\ GlbViewer.isLoading st2 = false
              /\ GlbViewer.loadError st2 = Some text /\ text <> "")).
Proof.
  split; [|split].
  - intros st source e outcome. repeat split.
    + by eexists.
    + by eexists.
    + destruct (resume_settles source (Rejected e) st) as (st3 & E1 & E2 & Hl & Hrej & _).
      destruct (Hrej e eq_refl) as [_ Herr].
      exists st3, (or_else (message e) "Unknown error occurred.").
      repeat split; try done. by apply or_else_nonempty.
    + destruct (resume_settles source outcome st) as (st4 & E1 & E2 & Hl & _).
      by exists st4.
  - intros st content e text. do 4 (split; [reflexivity|]).
    repeat constructor; done.
  - intros st file e. split; [|split].
    + eexists _, _. repeat split. by apply or_else_nonempty.
    + unfold GlbViewer.loadModelIntoViewer, Stmt.call, Stmt.block, Stmt.when, Stmt.seq,
        Stmt.try_catch, GlbViewer.call_loadModel, Stmt.on.
      cbn [foldr]. destruct (GlbViewer.not_ready st); [done|]. cbn.
      destruct (GlbViewer.viewerInstance st) as [[[|] ?]|]; done.
    + intros Hready (viewer & Hv & Hno).
      unfold GlbViewer.loadModelIntoViewer, Stmt.call, Stmt.block, Stmt.when, Stmt.seq,
        Stmt.try_catch, GlbViewer.call_loadModel, Stmt.on.
      cbn [foldr]. rewrite Hready. cbn. rewrite Hv, Hno. cbn.
      eexists _, _. by repeat split.
Qed.

Lemma C6_load_errors_witness :
  exists st2 text,
    GlbViewer.loadModelIntoViewer "model.glb"
      (GlbViewer.mkState true (Some (GlbViewer.mkViewer false true)) None
                         false false true None true) = Normal st2
    /\ GlbViewer.isLoading st2 = false
    /\ GlbViewer.loadError st2 = Some text /\ text <> "".
Proof.
  destruct C6_load_errors_are_caught as (_ & _ & HB).
  destruct (HB (GlbViewer.mkState true (Some (GlbViewer.mkViewer false true)) None
                                  false false true None true)
               "model.glb" (mkError "")) as (_ & _ & H).
  apply H.
  - reflexivity.
  - by eexists.
Defined.

(** ** A failed load and the load after it *)

Section FailedLoads.

Lemma measure_total (loaded : list Mesh) :
  Forall Spec.has_box loaded -> exists r, BabylonViewer.measure loaded = inr r.
Proof.
  intros Hall. destruct Hall as [|first rest [box Hbox] Hall]; [by eexists|].
  unfold BabylonViewer.measure, BabylonViewer.boxOf.
  rewrite Hbox, (unionFrom_folds _ _ _ Hall). by eexists.
Qed.

Lemma loadModel_begins (url : string) (st : BabylonViewer.State) :
  BabylonViewer.scene st <> None -> String.prefix "blob:" url = false ->
  BabylonViewer.loadModel url st
  = Await (BabylonViewer.set_errorLoading None (BabylonViewer.set_isLoading true st)).
Proof.
  intros Hsc Hurl.
  unfold BabylonViewer.loadModel, Stmt.call, Stmt.block, Stmt.when, Stmt.seq,
    Stmt.try_finally, Stmt.try_catch, Stmt.ifte.
  cbn [foldr]. rewrite bool_decide_eq_false_2 by done. cbn. by rewrite Hurl.
Qed.

Lemma initializeBabylon_begins (st : BabylonViewer.State) :
  BabylonViewer.babylonCanvas st = true ->
  BabylonViewer.modelUrl st <> "" ->
  String.prefix "blob:" (BabylonViewer.modelUrl st) = false ->
  BabylonViewer.initializeBabylon None st
  = Await (BabylonViewer.mkState true (BabylonViewer.modelUrl st) true None false
             (Some (BabylonViewer.mkEngine true)) (Some (BabylonViewer.mkScene []))
             (Some (mkCamera Vec.Zero (JS.of_Z 10) (JS.of_Z 2) (JS.of_Z 50)))
             true (BabylonViewer.emitted st)).
Proof.
  intros Hcanvas Hurl Hblob.
  unfold BabylonViewer.initializeBabylon, Stmt.call, Stmt.block, Stmt.when, Stmt.seq,
    Stmt.try_finally, Stmt.try_catch.
  cbn [foldr]. rewrite Hcanvas. cbn [negb]. rewrite disposeBabylon_result.
  destruct st as [canvas url loading err has [e|] sc cam listener log];
    cbn in Hurl, Hblob |- *.
  all: rewrite bool_decide_eq_true_2 by done.
  all: rewrite loadModel_begins by done.
  all: cbn in Hcanvas; by subst.
Qed.

Lemma handleFileSelected_begins (file : string) (st : BabylonViewer.State) :
  BabylonViewer.scene st <> None ->
  BabylonViewer.handleFileSelected (Some file) st
  = Await (BabylonViewer.set_errorLoading None (BabylonViewer.set_isLoading true st)).
Proof.
  intros Hsc.
  unfold BabylonViewer.handleFileSelected, Stmt.call, Stmt.block, Stmt.when, Stmt.seq.
  cbn [foldr]. rewrite (bool_decide_eq_false_2 (_ = None)) by done.
  by rewrite bool_decide_eq_false_2 by done.
Qed.

Lemma reader_onload_begins (content : string) (st : BabylonViewer.State) :
  BabylonViewer.reader_onload (Some content) st = Await st.
Proof. reflexivity. Qed.


End FailedLoads.



(** In the component on the viewer element the message can be empty: a
    modelerror event without a message whose error object has the empty
    string as its string form leaves the empty string as the message. *)
Lemma onModelError_with_empty_text (st : GlbViewer.State) :
  exists st',
    GlbViewer.onModelError (GlbViewer.mkErrorEvent "" (Some "")) st = Normal st'
    /\ GlbViewer.isModelLoaded st' = false
    /\ GlbViewer.loadError st' = Some "".
Proof. by eexists. Qed.



(** ** The viewer element component: one request at a time *)

Section OneRequest.

Lemma onViewerReady_isLoading details st :
  GlbViewer.isLoading (Stmt.state_of (GlbViewer.onViewerReady details st))
  = GlbViewer.isLoading st.
Proof.
  unfold GlbViewer.onViewerReady, Stmt.call, Stmt.block, Stmt.when, Stmt.seq.
  cbn [foldr]. destruct (GlbViewer.viewerElement st); [|done].
  by destruct details as [[v|]|].
Qed.

Lemma handleFileChange_suspended file st :
  Stmt.suspended (GlbViewer.handleFileChange file st) = true ->
  GlbViewer.isLoading (Stmt.state_of (GlbViewer.handleFileChange file st)) = true.
Proof.
  destruct file as [f|]; [|done].
  unfold GlbViewer.handleFileChange, GlbViewer.loadModelIntoViewer, Stmt.call,
    Stmt.block, Stmt.when, Stmt.seq, Stmt.try_catch, GlbViewer.call_loadModel, Stmt.on.
  cbn [foldr Stmt.assign].
  destruct (GlbViewer.not_ready _); [done|]. cbn.
  by destruct (GlbViewer.viewerInstance st) as [[[|] ?]|].
Qed.

Lemma clearModel_suspended st :
  Stmt.suspended (GlbViewer.clearModel st) = true ->
  GlbViewer.isLoading (Stmt.state_of (GlbViewer.clearModel st)) = true.
Proof.
  unfold GlbViewer.clearModel, Stmt.call, Stmt.block, Stmt.when, Stmt.seq,
    Stmt.try_catch, Stmt.on.
  cbn [foldr Stmt.assign].
  destruct (GlbViewer.not_ready _); [done|]. cbn.
  by destruct (GlbViewer.viewerInstance st) as [[[|] ?]|].
Qed.

Lemma step_one_request ev w w' :
  GlbViewer.step ev w = Some w' -> Spec.one_request w -> Spec.one_request w'.
Proof.
  unfold Spec.one_request, GlbViewer.in_flight.
  destruct w as [st loads clears]. destruct ev; cbn.
  - intros [= <-]. cbn. rewrite onViewerReady_isLoading. tauto.
  - unfold GlbViewer.fileInput_disabled.
    destruct (GlbViewer.isLoading st) eqn:Hl; [done|].
    destruct (negb _); [done|]. intros [= <-] [H|[_ ?]]; [|done]. cbn.
    destruct (Stmt.suspended _) eqn:E; [|by left].
    right. split; [lia|]. by apply handleFileChange_suspended.
  - unfold GlbViewer.clearButton_disabled.
    destruct (negb (GlbViewer.isModelLoaded st)); [done|].
    destruct (GlbViewer.isLoading st) eqn:Hl; [done|].
    destruct (negb _); [done|]. intros [= <-] [H|[_ ?]]; [|done]. cbn.
    destruct (Stmt.suspended _) eqn:E; [|by left].
    right. split; [lia|]. by apply clearModel_suspended.
  - destruct loads as [|n]; [done|]. intros [= <-]. cbn. intros [H|[H _]]; left; lia.
  - destruct clears as [|n]; [done|]. intros [= <-]. cbn. intros [H|[H _]]; left; lia.
Qed.

Lemma run_one_request evs w w' :
  GlbViewer.run evs w = Some w' -> Spec.one_request w -> Spec.one_request w'.
Proof.
  revert w. induction evs as [|ev evs IH]; intros w; simpl.
  - by intros [= <-].
  - destruct (GlbViewer.step ev w) as [w1|] eqn:E; [|done].
    eauto using step_one_request.
Qed.

End OneRequest.

(** ** BabylonScene.vue: loads one after the other *)

Section OneAfterTheOther.

(** What is attached after the tracked meshes have been disposed was
    attached before, and has the id of none of them. *)
Lemma disposeLoaded_attached (st : BabylonScene.State) (m : Mesh) :
  m ∈ BabylonScene.attached (BabylonScene.disposeLoaded st) ->
  m ∈ BabylonScene.attached st
  /\ uniqueId m ∉ map uniqueId (BabylonScene.loadedModel st).
Proof.
  unfold BabylonScene.disposeLoaded.
  generalize (BabylonScene.loadedModel st) as l. intros l. revert st.
  induction l as [|k l IH]; intros st; simpl.
  - intros Hm. split; [done|]. apply not_elem_of_nil.
  - intros Hm. apply IH in Hm as [Hm Hout].
    assert (BabylonScene.attached (BabylonScene.on_meshes (dispose k) st)
            = dispose k (BabylonScene.attached st)) as E.
    { by destruct st as [c s e [[ms tn cam d]|] lm rh cl wl]. }
    rewrite E in Hm. apply dispose_removes in Hm as [Hm Hid].
    split; [done|]. rewrite elem_of_cons. intros [?|?]; done.
Qed.

Lemma handleFileImport_begins (file : string) (st : BabylonScene.State) :
  BabylonScene.scene st <> None ->
  BabylonScene.attached st = BabylonScene.loadedModel st ->
  exists st',
    BabylonScene.handleFileImport (Some file) st = Await st'
    /\ BabylonScene.attached st' = []
    /\ BabylonScene.loadedModel st' = []
    /\ BabylonScene.scene st' <> None.
Proof.
  intros Hsc Htracked.
  unfold BabylonScene.handleFileImport, Stmt.call, Stmt.block, Stmt.when, Stmt.seq.
  cbn [foldr Stmt.assign].
  rewrite (bool_decide_eq_false_2 (BabylonScene.scene st = None)) by done.
  rewrite (bool_decide_eq_false_2 (Some file = None)) by done.
  cbn [orb default].
  change (BabylonScene.loadedModel (BabylonScene.set_loadingStatus _ st))
    with (BabylonScene.loadedModel st).
  destruct (decide (BabylonScene.loadedModel st = [])) as [E|E].
  - rewrite bool_decide_eq_true_2 by done. cbn. eexists. split; [done|].
    destruct st as [c s e sc lm rh cl wl]; cbn in *. by subst.
  - rewrite bool_decide_eq_false_2 by done. cbn -[BabylonScene.disposeLoaded].
    eexists. split; [reflexivity|]. split; [|split; [done|]].
    + change (BabylonScene.attached (BabylonScene.set_loadedModel [] ?y))
        with (BabylonScene.attached y).
      apply elem_of_nil_inv. intros m Hm.
      apply disposeLoaded_attached in Hm as [Hm Hout].
      change (BabylonScene.attached (BabylonScene.set_loadingStatus _ st))
        with (BabylonScene.attached st) in Hm.
      change (BabylonScene.loadedModel (BabylonScene.set_loadingStatus _ st))
        with (BabylonScene.loadedModel st) in Hout.
      rewrite Htracked in Hm. apply Hout.
      by apply list_elem_of_In, in_map, list_elem_of_In.
    + destruct (disposeLoaded_frame
                  (BabylonScene.set_loadingStatus ("Loading " ++ file ++ "...") st))
        as [ms ->].
      by destruct st as [c s e [sc|] lm rh cl wl].
Qed.

Lemma adopt_all (root : nat) (loaded : list Mesh) :
  map (fun m => if bool_decide (uniqueId m ∈ map uniqueId loaded)
                then BabylonScene.adopt root m else m) loaded
  = map (BabylonScene.adopt root) loaded.
Proof.
  apply map_ext_in. intros m Hm. rewrite bool_decide_eq_true_2; [done|].
  by apply list_elem_of_In, in_map.
Qed.

Lemma adopt_keeps_ids (root : nat) (loaded : list Mesh) :
  map uniqueId (map (BabylonScene.adopt root) loaded) = map uniqueId loaded.
Proof.
  rewrite map_map. apply map_ext. intros m.
  unfold BabylonScene.adopt. by case_bool_decide.
Qed.

Lemma onSuccess_tracks (root : nat) (rebuilt : num) (loaded : list Mesh)
    (st : BabylonScene.State) :
  BabylonScene.scene st <> None ->
  BabylonScene.attached st = [] ->
  exists st',
    BabylonScene.onSuccess root rebuilt loaded (BabylonScene.attach loaded st)
    = Normal st'
    /\ BabylonScene.scene st' <> None
    /\ BabylonScene.attached st' = BabylonScene.loadedModel st'
    /\ map uniqueId (BabylonScene.attached st') = map uniqueId loaded.
Proof.
  intros Hsc Hnone.
  destruct st as [c s e [[ms tn cam d]|] lm rh cl wl]; [|done].
  cbn in Hnone. subst ms.
  unfold BabylonScene.onSuccess, Stmt.call, Stmt.block, Stmt.when, Stmt.seq, Stmt.on.
  cbn [foldr Stmt.assign].
  destruct (decide (length loaded = 0%nat)) as [E|E].
  - rewrite bool_decide_eq_true_2 by done. apply nil_length_inv in E as ->.
    by eexists.
  - rewrite bool_decide_eq_false_2 by done.
    cbn -[bool_decide map]. rewrite adopt_all.
    eexists. split; [done|]. split; [done|]. split; [done|].
    apply adopt_keeps_ids.
Qed.

(** The status line has no part in the geometry. *)
Ltac drop_status :=
  cbn -[BabylonScene.attached BabylonScene.loadedModel BabylonScene.scene];
  repeat match goal with
    | |- context [BabylonScene.attached (BabylonScene.set_loadingStatus ?s ?y)] =>
        change (BabylonScene.attached (BabylonScene.set_loadingStatus s y))
          with (BabylonScene.attached y)
    | |- context [BabylonScene.loadedModel (BabylonScene.set_loadingStatus ?s ?y)] =>
        change (BabylonScene.loadedModel (BabylonScene.set_loadingStatus s y))
          with (BabylonScene.loadedModel y)
    | |- context [BabylonScene.scene (BabylonScene.set_loadingStatus ?s ?y)] =>
        change (BabylonScene.scene (BabylonScene.set_loadingStatus s y))
          with (BabylonScene.scene y)
    end.

(** From rest, a load that runs alone comes back to rest; when it
    succeeds the attached meshes are those it loaded, otherwise nothing is
    attached. *)
Lemma load_alone (l : BabylonScene.Load) (w : BabylonScene.World) :
  Spec.at_rest w ->
  exists w',
    BabylonScene.run (BabylonScene.events_of l) w = Some w'
    /\ Spec.at_rest w'
    /\ map uniqueId (BabylonScene.attached (BabylonScene.component w'))
       = match l with
         | BabylonScene.ImportSucceeds _ _ _ loaded => map uniqueId loaded
         | _ => []
         end.
Proof.
  destruct w as [st reads imports]. unfold Spec.at_rest, BabylonScene.in_flight.
  cbn [BabylonScene.component BabylonScene.reads BabylonScene.imports].
  intros (Hnone & Hsc & Htracked).
  assert (reads = 0%nat /\ imports = 0%nat) as [-> ->] by lia.
  assert (exists file, BabylonScene.events_of l
                       = BabylonScene.FileImport (Some file)
                           :: tail (BabylonScene.events_of l)) as [file ->]
    by (destruct l; by eexists).
  destruct (handleFileImport_begins file st Hsc Htracked)
    as (st1 & E1 & Hempty & Hlm & Hsc1).
  cbn [BabylonScene.run BabylonScene.step BabylonScene.component
       BabylonScene.reads BabylonScene.imports].
  rewrite E1. cbn [Stmt.state_of Stmt.suspended].
  destruct l as [f|f|f content e|f content root e|f content root loaded];
    cbn [BabylonScene.events_of tail BabylonScene.run BabylonScene.step
         BabylonScene.component BabylonScene.reads BabylonScene.imports].
  - eexists. split; [reflexivity|]. drop_status. by rewrite Hempty, Hlm.
  - eexists. split; [reflexivity|]. drop_status. by rewrite Hempty, Hlm.
  - eexists. split; [reflexivity|]. drop_status. by rewrite Hempty, Hlm.
  - eexists. split; [reflexivity|]. drop_status. by rewrite Hempty, Hlm.
  - cbn [BabylonScene.reader_onload]. 
    assert (BabylonScene.reader_onload (Some content) None st1 = Await st1) as ->
      by reflexivity.
    cbn [Stmt.state_of Stmt.suspended].
    destruct (onSuccess_tracks root (BabylonScene.shown_radius st1) loaded st1 Hsc1 Hempty)
      as (st2 & E2 & Hsc2 & Htracked2 & Hids).
    rewrite E2. eexists. split; [reflexivity|]. by cbn.
Qed.

Lemma loads_alone (ls : list BabylonScene.Load) (w : BabylonScene.World) :
  Spec.at_rest w ->
  exists w',
    BabylonScene.run (flat_map BabylonScene.events_of ls) w = Some w'
    /\ Spec.at_rest w'
    /\ (forall earlier l, ls = earlier ++ [l] ->
          map uniqueId (BabylonScene.attached (BabylonScene.component w'))
          = match l with
            | BabylonScene.ImportSucceeds _ _ _ loaded => map uniqueId loaded
            | _ => []
            end).
Proof.
  assert (forall evs evs' w0 w1,
            BabylonScene.run evs w0 = Some w1 ->
            BabylonScene.run (evs ++ evs') w0 = BabylonScene.run evs' w1) as Happ.
  { induction evs as [|ev evs IH]; intros evs' w0 w1; simpl.
    - by intros [= ->].
    - destruct (BabylonScene.step ev w0); [apply IH|done]. }
  revert w. induction ls as [|l ls IH]; intros w Hrest.
  - exists w. split; [done|]. split; [done|]. by intros [|??] ? ?.
  - destruct (load_alone l w Hrest) as (w1 & E1 & Hrest1 & Hids1).
    destruct (IH w1 Hrest1) as (w2 & E2 & Hrest2 & Hids2).
    exists w2. simpl. rewrite (Happ _ _ _ _ E1). split; [done|]. split; [done|].
    intros earlier k Hsplit. destruct ls as [|l' ls'].
    + destruct earlier as [|? [|??]]; try done. injection Hsplit as <-.
      simpl in E2. by injection E2 as <-.
    + destruct earlier as [|l0 earlier]; [done|]. injection Hsplit as <- Hsplit.
      by apply (Hids2 earlier).
Qed.

End OneAfterTheOther.

(** ** The modelUrl component: loads one after the other *)

Section ViewerLoads.

Lemma loadModel_cases (url : string) (st : BabylonViewer.State) :
  BabylonViewer.scene st <> None ->
  BabylonViewer.loadModel url st
  = if String.prefix "blob:" url
    then Normal (BabylonViewer.set_isLoading false
                   (BabylonViewer.set_errorLoading
                      (Some "Please use the Add Model button to load models.")
                      (BabylonViewer.set_isLoading true st)))
    else Await (BabylonViewer.set_errorLoading None
                  (BabylonViewer.set_isLoading true st)).
Proof.
  intros Hsc.
  unfold BabylonViewer.loadModel, Stmt.call, Stmt.block, Stmt.when, Stmt.seq,
    Stmt.try_finally, Stmt.try_catch, Stmt.ifte.
  cbn [foldr]. rewrite bool_decide_eq_false_2 by done.
  cbn -[String.prefix]. destruct (String.prefix "blob:" url); [|done].
  by destruct st.
Qed.

(** Unless it reaches the import, initializeBabylon ends at once, with no
    geometry attached. *)
Lemma initializeBabylon_immediate (boot : option Error) (st : BabylonViewer.State) :
  Spec.settled st ->
  BabylonViewer.babylonCanvas st = false \/ boot <> None
  \/ BabylonViewer.modelUrl st = ""
  \/ String.prefix "blob:" (BabylonViewer.modelUrl st) = true ->
  exists st',
    BabylonViewer.initializeBabylon boot st = Normal st' /\ Spec.settled st'.
Proof.
  intros (Hload & Hnone & Heng & Hcam) Hwhy.
  unfold BabylonViewer.initializeBabylon, Stmt.call, Stmt.block, Stmt.when, Stmt.seq,
    Stmt.try_finally, Stmt.try_catch.
  cbn [foldr]. destruct (BabylonViewer.babylonCanvas st) eqn:Hcanvas; cbn [negb].
  2:{ cbn. eexists. by split. }
  rewrite disposeBabylon_result.
  destruct boot as [e|].
  { destruct st as [canvas url loading err has [en|] sc cam listener log]; cbn in *.
    - eexists. split; [done|]. by repeat split.
    - rewrite Heng by done. eexists. split; [done|]. by repeat split. }
  destruct Hwhy as [?|[?|[Eurl|Eblob]]]; [done..| |].
  - destruct st as [canvas url loading err has [en|] sc cam listener log];
      cbn in *; subst; eexists; (split; [done|]); by repeat split.
  - destruct (decide (BabylonViewer.modelUrl st = "")) as [Eurl|Eurl].
    { destruct st as [canvas url loading err has [en|] sc cam listener log];
        cbn in *; subst; eexists; (split; [done|]); by repeat split. }
    destruct st as [canvas url loading err has [en|] sc cam listener log];
      cbn -[BabylonViewer.loadModel bool_decide String.prefix] in *.
    all: rewrite bool_decide_eq_true_2 by done.
    all: rewrite loadModel_cases by done.
    all: rewrite Eblob; cbn; eexists; (split; [done|]); by repeat split.
Qed.

Lemma rejected_result (source : string) (e : Error) (st : BabylonViewer.State) :
  BabylonViewer.loadModel_resume source (Rejected e) st
  = Normal (BabylonViewer.set_isLoading false
              (BabylonViewer.emit
                 (BabylonViewer.ModelErrored (or_else (message e) "Unknown error occurred."))
                 (BabylonViewer.set_errorLoading
                    (Some (or_else (message e) "Unknown error occurred.")) st)))
  /\ BabylonViewer.reader_onload_resume source (Rejected e) st
     = BabylonViewer.loadModel_resume source (Rejected e) st.
Proof. by split. Qed.

(** What stays and what changes when an import resolves. *)
Lemma resolved_result (source : string) (loaded : list Mesh)
    (st : BabylonViewer.State) :
  Forall Spec.has_box loaded -> BabylonViewer.camera st <> None ->
  exists st',
    BabylonViewer.loadModel_resume source (Resolved loaded) st = Normal st'
    /\ BabylonViewer.reader_onload_resume source (Resolved loaded) st = Normal st'
    /\ BabylonViewer.hasModel st' = true
    /\ BabylonViewer.isLoading st' = false
    /\ BabylonViewer.engine st' = BabylonViewer.engine st
    /\ BabylonViewer.camera st' <> None
    /\ BabylonViewer.scene st'
       = match BabylonViewer.scene st with
         | Some sc => Some (BabylonViewer.mkScene (BabylonViewer.meshes sc ++ loaded))
         | None => None
         end.
Proof.
  intros Hall Hcam. destruct (measure_total loaded Hall) as [r E].
  unfold BabylonViewer.loadModel_resume, BabylonViewer.reader_onload_resume.
  unfold Stmt.call, Stmt.try_finally, Stmt.try_catch, Stmt.block, Stmt.seq,
    BabylonViewer.frameModel. cbn [foldr Stmt.assign Stmt.skip]. rewrite E.
  destruct st as [canvas url loading err has e [sc|] [cam|] listener log]; [|done| |done].
  all: destruct r as [f|]; cbn; eexists; by repeat split.
Qed.

(** initializeBabylon followed by the outcome of its import: the component
    is settled again, and when the import was reached and resolved, the
    attached meshes are those it loaded. *)
Lemma initialize_settles (boot : option Error) (outcome : Settled (list Mesh))
    (st : BabylonViewer.State) :
  Spec.settled st ->
  match outcome with Resolved loaded => Forall Spec.has_box loaded | _ => True end ->
  let st' := BabylonViewer.then_resume
               (BabylonViewer.initializeBabylon boot st)
               (BabylonViewer.initializeBabylon_resume (BabylonViewer.modelUrl st) outcome)
  in
  Spec.settled st'
  /\ (BabylonViewer.babylonCanvas st = true -> boot = None ->
      BabylonViewer.modelUrl st <> "" ->
      String.prefix "blob:" (BabylonViewer.modelUrl st) = false ->
      forall loaded, outcome = Resolved loaded -> BabylonViewer.attached st' = loaded).
Proof.
  intros Hsettled Hboxed.
  destruct (BabylonViewer.babylonCanvas st) eqn:Hcanvas.
  2:{ destruct (initializeBabylon_immediate boot st Hsettled) as (st1 & -> & H1); auto.
      by split. }
  destruct boot as [e|].
  { destruct (initializeBabylon_immediate (Some e) st Hsettled) as (st1 & -> & H1); auto.
    by split. }
  destruct (decide (BabylonViewer.modelUrl st = "")) as [Eurl|Eurl].
  { destruct (initializeBabylon_immediate None st Hsettled) as (st1 & -> & H1); auto.
    by split. }
  destruct (String.prefix "blob:" (BabylonViewer.modelUrl st)) eqn:Eblob.
  { destruct (initializeBabylon_immediate None st Hsettled) as (st1 & -> & H1); auto.
    by split. }
  rewrite initializeBabylon_begins by done.
  unfold BabylonViewer.then_resume, BabylonViewer.initializeBabylon_resume.
  destruct outcome as [loaded|e].
  - edestruct (resolved_result (BabylonViewer.modelUrl st) loaded)
      as (st1 & E & _ & Hhas & Hl & Heng & Hcam & Hsc); [done| |].
    2:{ unfold Stmt.call, Stmt.try_finally, Stmt.try_catch. rewrite E.
        cbn [BabylonViewer.stopLoading Stmt.assign Stmt.state_of].
        cbn in Heng, Hsc. split.
        - repeat split; cbn; try done.
          + change (BabylonViewer.hasModel st1 = false -> BabylonViewer.attached st1 = []).
            by rewrite Hhas.
          + change (BabylonViewer.engine st1 = None -> BabylonViewer.scene st1 = None).
            by rewrite Heng.
        - intros _ _ _ _ loaded' [= <-].
          change (BabylonViewer.attached st1 = loaded).
          unfold BabylonViewer.attached. by rewrite Hsc. }
    done.
  - split; [by repeat split|]. by intros.
Qed.

(** A file load followed by its outcome. *)
Lemma file_settles (file : string) (read : option (option string))
    (outcome : Settled (list Mesh)) (st st' : BabylonViewer.State) :
  Spec.settled st ->
  match outcome with Resolved loaded => Forall Spec.has_box loaded | _ => True end ->
  BabylonViewer.perform (BabylonViewer.FileChosen file read outcome) st = Some st' ->
  Spec.settled st'
  /\ (BabylonViewer.scene st <> None ->
      forall content loaded, read = Some (Some content) -> outcome = Resolved loaded ->
                             BabylonViewer.attached st' = loaded).
Proof.
  intros (Hload & Hnone & Heng & Hcam) Hboxed. unfold BabylonViewer.perform.
  destruct (BabylonViewer.addModel_shown st) eqn:Hgate; [|done].
  unfold BabylonViewer.addModel_shown in Hgate.
  apply andb_true_iff in Hgate as [Hhas%negb_true_iff _].
  destruct (decide (BabylonViewer.scene st = None)) as [Hsc|Hsc].
  { assert (BabylonViewer.handleFileSelected (Some file) st = Normal st) as ->.
    { unfold BabylonViewer.handleFileSelected, Stmt.call, Stmt.block, Stmt.when, Stmt.seq.
      cbn [foldr]. rewrite (bool_decide_eq_true_2 (BabylonViewer.scene st = None)) by done.
      by rewrite orb_true_r. }
    intros [= <-]. by split. }
  rewrite handleFileSelected_begins by done.
  destruct read as [[content|]|].
  - rewrite reader_onload_begins. unfold BabylonViewer.then_resume.
    destruct outcome as [loaded|e].
    + edestruct (resolved_result file loaded)
        as (st1 & _ & E & Hhas1 & Hl & Heng1 & Hcam1 & Hsc1); [done| |].
      2:{ rewrite E. intros [= <-]. cbn in Heng1, Hsc1. split.
          - repeat split; try done.
            + by rewrite Hhas1.
            + rewrite Heng1. intros H. by specialize (Heng H).
          - intros _ content' loaded' _ [= <-].
            unfold BabylonViewer.attached in Hnone |- *. rewrite Hsc1.
            destruct (BabylonViewer.scene st) as [sc|]; [|done].
            cbn. by rewrite (Hnone Hhas). }
      by apply Hcam.
    + intros [= <-]. split; [by repeat split|]. by intros.
  - intros [= <-]. split; [by repeat split|]. by intros.
  - intros [= <-]. split; [by repeat split|]. by intros.
Qed.

Lemma perform_settles (l : BabylonViewer.Load) (st st' : BabylonViewer.State) :
  Spec.settled st -> Spec.boxed l ->
  BabylonViewer.perform l st = Some st' -> Spec.settled st'.
Proof.
  intros Hsettled Hboxed. destruct l as [boot outcome|url boot outcome|file read outcome].
  - intros [= <-]. by apply initialize_settles.
  - cbn. destruct (_ && _ && _).
    + intros [= <-].
      apply (initialize_settles boot outcome (BabylonViewer.set_modelUrl url st)); [|done].
      destruct Hsettled as (? & ? & ? & ?). by repeat split.
    + intros [= <-]. destruct Hsettled as (? & ? & ? & ?). by repeat split.
  - intros E. by eapply file_settles.
Qed.

Lemma perform_all_settles (ls : list BabylonViewer.Load) (st st' : BabylonViewer.State) :
  Spec.settled st -> Forall Spec.boxed ls ->
  BabylonViewer.perform_all ls st = Some st' -> Spec.settled st'.
Proof.
  intros Hsettled Hall. revert st Hsettled.
  induction Hall as [|l ls Hl _ IH]; intros st Hsettled; simpl.
  - by intros [= <-].
  - destruct (BabylonViewer.perform l st) as [st1|] eqn:E; [|done].
    eauto using perform_settles.
Qed.

End ViewerLoads.

(** ** Requests while a load is in flight *)

Lemma handleFileImport_accepts (file : string) (st : BabylonScene.State) :
  BabylonScene.scene st <> None ->
  exists st', BabylonScene.handleFileImport (Some file) st = Await st'.
Proof.
  intros Hsc.
  unfold BabylonScene.handleFileImport, Stmt.call, Stmt.block, Stmt.when, Stmt.seq.
  cbn [foldr Stmt.assign].
  rewrite (bool_decide_eq_false_2 (BabylonScene.scene st = None)) by done.
  rewrite (bool_decide_eq_false_2 (Some file = None)) by done.
  cbn [orb]. destruct (negb _); by eexists.
Qed.

(** C4, as stated, fails in components/BabylonScene.vue: the file input
    is never disabled and handleFileImport does not look for a load in
    flight.  A second file chosen while the first is being imported is
    accepted; two imports are then in flight, and when both have ended the
    meshes of both files are attached. *)
Lemma C4_second_request_is_accepted :
  exists w w',
    BabylonScene.run
      [BabylonScene.FileImport (Some "a.glb");
       BabylonScene.ReaderLoad (Some "a") None;
       BabylonScene.FileImport (Some "b.glb");
       BabylonScene.ReaderLoad (Some "b") None] BabylonScene.initial = Some w
    /\ BabylonScene.imports w = 2%nat
    /\ BabylonScene.run
         [BabylonScene.ImportEnds 10 (Resolved [Sample.cube]);
          BabylonScene.ImportEnds 11 (Resolved [Sample.shifted])] w = Some w'
    /\ BabylonScene.in_flight w' = 0%nat
    /\ map uniqueId (BabylonScene.attached (BabylonScene.component w')) = [1; 2]%nat.
Proof.
  eexists _, _. split; [reflexivity|]. split; [reflexivity|].
  split; [reflexivity|]. split; reflexivity.
Qed.

(** C4, amended.  In the component on the viewer element the file input
    and the clear button are disabled while the loading flag is set, and
    the flag is set from the request until the viewer reports how it
    ended: in every run at most one request is in flight, the flag is set
    while one is, and while the flag is set neither a file nor a clear
    request can be issued.  components/BabylonScene.vue has no such gate:
    once the scene exists handleFileImport accepts every chosen file and
    starts one more read, whatever is in flight. *)
Theorem C4_one_request_where_the_input_is_gated :
  (forall (evs : list GlbViewer.Event) (w : GlbViewer.World),
     GlbViewer.run evs GlbViewer.initial = Some w ->
     (GlbViewer.in_flight w <= 1)%nat
     /\ (GlbViewer.in_flight w = 1%nat ->
         GlbViewer.isLoading (GlbViewer.component w) = true)
     /\ (GlbViewer.isLoading (GlbViewer.component w) = true ->
         forall file,
           GlbViewer.step (GlbViewer.FileChange file) w = None
           /\ GlbViewer.step GlbViewer.ClearClick w = None))
  /\ (forall (w : BabylonScene.World) (file : string),
        BabylonScene.scene (BabylonScene.component w) <> None ->
        exists w',
          BabylonScene.step (BabylonScene.FileImport (Some file)) w = Some w'
          /\ BabylonScene.reads w' = S (BabylonScene.reads w)
          /\ BabylonScene.imports w' = BabylonScene.imports w).
Proof.
  split.
  - intros evs w Hrun.
    assert (Spec.one_request w) as Hone.
    { apply (run_one_request evs GlbViewer.initial); [done|]. by left. }
    split; [|split].
    + destruct Hone as [->|[-> _]]; lia.
    + intros E. destruct Hone as [E0|[_ ?]]; [|done]. rewrite E in E0. lia.
    + intros Hl file. unfold GlbViewer.step, GlbViewer.fileInput_disabled,
        GlbViewer.clearButton_disabled. rewrite Hl. cbn [orb].
      by rewrite orb_true_r.
  - intros [st reads imports] file Hsc. cbn in Hsc.
    destruct (handleFileImport_accepts file st Hsc) as [st' E].
    cbn [BabylonScene.step BabylonScene.component BabylonScene.reads
         BabylonScene.imports]. rewrite E. by eexists.
Qed.

Lemma C4_one_request_witness :
  GlbViewer.run Sample.first_request GlbViewer.initial = Some Sample.loading_viewer
  /\ (GlbViewer.in_flight Sample.loading_viewer <= 1)%nat
  /\ GlbViewer.isLoading (GlbViewer.component Sample.loading_viewer) = true
  /\ GlbViewer.step (GlbViewer.FileChange (Some "other.glb")) Sample.loading_viewer = None
  /\ (exists w',
        BabylonScene.step (BabylonScene.FileImport (Some "model.glb"))
                          BabylonScene.initial = Some w'
        /\ BabylonScene.reads w' = 1%nat).
Proof.
  destruct C4_one_request_where_the_input_is_gated as [HB HD].
  assert (GlbViewer.run Sample.first_request GlbViewer.initial
          = Some Sample.loading_viewer) as Hrun by reflexivity.
  destruct (HB _ _ Hrun) as (Hle & Hone & Hgate).
  split; [exact Hrun|]. split; [exact Hle|]. split; [by apply Hone|]. split.
  - apply (Hgate (Hone eq_refl) (Some "other.glb")).
  - destruct (HD BabylonScene.initial "model.glb") as (w' & E & Hr & _); [done|].
    by exists w'.
Defined.

(** ** One set of geometry *)

(** C2, as stated, fails in components/BabylonScene.vue when two loads
    overlap.  The second request disposes the tracked set, which is still
    empty while the first import has not ended; after both imports have
    ended only the second set is tracked, and the meshes of both are
    attached. *)
Lemma C2_overlapping_loads_leave_both_sets :
  exists w,
    BabylonScene.run
      [BabylonScene.FileImport (Some "a.glb");
       BabylonScene.FileImport (Some "b.glb");
       BabylonScene.ReaderLoad (Some "a") None;
       BabylonScene.ReaderLoad (Some "b") None;
       BabylonScene.ImportEnds 10 (Resolved [Sample.cube]);
       BabylonScene.ImportEnds 11 (Resolved [Sample.shifted])]
      BabylonScene.initial = Some w
    /\ BabylonScene.in_flight w = 0%nat
    /\ map uniqueId (BabylonScene.loadedModel (BabylonScene.component w)) = [2]%nat
    /\ map uniqueId (BabylonScene.attached (BabylonScene.component w)) = [1; 2]%nat.
Proof.
  eexists. split; [reflexivity|]. split; [reflexivity|]. split; reflexivity.
Qed.

(** C2, amended.  When loads do not overlap, one set of geometry is
    attached after each of them.  In components/BabylonScene.vue, after
    any sequence of loads that each run from the request to the outcome,
    nothing is in flight, the attached meshes are the tracked ones, and
    they are those of the last load when it succeeded (none when it
    failed); the next handleFileImport disposes all of them before its
    import starts.  In the modelUrl component, after any such sequence
    the file input is offered only while nothing is attached, a file load
    that resolves leaves exactly its meshes attached, and a change of the
    URL disposes the scene with all its meshes before the new import, so
    that exactly the new meshes are attached. *)
Theorem C2_one_set_when_loads_do_not_overlap :
  (forall ls : list BabylonScene.Load,
     exists w,
       BabylonScene.run (flat_map BabylonScene.events_of ls) BabylonScene.initial
       = Some w
       /\ Spec.at_rest w
       /\ (forall earlier l, ls = earlier ++ [l] ->
             map uniqueId (BabylonScene.attached (BabylonScene.component w))
             = match l with
               | BabylonScene.ImportSucceeds _ _ _ loaded => map uniqueId loaded
               | _ => []
               end)
       /\ (forall file, exists st',
             BabylonScene.handleFileImport (Some file) (BabylonScene.component w)
             = Await st'
             /\ BabylonScene.attached st' = []))
  /\ (forall (url : string) (ls : list BabylonViewer.Load) (st : BabylonViewer.State),
        Forall Spec.boxed ls ->
        BabylonViewer.perform_all ls (BabylonViewer.created url) = Some st ->
        Spec.settled st
        /\ (BabylonViewer.addModel_shown st = true -> BabylonViewer.attached st = [])
        /\ (forall file content loaded st',
              Forall Spec.has_box loaded ->
              BabylonViewer.scene st <> None ->
              BabylonViewer.perform
                (BabylonViewer.FileChosen file (Some (Some content)) (Resolved loaded)) st
              = Some st' ->
              BabylonViewer.attached st' = loaded)
        /\ (forall url' loaded,
              Forall Spec.has_box loaded ->
              BabylonViewer.babylonCanvas st = true ->
              url' <> "" -> url' <> BabylonViewer.modelUrl st ->
              String.prefix "blob:" url' = false ->
              exists st',
                BabylonViewer.perform
                  (BabylonViewer.UrlChange url' None (Resolved loaded)) st = Some st'
                /\ BabylonViewer.attached st' = loaded)).
Proof.
  split.
  - intros ls.
    destruct (loads_alone ls BabylonScene.initial) as (w & E & Hrest & Hlast).
    { by repeat split. }
    exists w. do 3 (split; [done|]). intros file.
    destruct Hrest as (_ & Hsc & Htracked).
    destruct (handleFileImport_begins file _ Hsc Htracked) as (st' & E' & Hnone & _).
    by exists st'.
  - intros url ls st Hboxed Hrun.
    assert (Spec.settled st) as Hsettled.
    { apply (perform_all_settles ls (BabylonViewer.created url)); [|done..].
      by repeat split. }
    split; [done|]. split; [|split].
    + intros Hgate. destruct Hsettled as (_ & Hnone & _). apply Hnone.
      unfold BabylonViewer.addModel_shown in Hgate.
      by apply andb_true_iff in Hgate as [Hhas%negb_true_iff _].
    + intros file content loaded st' Hall Hsc E.
      destruct (file_settles file (Some (Some content)) (Resolved loaded) st st')
        as [_ Hsame]; [done..|].
      by apply (Hsame Hsc content loaded).
    + intros url' loaded Hall Hcanvas Hne Hnew Hblob. eexists. split.
      * cbn. rewrite Hcanvas.
        by rewrite (bool_decide_eq_true_2 (url' <> "")),
                   (bool_decide_eq_true_2 (url' <> BabylonViewer.modelUrl st)).
      * destruct (initialize_settles None (Resolved loaded)
                    (BabylonViewer.set_modelUrl url' st)) as [_ Hsame]; [|done|].
        { destruct Hsettled as (? & ? & ? & ?). by repeat split. }
        by apply Hsame.
Qed.

Lemma C2_one_set_witness :
  exists st st',
    BabylonViewer.perform_all
      [BabylonViewer.Mount None (Resolved [Sample.cube])]
      (BabylonViewer.created "first.glb") = Some st
    /\ Spec.settled st
    /\ BabylonViewer.attached st = [Sample.cube]
    /\ BabylonViewer.perform
         (BabylonViewer.UrlChange "second.glb" None (Resolved [Sample.shifted])) st
       = Some st'
    /\ BabylonViewer.attached st' = [Sample.shifted].
Proof.
  destruct C2_one_set_when_loads_do_not_overlap as [_ HC].
  eexists.
  edestruct (HC "first.glb" [BabylonViewer.Mount None (Resolved [Sample.cube])])
    as (Hsettled & _ & _ & Hurl).
  - repeat constructor. by eexists.
  - reflexivity.
  - destruct (Hurl "second.glb" [Sample.shifted]) as (st' & E & Hattached).
    + repeat constructor. by eexists.
    + reflexivity.
    + discriminate.
    + discriminate.
    + reflexivity.
    + exists st'. split; [reflexivity|]. split; [exact Hsettled|].
      split; [reflexivity|]. by split.
Defined.

(** ** The standalone page: clearing and the import callback *)

Section PageClearing.

Lemma counted_is_model (m : Mesh) : Page.counted m = true -> Page.is_model m = true.
Proof.
  intros H. destruct (counted_shown m H) as (_ & Hground & Hsky).
  unfold Page.is_model. rewrite Hsky. cbn [negb]. rewrite andb_true_r.
  apply bool_decide_eq_true. intros E. rewrite E in Hground. discriminate.
Qed.

Lemma environment_not_counted (m : Mesh) : Spec.environment m -> Page.counted m = false.
Proof.
  intros Henv. destruct (Page.counted m) eqn:E; [|done].
  apply counted_is_model in E. apply environment_kept in Henv. congruence.
Qed.

End PageClearing.

(** X1.  clearModels only removes meshes: what it leaves is a sublist of
    the scene's meshes, every mesh left is an environment mesh (named
    "ground", or with "skybox" in its name), the camera is untouched, and
    clearing a second time changes nothing. *)
Theorem Page_clearModels_leaves_the_environment (st : Page.State) :
  (forall sc, Page.scene st = Some sc ->
     exists sc',
       Page.scene (Page.clearModels st) = Some sc'
       /\ sublist (Page.meshes sc') (Page.meshes sc)
       /\ Forall Spec.environment (Page.meshes sc')
       /\ Page.camera sc' = Page.camera sc)
  /\ Page.clearModels (Page.clearModels st) = Page.clearModels st.
Proof.
  split.
  - intros sc Hsc. rewrite (clearModels_scene st sc Hsc). eexists.
    split; [reflexivity|]. cbn [Page.meshes Page.camera].
    split; [apply clear_loop_sublist|]. split; [|done].
    apply cleared_meshes.
  - destruct (Page.scene st) as [sc|] eqn:Hsc.
    + rewrite (clearModels_scene st sc Hsc).
      erewrite clearModels_scene by reflexivity. cbn [Page.meshes Page.camera Page.modelLoaded].
      rewrite (clear_loop_nothing
                 (fold_left (fun now mesh => if Page.is_model mesh then dispose mesh now
                                             else now)
                            (Page.meshes sc) (Page.meshes sc))); [done|].
      eapply Forall_impl; [apply cleared_meshes|].
      intros m Henv. by apply environment_kept.
    + unfold Page.clearModels. rewrite Hsc. by rewrite Hsc.
Qed.

Lemma Page_clearModels_witness :
  exists sc',
    Page.scene (Page.clearModels Sample.page) = Some sc'
    /\ sublist (Page.meshes sc') (Page.meshes Sample.page_scene)
    /\ Forall Spec.environment (Page.meshes sc')
    /\ Page.camera sc' = Page.camera Sample.page_scene.
Proof.
  apply (proj1 (Page_clearModels_leaves_the_environment Sample.page)).
  reflexivity.
Defined.

(** X2.  Whatever calculateBoundingInfo counts, clearModels disposes: a
    mesh that passes the guard of the framing loop is never named
    "ground" and has no "skybox" in its name.  So no counted mesh of the
    scene is left after clearModels, and framing the meshes that are left
    gives the default result. *)
Theorem Page_counted_meshes_are_cleared (st : Page.State) (sc sc' : Page.Scene) :
  Page.scene st = Some sc ->
  Page.scene (Page.clearModels st) = Some sc' ->
  (forall m, Page.counted m = true -> Page.is_model m = true)
  /\ (forall m, m ∈ Page.meshes sc -> Page.counted m = true -> m ∉ Page.meshes sc')
  /\ Page.calculateBoundingInfo (Page.meshes sc') = Page.fallback.
Proof.
  intros Hsc. rewrite (clearModels_scene st sc Hsc). intros [= <-].
  cbn [Page.meshes].
  pose proof (cleared_meshes (Page.meshes sc)) as Henv.
  rewrite Forall_forall in Henv.
  split; [apply counted_is_model|]. split.
  - intros m _ Hcounted Hleft.
    apply Henv, environment_not_counted in Hleft. congruence.
  - apply nothing_counted. unfold Spec.counted_boxes.
    rewrite filter_none; [done|]. apply Forall_forall. intros m Hm.
    rewrite (environment_not_counted m); [discriminate|]. by apply Henv.
Qed.

Lemma Page_counted_meshes_witness :
  exists sc',
    Page.scene (Page.clearModels Sample.page) = Some sc'
    /\ (Sample.cube ∉ Page.meshes sc')
    /\ Page.calculateBoundingInfo (Page.meshes sc') = Page.fallback.
Proof.
  eexists. split; [reflexivity|].
  edestruct (Page_counted_meshes_are_cleared Sample.page Sample.page_scene)
    as (_ & Hgone & Hdefault); [reflexivity|reflexivity|].
  split; [|exact Hdefault].
  apply Hgone; [|reflexivity].
  apply elem_of_cons; right. apply elem_of_cons; by left.
Defined.

(** ** The standalone page: the framing result *)

Section PageResult.

Lemma abs_nonneg q : exists r, JS.Math_abs (Fin q) = Fin r /\ 0 <= r.
Proof.
  simpl. case_bool_decide as H.
  - eexists. split; [done|]. apply Qclt_le_weak in H.
    by apply Qcopp_le_compat in H.
  - eexists. split; [done|]. by apply Qcnot_lt_le.
Qed.

Lemma half_nonneg q : 0 <= q -> 0 <= q / Qc_of_Z 2.
Proof.
  intros H. unfold Qcdiv.
  rewrite <- (Qcmult_0_l (/ Qc_of_Z 2)).
  apply Qcmult_le_compat_r; [done|]. by_evaluation.
Qed.

End PageResult.

(** X3.  When every box that calculateBoundingInfo counts has finite
    corners, the radius it returns is a number and is not negative,
    whichever way round the corners of a box are: the differences go
    through Math.abs. *)
Theorem Page_radius_is_not_negative (meshes : list Mesh) :
  Forall Spec.finite_box (Spec.counted_boxes meshes) ->
  Spec.le (JS.of_Z 0) (radius (Page.calculateBoundingInfo meshes)).
Proof.
  intros Hfin. destruct (decide (Spec.counted_boxes meshes = [])) as [E|Hne].
  - rewrite (nothing_counted meshes E). by_evaluation.
  - destruct (page_framing meshes Hne Hfin)
      as (lx & hx & ly & hy & lz & hz & _ & _ & _ & ->).
    destruct (abs_nonneg (hx - lx)) as (ax & -> & Hax).
    destruct (abs_nonneg (hy - ly)) as (ay & -> & Hay).
    destruct (abs_nonneg (hz - lz)) as (az & -> & Haz).
    destruct (max3_greatest (Fin ax) (Fin ay) (Fin az)) as (s & -> & [_ Hs]); [done..|].
    rewrite half_Fin. cbn [radius].
    change (0 <= s / Qc_of_Z 2). apply half_nonneg.
    apply Qcle_trans with ax; [done|].
    apply (Hs (Fin ax)). apply elem_of_cons. by left.
Qed.

Lemma Page_radius_witness :
  Spec.le (JS.of_Z 0)
          (radius (Page.calculateBoundingInfo [Sample.cube; Sample.hidden; Sample.turned])).
Proof.
  apply Page_radius_is_not_negative. vm_compute. repeat constructor.
Defined.

(** ** The standalone page: the import callback *)

Section PageImport.

(** Giving meshes a parent changes neither which of them are counted nor
    their boxes. *)
Lemma counted_boxes_reparented (f : Mesh -> Mesh) (meshes : list Mesh) :
  (forall m, f m = m \/ exists p, f m = set_parent p m) ->
  Spec.counted_boxes (map f meshes) = Spec.counted_boxes meshes.
Proof.
  intros Hf. unfold Spec.counted_boxes, Spec.boxes_of.
  induction meshes as [|m meshes IH]; [done|].
  cbn [map]. rewrite !filter_cons.
  assert (Page.counted (f m) = Page.counted m /\ getBoundingInfo (f m) = getBoundingInfo m)
    as [Ec Eb] by (destruct (Hf m) as [->|[p ->]]; done).
  rewrite Ec. destruct (decide (Page.counted m = true)); [|done].
  simpl. rewrite Eb. destruct (getBoundingInfo m); [f_equal|]; exact IH.
Qed.

End PageImport.

(** X4.  The success callback of uploadModel and loadDefaultModel.  The
    imported meshes and the new "root" mesh are added to the scene; every
    imported mesh that had no parent gets the root as its parent and the
    others keep theirs, so none is left without a parent; the model flag is
    set.  The camera looks at the centre that calculateBoundingInfo gives
    for the imported meshes, from 2.5 times its radius, with its limits
    untouched; when no imported mesh is counted that is the origin, from
    12.5. *)
Theorem Page_import_callback (root : nat) (loaded : list Mesh)
    (st : Page.State) (sc : Page.Scene) :
  Page.scene st = Some sc ->
  root ∉ map uniqueId loaded ->
  exists sc' loaded',
    Page.onImported root loaded st = Page.mkState (Some sc') true
    /\ Page.meshes sc'
       = Page.meshes sc ++ loaded'
         ++ [mkMesh root "root" true None (Some (mkBox Vec.Zero Vec.Zero))]
    /\ Forall2 (fun m m' => m' = match parent m with
                                | None => set_parent root m
                                | Some _ => m
                                end) loaded loaded'
    /\ Forall (fun m' => parent m' <> None) loaded'
    /\ target (Page.camera sc') = center (Page.calculateBoundingInfo loaded)
    /\ cam_radius (Page.camera sc')
       = JS.mul (radius (Page.calculateBoundingInfo loaded)) (JS.ratio 5 2)
    /\ lowerRadiusLimit (Page.camera sc') = lowerRadiusLimit (Page.camera sc)
    /\ upperRadiusLimit (Page.camera sc') = upperRadiusLimit (Page.camera sc)
    /\ (Spec.counted_boxes loaded = [] ->
        target (Page.camera sc') = Vec.Zero
        /\ cam_radius (Page.camera sc') = JS.ratio 25 2).
Proof.
  intros Hsc Hroot. unfold Page.onImported. rewrite Hsc.
  set (adopt := fun m : Mesh =>
         if bool_decide (parent m = None) && bool_decide (uniqueId m <> root)
         then set_parent root m else m).
  assert (Page.calculateBoundingInfo (map adopt loaded)
          = Page.calculateBoundingInfo loaded) as Eframe.
  { apply calculateBoundingInfo_boxes, counted_boxes_reparented.
    intros m. unfold adopt. destruct (_ && _); eauto. }
  assert (forall m, m ∈ loaded ->
            adopt m = match parent m with
                      | None => set_parent root m
                      | Some _ => m
                      end) as Hadopt.
  { intros m Hm. unfold adopt.
    rewrite (bool_decide_eq_true_2 (uniqueId m <> root)).
    - rewrite andb_true_r. by destruct (parent m).
    - intros E. apply Hroot. rewrite <- E.
      by apply list_elem_of_In, in_map, list_elem_of_In. }
  exists (Page.mkScene
            (Page.meshes sc ++ map adopt loaded
             ++ [mkMesh root "root" true None (Some (mkBox Vec.Zero Vec.Zero))])
            (mkCamera (center (Page.calculateBoundingInfo loaded))
                      (JS.mul (radius (Page.calculateBoundingInfo loaded)) (JS.ratio 5 2))
                      (lowerRadiusLimit (Page.camera sc))
                      (upperRadiusLimit (Page.camera sc)))),
         (map adopt loaded).
  split; [by rewrite Eframe|]. split; [done|]. split; [|split].
  - apply Forall2_fmap_r, Forall_Forall2_diag, Forall_forall. intros m Hm.
    by apply Hadopt.
  - apply Forall_fmap, Forall_forall. intros m Hm. cbn.
    rewrite (Hadopt m Hm). destruct (parent m) eqn:E; [by rewrite E|done].
  - do 4 (split; [done|]). intros Hnone. cbn [Page.camera target cam_radius].
    rewrite (nothing_counted loaded Hnone). split; [done|]. by_evaluation.
Qed.

Lemma Page_import_callback_witness :
  exists sc' loaded',
    Page.onImported 9 [Sample.cube; Sample.shifted] (Page.clearModels Sample.page)
    = Page.mkState (Some sc') true
    /\ Forall (fun m' => parent m' <> None) loaded'
    /\ map name (Page.meshes sc') = ["ground"; "hdrskybox"; "cube"; "shifted"; "root"]
    /\ target (Page.camera sc') = Sample.halves 1 1 1
    /\ cam_radius (Page.camera sc') = JS.ratio 15 4.
Proof.
  edestruct (Page_import_callback 9 [Sample.cube; Sample.shifted]
               (Page.clearModels Sample.page))
    as (sc' & loaded' & E & Hmeshes & Hadopt & Hparents & Htarget & Hradius & _).
  - reflexivity.
  - by_evaluation.
  - exists sc', loaded'. split; [exact E|]. split; [exact Hparents|].
    split; [|split].
    + rewrite Hmeshes, !map_app.
      apply Forall2_cons_inv_l in Hadopt as (m1 & rest1 & -> & Hadopt & ->).
      apply Forall2_cons_inv_l in Hadopt as (m2 & rest2 & -> & Hadopt & ->).
      apply Forall2_nil_inv_l in Hadopt as ->. reflexivity.
    + rewrite Htarget. by_evaluation.
    + rewrite Hradius. by_evaluation.
Defined.

(** ** The viewer element component: what the handlers leave alone *)

Section ViewerWiring.

Import GlbViewer.

(** The handlers of requests and of viewer events touch neither the
    viewer instance nor the ready flag nor the listeners. *)
Lemma handleFileChange_wiring file st :
  isViewerReady (Stmt.state_of (handleFileChange file st)) = isViewerReady st
  /\ viewerInstance (Stmt.state_of (handleFileChange file st)) = viewerInstance st
  /\ listening (Stmt.state_of (handleFileChange file st)) = listening st.
Proof.
  destruct file as [f|]; [|by repeat split].
  unfold handleFileChange, loadModelIntoViewer, Stmt.call, Stmt.block, Stmt.when,
    Stmt.seq, Stmt.try_catch, call_loadModel, Stmt.on.
  cbn [foldr Stmt.assign].
  destruct (not_ready _); [by repeat split|]. cbn.
  destruct (viewerInstance st) as [[[|] ?]|] eqn:E; cbn; by repeat split.
Qed.

Lemma clearModel_wiring st :
  isViewerReady (Stmt.state_of (clearModel st)) = isViewerReady st
  /\ viewerInstance (Stmt.state_of (clearModel st)) = viewerInstance st
  /\ listening (Stmt.state_of (clearModel st)) = listening st.
Proof.
  unfold clearModel, Stmt.call, Stmt.block, Stmt.when, Stmt.seq, Stmt.try_catch, Stmt.on.
  cbn [foldr Stmt.assign].
  destruct (not_ready _); [by repeat split|]. cbn.
  destruct (viewerInstance st) as [[[|] ?]|] eqn:E; cbn; by repeat split.
Qed.

Lemma dispatch_normal ev st :
  exists st', dispatch ev st = Normal st'
              /\ (isViewerReady st' = isViewerReady st
                  /\ viewerInstance st' = viewerInstance st
                  /\ listening st' = listening st)
              /\ (listening st = true -> isLoading st' = false)
              /\ (listening st = false -> st' = st).
Proof.
  destruct ev as [[source|]|event]; unfold dispatch, Stmt.when;
    destruct (listening st) eqn:E; eexists; (split; [reflexivity|]); by cbn.
Qed.

Lemma dispatch_all events st :
  exists st', Stmt.block (map dispatch events) st = Normal st'
              /\ (isViewerReady st' = isViewerReady st
                  /\ viewerInstance st' = viewerInstance st
                  /\ listening st' = listening st)
              /\ (events = [] -> st' = st)
              /\ (events <> [] -> listening st = true -> isLoading st' = false).
Proof.
  revert st. induction events as [|ev events IH]; intros st.
  - exists st. by repeat split.
  - destruct (dispatch_normal ev st) as (st1 & E1 & (R1 & I1 & L1) & Hclears & _).
    destruct (IH st1) as (st2 & E2 & (R2 & I2 & L2) & Hnil & Hcons).
    exists st2. cbn [map Stmt.block foldr]. unfold Stmt.seq at 1. rewrite E1.
    split; [exact E2|]. split; [repeat split; congruence|]. split; [done|].
    intros _ Hl. destruct events as [|ev' events].
    + rewrite (Hnil eq_refl). by apply Hclears.
    + apply Hcons; [done|congruence].
Qed.

Lemma loadModelIntoViewer_resume_result outcome st :
  loadModelIntoViewer_resume outcome st
  = Normal (match outcome with
            | Resolved _ => st
            | Rejected error =>
                set_isModelLoaded false
                  (set_isLoading false
                     (set_loadError
                        (Some (or_else (message error) "Error initiating model load."))
                        st))
            end).
Proof. by destruct outcome. Qed.

Lemma clearModel_resume_result outcome st :
  clearModel_resume outcome st
  = Normal (match outcome with
            | Resolved _ => set_isLoading false (set_isModelLoaded false st)
            | Rejected error =>
                set_isModelLoaded false
                  (set_isLoading false
                     (set_loadError (Some "Failed to clear model.") st))
            end).
Proof. by destruct outcome. Qed.

Lemma clearModel_ready st viewer :
  not_ready st = false -> viewerInstance st = Some viewer ->
  clearModel st
  = if hasLoadModel viewer
    then Await (set_currentFile None (set_loadError None (set_isLoading true st)))
    else Normal (set_isLoading false
                   (set_currentFile None
                      (set_loadError None (set_isLoading true st)))).
Proof.
  intros Hnot Hv.
  unfold clearModel, Stmt.call, Stmt.block, Stmt.when, Stmt.seq, Stmt.try_catch, Stmt.on.
  cbn [foldr Stmt.assign]. rewrite Hnot. cbn. rewrite Hv. by destruct (hasLoadModel viewer).
Qed.

Lemma ready_not_ready st viewer :
  isViewerReady st = true -> viewerInstance st = Some viewer -> not_ready st = false.
Proof.
  intros Er Hv. unfold not_ready. rewrite Er, Hv. cbn [negb orb].
  apply negb_false_iff, bool_decide_eq_true. by eexists.
Qed.

Lemma step_wired ev w w' :
  step ev w = Some w' -> Spec.wired w -> Spec.wired w'.
Proof.
  unfold Spec.wired, in_flight. destruct w as [st loads clears].
  cbn [component GlbViewer.loads GlbViewer.clears].
  destruct ev as [details|file| |events outcome|events outcome];
    cbn [step component GlbViewer.loads GlbViewer.clears].
  - intros [= <-] [Hready Hflight]. cbn [component GlbViewer.loads GlbViewer.clears].
    unfold onViewerReady, Stmt.call, Stmt.block, Stmt.when, Stmt.seq.
    cbn [foldr]. destruct (viewerElement st); [|done].
    destruct details as [[v|]|]; cbn; split; try done; eauto.
  - unfold fileInput_disabled. destruct (isLoading st); [done|].
    destruct (isViewerReady st) eqn:Er; [|done]. cbn [negb orb].
    intros [= <-] [Hready _]. cbn [component GlbViewer.loads GlbViewer.clears].
    destruct (handleFileChange_wiring file st) as (-> & -> & ->).
    rewrite Er. destruct (Hready eq_refl). by split.
  - unfold clearButton_disabled. destruct (negb (isModelLoaded st)); [done|].
    destruct (isLoading st); [done|].
    destruct (isViewerReady st) eqn:Er; [|done]. cbn [negb orb].
    intros [= <-] [Hready _]. cbn [component GlbViewer.loads GlbViewer.clears].
    destruct (clearModel_wiring st) as (-> & -> & ->).
    rewrite Er. destruct (Hready eq_refl). by split.
  - destruct loads as [|n]; [done|]. intros [= <-] [Hready Hflight].
    cbn [component GlbViewer.loads GlbViewer.clears].
    destruct (dispatch_all events st) as (st1 & -> & (R & I & L) & _).
    rewrite loadModelIntoViewer_resume_result. cbn [Stmt.state_of].
    assert (listening st = true) as Hl by (apply Hflight; lia).
    destruct outcome; cbn; rewrite R, I, L; split; auto.
  - destruct clears as [|n]; [done|]. intros [= <-] [Hready Hflight].
    cbn [component GlbViewer.loads GlbViewer.clears].
    destruct (dispatch_all events st) as (st1 & -> & (R & I & L) & _).
    rewrite clearModel_resume_result. cbn [Stmt.state_of].
    assert (listening st = true) as Hl by (apply Hflight; lia).
    destruct outcome; cbn; rewrite R, I, L; split; auto.
Qed.

Lemma run_wired evs w w' :
  run evs w = Some w' -> Spec.wired w -> Spec.wired w'.
Proof.
  revert w. induction evs as [|ev evs IH]; intros w; simpl.
  - by intros [= <-].
  - destruct (step ev w) as [w1|] eqn:E; [|done]. eauto using step_wired.
Qed.

Lemma initial_wired : Spec.wired initial.
Proof. split; [done|]. by intros []. Qed.

End ViewerWiring.

(** X5.  In every run of the component on the viewer element, a file
    chosen through the file input (which the template enables only when
    the component is ready and not loading) finds the viewer instance in
    place: the not-ready branch of loadModelIntoViewer is never taken.
    The file is recorded as the current file, and when the instance has a
    loadModel function the request is handed to it with the loading flag
    set and the error message cleared. *)
Theorem GlbViewer_chosen_file_reaches_the_viewer
    (evs : list GlbViewer.Event) (w w' : GlbViewer.World) (file : string) :
  GlbViewer.run evs GlbViewer.initial = Some w ->
  GlbViewer.step (GlbViewer.FileChange (Some file)) w = Some w' ->
  exists viewer,
    GlbViewer.viewerInstance (GlbViewer.component w) = Some viewer
    /\ GlbViewer.not_ready (GlbViewer.component w) = false
    /\ GlbViewer.currentFile (GlbViewer.component w') = Some file
    /\ GlbViewer.loadError (GlbViewer.component w')
       <> Some "Viewer not ready. Cannot load model."
    /\ (GlbViewer.hasLoadModel viewer = true ->
        GlbViewer.loads w' = S (GlbViewer.loads w)
        /\ GlbViewer.isLoading (GlbViewer.component w') = true
        /\ GlbViewer.loadError (GlbViewer.component w') = None).
Proof.
  intros Hrun Hstep.
  pose proof (run_wired _ _ _ Hrun initial_wired) as [Hready _].
  destruct w as [st loads clears].
  cbn [GlbViewer.step GlbViewer.component GlbViewer.loads GlbViewer.clears] in *.
  unfold GlbViewer.fileInput_disabled in Hstep.
  destruct (GlbViewer.isLoading st) eqn:El; [done|].
  destruct (GlbViewer.isViewerReady st) eqn:Er; [|done]. cbn [negb orb] in Hstep.
  destruct (Hready eq_refl) as [[viewer Hv] _]. injection Hstep as <-.
  exists viewer. split; [done|].
  assert (GlbViewer.not_ready st = false) as Hnot.
  { unfold GlbViewer.not_ready. rewrite Er, Hv. cbn [negb orb].
    apply negb_false_iff, bool_decide_eq_true. by eexists. }
  split; [done|].
  unfold GlbViewer.handleFileChange, GlbViewer.loadModelIntoViewer, Stmt.call,
    Stmt.block, Stmt.when, Stmt.seq, Stmt.try_catch, GlbViewer.call_loadModel, Stmt.on.
  cbn [foldr Stmt.assign].
  change (GlbViewer.not_ready (GlbViewer.set_currentFile (Some file) st))
    with (GlbViewer.not_ready st).
  rewrite Hnot. cbn. rewrite Hv. destruct viewer as [[|] d]; cbn.
  - by repeat split.
  - repeat split; done.
Qed.

Lemma GlbViewer_chosen_file_witness :
  GlbViewer.viewerInstance (GlbViewer.component Sample.idle_viewer)
  = Some (GlbViewer.mkViewer true true)
  /\ GlbViewer.loads Sample.loading_viewer = 1%nat
  /\ GlbViewer.isLoading (GlbViewer.component Sample.loading_viewer) = true
  /\ GlbViewer.loadError (GlbViewer.component Sample.loading_viewer) = None.
Proof.
  destruct (GlbViewer_chosen_file_reaches_the_viewer
              [GlbViewer.ViewerReady (Some (Some (GlbViewer.mkViewer true true)))]
              Sample.idle_viewer Sample.loading_viewer "model.glb")
    as (viewer & Hv & _ & _ & _ & Hrequest); [reflexivity|reflexivity|].
  split; [reflexivity|]. apply Hrequest. by injection Hv as <-.
Defined.

Section ViewerLoading.

Import GlbViewer.

Lemma step_stuck ev w w' :
  step ev w = Some w' -> Spec.stuck w ->
  Spec.stuck w' /\ exists details, ev = ViewerReady details.
Proof.
  unfold Spec.stuck, in_flight. destruct w as [st loads clears].
  cbn [component GlbViewer.loads GlbViewer.clears].
  intros Hstep [Hnone Hl].
  assert (loads = 0%nat /\ clears = 0%nat) as [-> ->] by lia.
  destruct ev as [details|file| |events outcome|events outcome]; cbn in Hstep.
  - injection Hstep as <-. cbn. rewrite onViewerReady_isLoading. eauto.
  - unfold fileInput_disabled in Hstep. by rewrite Hl in Hstep.
  - unfold clearButton_disabled in Hstep. rewrite Hl in Hstep.
    by destruct (negb (isModelLoaded st)).
  - done.
  - done.
Qed.

Lemma run_stuck evs w w' :
  run evs w = Some w' -> Spec.stuck w ->
  Spec.stuck w' /\ Forall (fun ev => exists details, ev = ViewerReady details) evs.
Proof.
  revert w. induction evs as [|ev evs IH]; intros w; simpl.
  - intros [= <-]. by split.
  - destruct (step ev w) as [w1|] eqn:E; [|done]. intros Hrun Hstuck.
    destruct (step_stuck _ _ _ E Hstuck) as [Hstuck1 Hev].
    destruct (IH _ Hrun Hstuck1). split; [done|]. by constructor.
Qed.

End ViewerLoading.

(** X6.  In every run of the component on the viewer element, when a
    loadModel call resolves the loading flag is cleared exactly if the
    viewer element dispatched at least one modelchange or modelerror event
    for that request: loadModelIntoViewer itself does not clear it.  If no
    event was dispatched the flag stays set with nothing in flight, and
    from then on only viewerready events are handled: the file input and
    the clear button stay disabled. *)
Theorem GlbViewer_loading_ends_with_a_viewer_event
    (evs : list GlbViewer.Event) (w w' : GlbViewer.World)
    (events : list GlbViewer.ViewerEvent) :
  GlbViewer.run evs GlbViewer.initial = Some w ->
  GlbViewer.step (GlbViewer.LoadEnds events (Resolved ())) w = Some w' ->
  (GlbViewer.isLoading (GlbViewer.component w') = true <-> events = [])
  /\ GlbViewer.in_flight w' = 0%nat
  /\ (events = [] ->
      forall later w'',
        GlbViewer.run later w' = Some w'' ->
        Spec.stuck w''
        /\ Forall (fun ev => exists details, ev = GlbViewer.ViewerReady details) later
        /\ (forall file, GlbViewer.step (GlbViewer.FileChange file) w'' = None)
        /\ GlbViewer.step GlbViewer.ClearClick w'' = None).
Proof.
  intros Hrun Hstep.
  pose proof (run_wired _ _ _ Hrun initial_wired) as [_ Hflight].
  assert (Spec.one_request w) as Hone.
  { apply (run_one_request evs GlbViewer.initial); [done|]. by left. }
  destruct w as [st loads clears]. unfold Spec.one_request, GlbViewer.in_flight in *.
  cbn [GlbViewer.step GlbViewer.component GlbViewer.loads GlbViewer.clears] in *.
  destruct loads as [|n]; [done|]. destruct Hone as [?|[Hn Hl]]; [lia|].
  assert (n = 0%nat /\ clears = 0%nat) as [-> ->] by lia.
  assert (GlbViewer.listening st = true) as Hlisten by (apply Hflight; lia).
  destruct (dispatch_all events st) as (st1 & E1 & _ & Hnil & Hcons).
  rewrite E1, loadModelIntoViewer_resume_result in Hstep.
  cbn [Stmt.state_of] in Hstep. injection Hstep as <-.
  cbn [GlbViewer.component GlbViewer.loads GlbViewer.clears].
  assert (GlbViewer.isLoading st1 = true <-> events = []) as Hiff.
  { split.
    - intros Hl1. destruct events as [|ev events]; [done|].
      rewrite Hcons in Hl1; done.
    - intros ->. by rewrite (Hnil eq_refl). }
  split; [done|]. split; [done|].
  intros Hsilent later w'' Hlater.
  assert (Spec.stuck (GlbViewer.mkWorld st1 0 0)) as Hstuck.
  { split; [done|]. by apply Hiff. }
  destruct (run_stuck _ _ _ Hlater Hstuck) as [[Hnone Hl''] Hevs].
  split; [by split|]. split; [done|].
  unfold GlbViewer.step, GlbViewer.fileInput_disabled, GlbViewer.clearButton_disabled.
  rewrite Hl''. split; [done|]. by rewrite orb_true_r.
Qed.

Lemma GlbViewer_loading_witness :
  GlbViewer.isLoading (GlbViewer.component Sample.unanswered_viewer) = true
  /\ GlbViewer.in_flight Sample.unanswered_viewer = 0%nat
  /\ Spec.stuck Sample.unanswered_viewer
  /\ GlbViewer.step (GlbViewer.FileChange (Some "other.glb")) Sample.unanswered_viewer
     = None.
Proof.
  destruct (GlbViewer_loading_ends_with_a_viewer_event
              Sample.first_request Sample.loading_viewer Sample.unanswered_viewer [])
    as (Hiff & Hnone & Hlater); [reflexivity|reflexivity|].
  split; [by apply Hiff|]. split; [exact Hnone|].
  destruct (Hlater eq_refl [] Sample.unanswered_viewer) as (Hstuck & _ & Hfile & _);
    [reflexivity|].
  split; [exact Hstuck|]. apply Hfile.
Defined.

(** X7.  The clear button, from the click to the outcome, in every run of
    the component on the viewer element.  A click the template lets
    through finds the viewer instance.  If the instance has a loadModel
    function, loadModel(null) is requested with the loading flag set, the
    error message and the current file cleared and the model flag still
    set; when that request ends, whatever events the element dispatched
    and whether it resolved or was rejected, the model flag and the
    loading flag are false and nothing is in flight, and after a rejection
    the message is "Failed to clear model.".  If the instance has no such
    function, nothing is requested and the model flag stays set. *)
Theorem GlbViewer_clear_from_click_to_outcome
    (evs : list GlbViewer.Event) (w w1 : GlbViewer.World) :
  GlbViewer.run evs GlbViewer.initial = Some w ->
  GlbViewer.step GlbViewer.ClearClick w = Some w1 ->
  exists viewer,
    GlbViewer.viewerInstance (GlbViewer.component w) = Some viewer
    /\ GlbViewer.currentFile (GlbViewer.component w1) = None
    /\ GlbViewer.loadError (GlbViewer.component w1) = None
    /\ GlbViewer.isModelLoaded (GlbViewer.component w1) = true
    /\ (GlbViewer.hasLoadModel viewer = false ->
        GlbViewer.in_flight w1 = 0%nat
        /\ GlbViewer.isLoading (GlbViewer.component w1) = false)
    /\ (GlbViewer.hasLoadModel viewer = true ->
        GlbViewer.clears w1 = 1%nat
        /\ GlbViewer.isLoading (GlbViewer.component w1) = true
        /\ forall events outcome, exists w2,
             GlbViewer.step (GlbViewer.ClearEnds events outcome) w1 = Some w2
             /\ GlbViewer.in_flight w2 = 0%nat
             /\ GlbViewer.isModelLoaded (GlbViewer.component w2) = false
             /\ GlbViewer.isLoading (GlbViewer.component w2) = false
             /\ (forall e, outcome = Rejected e ->
                   GlbViewer.loadError (GlbViewer.component w2)
                   = Some "Failed to clear model.")).
Proof.
  intros Hrun Hstep.
  pose proof (run_wired _ _ _ Hrun initial_wired) as [Hready _].
  assert (Spec.one_request w) as Hone.
  { apply (run_one_request evs GlbViewer.initial); [done|]. by left. }
  destruct w as [st loads clears]. unfold Spec.one_request, GlbViewer.in_flight in *.
  cbn [GlbViewer.step GlbViewer.component GlbViewer.loads GlbViewer.clears] in *.
  unfold GlbViewer.clearButton_disabled in Hstep.
  destruct (GlbViewer.isModelLoaded st) eqn:Em; [|done].
  destruct (GlbViewer.isLoading st) eqn:El; [done|].
  destruct (GlbViewer.isViewerReady st) eqn:Er; [|done]. cbn [negb orb] in Hstep.
  destruct Hone as [Hnone|[_ ?]]; [|done].
  assert (loads = 0%nat /\ clears = 0%nat) as [-> ->] by lia.
  destruct (Hready eq_refl) as [[viewer Hv] _]. injection Hstep as <-.
  exists viewer. split; [done|].
  rewrite (clearModel_ready st viewer (ready_not_ready st viewer Er Hv) Hv).
  destruct viewer as [[|] d]; cbn [GlbViewer.hasLoadModel Stmt.state_of Stmt.suspended
    GlbViewer.component GlbViewer.loads GlbViewer.clears].
  - do 3 (split; [done|]). split; [done|]. intros _. do 2 (split; [done|]).
    intros events outcome.
    cbn [GlbViewer.step GlbViewer.component GlbViewer.loads GlbViewer.clears].
    match goal with
    | |- context [Stmt.block (map GlbViewer.dispatch events) ?s] =>
        destruct (dispatch_all events s) as (st1 & E1 & _)
    end.
    rewrite E1, clearModel_resume_result. eexists. split; [reflexivity|].
    destruct outcome as [[]|e]; cbn; by repeat split.
  - do 3 (split; [done|]). split; [done|]. done.
Qed.

Lemma GlbViewer_clear_witness :
  GlbViewer.isLoading (GlbViewer.component Sample.clearing_viewer) = true
  /\ exists w2,
       GlbViewer.step (GlbViewer.ClearEnds [] (Rejected (mkError "busy")))
                      Sample.clearing_viewer = Some w2
       /\ GlbViewer.isModelLoaded (GlbViewer.component w2) = false
       /\ GlbViewer.loadError (GlbViewer.component w2) = Some "Failed to clear model.".
Proof.
  destruct (GlbViewer_clear_from_click_to_outcome
              (Sample.first_request
               ++ [GlbViewer.LoadEnds [GlbViewer.ModelChange (Some "model.glb")]
                                      (Resolved ())])
              Sample.loaded_viewer Sample.clearing_viewer)
    as (viewer & Hv & _ & _ & _ & _ & Hrequest); [reflexivity|reflexivity|].
  injection Hv as <-.
  destruct (Hrequest eq_refl) as (_ & Hloading & Hends).
  destruct (Hends [] (Rejected (mkError "busy"))) as (w2 & E & _ & Hmodel & _ & Herr).
  split; [exact Hloading|]. exists w2. split; [exact E|]. split; [exact Hmodel|].
  by apply (Herr (mkError "busy")).
Defined.

(** ** The viewer element component: mounting without the element *)

Section ViewerWithoutElement.

Import GlbViewer.

Lemma step_without_element ev w w' :
  step ev w = Some w' ->
  viewerElement (component w) = false ->
  isViewerReady (component w) = false ->
  in_flight w = 0%nat ->
  w' = w /\ exists details, ev = ViewerReady details.
Proof.
  destruct w as [st loads clears]. unfold in_flight.
  cbn [component GlbViewer.loads GlbViewer.clears].
  intros Hstep Hel Hready Hnone.
  assert (loads = 0%nat /\ clears = 0%nat) as [-> ->] by lia.
  destruct ev as [details|file| |events outcome|events outcome]; cbn in Hstep.
  - injection Hstep as <-. split; [|by eexists].
    unfold onViewerReady, Stmt.call, Stmt.block, Stmt.when, Stmt.seq.
    cbn [foldr]. by rewrite Hel.
  - unfold fileInput_disabled in Hstep. rewrite Hready in Hstep.
    by rewrite orb_true_r in Hstep.
  - unfold clearButton_disabled in Hstep. rewrite Hready in Hstep.
    by rewrite orb_true_r in Hstep.
  - done.
  - done.
Qed.

Lemma run_without_element evs w w' :
  run evs w = Some w' ->
  viewerElement (component w) = false ->
  isViewerReady (component w) = false ->
  in_flight w = 0%nat ->
  w' = w /\ Forall (fun ev => exists details, ev = ViewerReady details) evs.
Proof.
  intros Hrun Hel Hready Hnone. revert Hrun.
  induction evs as [|ev evs IH]; simpl.
  - intros [= <-]. by split.
  - destruct (step ev w) as [w1|] eqn:E; [|done].
    destruct (step_without_element _ _ _ E Hel Hready Hnone) as [-> Hev].
    intros Hrun. destruct (IH Hrun) as [-> Hevs]. split; [done|]. by constructor.
Qed.

End ViewerWithoutElement.

(** X8.  onMounted of the component on the viewer element, with the
    element in place, leaves the freshly mounted state.  When the ref to
    the element is not set, it shows "Viewer element could not be found in
    DOM." and the component never becomes ready: in every run its state
    stays exactly that, viewerready events change nothing, and every file
    and clear request is refused by the disabled controls. *)
Theorem GlbViewer_without_element_never_ready
    (evs : list GlbViewer.Event) (w : GlbViewer.World) :
  GlbViewer.run evs
    (GlbViewer.mkWorld (Stmt.state_of (GlbViewer.onMounted (GlbViewer.created false))) 0 0)
  = Some w ->
  GlbViewer.onMounted (GlbViewer.created true) = Normal GlbViewer.mounted
  /\ w = GlbViewer.mkWorld
           (GlbViewer.mkState false None None false false false
              (Some "Viewer element could not be found in DOM.") false) 0 0
  /\ Forall (fun ev => exists details, ev = GlbViewer.ViewerReady details) evs
  /\ (forall file, GlbViewer.step (GlbViewer.FileChange file) w = None)
  /\ GlbViewer.step GlbViewer.ClearClick w = None.
Proof.
  intros Hrun. split; [reflexivity|].
  destruct (run_without_element _ _ _ Hrun) as [-> Hevs]; [reflexivity..|].
  by repeat split.
Qed.

Lemma GlbViewer_without_element_witness :
  GlbViewer.step (GlbViewer.FileChange (Some "model.glb"))
    (GlbViewer.mkWorld
       (GlbViewer.mkState false None None false false false
          (Some "Viewer element could not be found in DOM.") false) 0 0)
  = None.
Proof.
  destruct (GlbViewer_without_element_never_ready
              [GlbViewer.ViewerReady (Some (Some (GlbViewer.mkViewer true true)))]
              (GlbViewer.mkWorld
                 (GlbViewer.mkState false None None false false false
                    (Some "Viewer element could not be found in DOM.") false) 0 0))
    as (_ & _ & _ & Hfile & _); [reflexivity|].
  apply Hfile.
Defined.

(** ** The modelUrl component: what a load reports *)

Section ViewerReports.

Import BabylonViewer.

(** The continuation of a load, whatever the import gives: the loading
    flag is cleared and exactly one event is emitted, model-loaded with the
    model flag set or model-error with the message that is shown. *)
Lemma resume_emits (source : string) (outcome : Settled (list Mesh)) (st : State) :
  exists st',
    loadModel_resume source outcome st = Normal st'
    /\ reader_onload_resume source outcome st = Normal st'
    /\ isLoading st' = false
    /\ engine st' = engine st
    /\ ((emitted st' = emitted st ++ [ModelLoaded source]
         /\ hasModel st' = true /\ errorLoading st' = errorLoading st)
        \/ (exists text,
              emitted st' = emitted st ++ [ModelErrored text]
              /\ errorLoading st' = Some text /\ text <> ""
              /\ hasModel st' = hasModel st)).
Proof.
  unfold loadModel_resume, reader_onload_resume.
  unfold Stmt.call, Stmt.try_finally, Stmt.try_catch, Stmt.block, Stmt.seq, frameModel.
  cbn [foldr Stmt.assign Stmt.skip].
  assert (forall a, or_else a "Unknown error occurred." <> "") as Hne
    by (intros a; by apply or_else_nonempty).
  destruct st as [canvas url loading err has en sc cam listener log].
  destruct outcome as [loaded|e].
  - destruct (measure loaded) as [e|[f|]] eqn:E; destruct sc as [sc|], cam as [cam|];
      cbn; eexists; (do 4 (split; [reflexivity|]));
      first [ left; by repeat split
            | right; eexists; repeat split; try done; apply Hne ].
  - eexists. do 4 (split; [reflexivity|]). right. eexists. by repeat split.
Qed.

Lemma initializeBabylon_resume_result (url : string) (outcome : Settled (list Mesh))
    (st st' : State) :
  loadModel_resume url outcome st = Normal st' ->
  initializeBabylon_resume url outcome st = Normal (set_isLoading false st').
Proof.
  intros E. unfold initializeBabylon_resume, Stmt.call, Stmt.try_finally, Stmt.try_catch.
  by rewrite E.
Qed.

(** How initializeBabylon ends when it does not reach the import. *)
Lemma initializeBabylon_stops (boot : option Error) (st : State) :
  babylonCanvas st = true ->
  boot <> None \/ modelUrl st = "" \/ String.prefix "blob:" (modelUrl st) = true ->
  exists st',
    initializeBabylon boot st = Normal st'
    /\ isLoading st' = false /\ hasModel st' = false
    /\ engine st' = match boot with
                    | Some _ => None
                    | None => Some (mkEngine true)
                    end
    /\ scene st' = match boot, engine st with
                   | Some _, Some _ => None
                   | Some _, None => scene st
                   | None, _ => Some (mkScene [])
                   end
    /\ match boot with
       | Some e =>
           errorLoading st' = Some (or_else (message e) "Unknown error occurred.")
           /\ emitted st'
              = emitted st ++ [ModelErrored (or_else (message e) "Unknown error occurred.")]
       | None =>
           emitted st' = emitted st
           /\ errorLoading st'
              = if bool_decide (modelUrl st = "") then None
                else Some "Please use the Add Model button to load models."
       end.
Proof.
  intros Hcanvas Hwhy.
  unfold initializeBabylon, Stmt.call, Stmt.block, Stmt.when, Stmt.seq,
    Stmt.try_finally, Stmt.try_catch.
  cbn [foldr]. rewrite Hcanvas. cbn [negb]. rewrite disposeBabylon_result.
  destruct boot as [e|].
  { destruct st as [canvas url loading err has [en|] sc cam listener log]; cbn;
      eexists; by repeat split. }
  destruct Hwhy as [?|[Eurl|Eblob]]; [done| |].
  - destruct st as [canvas url loading err has [en|] sc cam listener log];
      cbn in *; subst; eexists; by repeat split.
  - destruct (decide (modelUrl st = "")) as [Eurl|Eurl].
    { destruct st as [canvas url loading err has [en|] sc cam listener log];
        cbn in *; subst; eexists; by repeat split. }
    destruct st as [canvas url loading err has [en|] sc cam listener log];
      cbn -[loadModel bool_decide String.prefix] in *.
    all: rewrite bool_decide_eq_true_2 by done.
    all: rewrite loadModel_cases by done.
    all: rewrite Eblob; cbn -[bool_decide]; eexists.
    all: rewrite bool_decide_eq_false_2 by done; by repeat split.
Qed.

(** initializeBabylon with its import: one report at most. *)
Lemma initialize_reports (boot : option Error) (outcome : Settled (list Mesh))
    (st : State) :
  let st' := then_resume (initializeBabylon boot st)
               (initializeBabylon_resume (modelUrl st) outcome) in
  emitted st' = emitted st
  \/ (emitted st' = emitted st ++ [ModelLoaded (modelUrl st)]
      /\ hasModel st' = true /\ errorLoading st' = None /\ isLoading st' = false)
  \/ (exists text,
        emitted st' = emitted st ++ [ModelErrored text]
        /\ errorLoading st' = Some text /\ text <> ""
        /\ hasModel st' = false /\ isLoading st' = false).
Proof.
  intros st'. subst st'.
  destruct (babylonCanvas st) eqn:Hcanvas.
  2:{ left. unfold initializeBabylon, Stmt.call, Stmt.block, Stmt.when, Stmt.seq.
      cbn [foldr]. by rewrite Hcanvas. }
  destruct boot as [e|].
  { destruct (initializeBabylon_stops (Some e) st Hcanvas)
      as (st1 & -> & Hl & Hhas & _ & _ & Herr & Hlog); [by left|].
    right; right. eexists. cbn. repeat split; try done. by apply or_else_nonempty. }
  destruct (decide (modelUrl st = "")) as [Eurl|Eurl].
  { destruct (initializeBabylon_stops None st Hcanvas)
      as (st1 & -> & _ & _ & _ & _ & Hlog & _); auto. }
  destruct (String.prefix "blob:" (modelUrl st)) eqn:Eblob.
  { destruct (initializeBabylon_stops None st Hcanvas)
      as (st1 & -> & _ & _ & _ & _ & Hlog & _); auto. }
  rewrite initializeBabylon_begins by done. unfold then_resume.
  match goal with
  | |- context [initializeBabylon_resume ?u ?o ?s] =>
      destruct (resume_emits u o s) as (st1 & E & _ & Hl & _ & Hcases);
      rewrite (initializeBabylon_resume_result u o s st1 E)
  end.
  cbn [Stmt.state_of]. cbn in Hcases.
  destruct Hcases as [(Hlog & Hhas & Herr)|(text & Hlog & Herr & Hne & Hhas)].
  - right; left. by repeat split.
  - right; right. exists text. by repeat split.
Qed.

End ViewerReports.

(** X9.  In the modelUrl component a load, taken from its request to its
    outcome, emits at most one event.  If it emits model-loaded, the event
    carries the source of the load, the model flag is set and no error
    message is shown; if it emits model-error, the event carries the very
    message that is shown, which is not empty, and the model flag is
    false.  Either way the loading flag is cleared.  Never are both
    events emitted for one load. *)
Theorem BabylonViewer_one_report_per_load
    (l : BabylonViewer.Load) (st st' : BabylonViewer.State) :
  BabylonViewer.perform l st = Some st' ->
  BabylonViewer.emitted st' = BabylonViewer.emitted st
  \/ (BabylonViewer.emitted st'
      = BabylonViewer.emitted st ++ [BabylonViewer.ModelLoaded (Spec.source_of l st)]
      /\ BabylonViewer.hasModel st' = true
      /\ BabylonViewer.errorLoading st' = None
      /\ BabylonViewer.isLoading st' = false)
  \/ (exists text,
        BabylonViewer.emitted st'
        = BabylonViewer.emitted st ++ [BabylonViewer.ModelErrored text]
        /\ BabylonViewer.errorLoading st' = Some text /\ text <> ""
        /\ BabylonViewer.hasModel st' = false
        /\ BabylonViewer.isLoading st' = false).
Proof.
  destruct l as [boot outcome|url boot outcome|file read outcome];
    cbn [BabylonViewer.perform Spec.source_of].
  - intros [= <-]. apply initialize_reports.
  - destruct (_ && _ && _).
    + intros [= <-].
      apply (initialize_reports boot outcome (BabylonViewer.set_modelUrl url st)).
    + intros [= <-]. by left.
  - destruct (BabylonViewer.addModel_shown st) eqn:Hgate; [|done].
    unfold BabylonViewer.addModel_shown in Hgate.
    apply andb_true_iff in Hgate as [Hhas%negb_true_iff _].
    destruct (decide (BabylonViewer.scene st = None)) as [Hsc|Hsc].
    { assert (BabylonViewer.handleFileSelected (Some file) st = Normal st) as ->.
      { unfold BabylonViewer.handleFileSelected, Stmt.call, Stmt.block, Stmt.when, Stmt.seq.
        cbn [foldr]. rewrite (bool_decide_eq_true_2 (BabylonViewer.scene st = None)) by done.
        by rewrite orb_true_r. }
      intros [= <-]. by left. }
    rewrite handleFileSelected_begins by done.
    destruct read as [[content|]|]; [|intros [= <-]; by left..].
    rewrite reader_onload_begins. unfold BabylonViewer.then_resume.
    match goal with
    | |- context [BabylonViewer.reader_onload_resume ?f ?o ?s] =>
        destruct (resume_emits f o s) as (st1 & _ & -> & Hl & _ & Hcases)
    end.
    intros [= <-]. cbn in Hcases.
    destruct Hcases as [(Hlog & Hhas1 & Herr)|(text & Hlog & Herr & Hne & Hhas1)].
    + right; left. by repeat split.
    + right; right. exists text. repeat split; try done. congruence.
Qed.

Lemma BabylonViewer_one_report_witness :
  exists st',
    BabylonViewer.perform (BabylonViewer.Mount None (Resolved [Sample.cube]))
                          (BabylonViewer.created "model.glb") = Some st'
    /\ BabylonViewer.emitted st' = [BabylonViewer.ModelLoaded "model.glb"].
Proof.
  eexists. split; [reflexivity|].
  edestruct (BabylonViewer_one_report_per_load
               (BabylonViewer.Mount None (Resolved [Sample.cube]))
               (BabylonViewer.created "model.glb"))
    as [Hnone|[(Hloaded & _)|(text & Herrored & _)]]; [reflexivity| | |].
  - discriminate Hnone.
  - exact Hloaded.
  - discriminate Herrored.
Defined.

(** ** The modelUrl component: the camera after a load *)

Section ViewerCamera.

Import BabylonViewer.

Lemma largest_axis_nonneg (boxes : list BoundingBox) (e : Vector3) (s : Qc) :
  boxes <> [] -> Forall Spec.ordered_box boxes ->
  Spec.extent_of_union boxes e -> Spec.largest_axis e s -> 0 <= s.
Proof.
  intros Hne Hord Hext [_ Hs]. unfold Spec.extent_of_union in Hext.
  rewrite on_axes in Hext. destruct Hext as ((lo & hi & Hsp & Ex) & _).
  assert (lo <= hi) as Hle.
  { apply (span_in_order x boxes lo hi); try done. apply elem_of_cons. by left. }
  assert (Spec.le (Fin (hi - lo)) (Fin s)) as H.
  { rewrite <- Ex. apply Hs. apply elem_of_cons. by left. }
  apply Qcle_trans with (hi - lo); [|exact H].
  by apply (Qcle_minus_iff lo hi).
Qed.

End ViewerCamera.

(** X10.  When an import resolves with at least one mesh, all with finite
    boxes whose corners are in order, and the camera exists, the framing
    block of loadModel and handleFileSelected leaves the camera looking at
    the midpoint of the union of the boxes from one and a half times the
    largest axis s of its extent, and replaces the limits by s / 10 and
    7.5 s: the distance lies between the limits it sets. *)
Theorem BabylonViewer_camera_within_its_limits
    (source : string) (loaded : list Mesh) (st : BabylonViewer.State) :
  loaded <> [] -> Forall Spec.has_box loaded ->
  Forall Spec.finite_box (Spec.boxes_of loaded) ->
  Forall Spec.ordered_box (Spec.boxes_of loaded) ->
  BabylonViewer.camera st <> None ->
  exists st' cam e s,
    BabylonViewer.loadModel_resume source (Resolved loaded) st = Normal st'
    /\ BabylonViewer.reader_onload_resume source (Resolved loaded) st = Normal st'
    /\ BabylonViewer.camera st' = Some cam
    /\ Spec.midpoint_of_union (Spec.boxes_of loaded) (target cam)
    /\ Spec.extent_of_union (Spec.boxes_of loaded) e
    /\ Spec.largest_axis e s
    /\ cam_radius cam = Fin (s * Q2Qc (3 # 2))
    /\ lowerRadiusLimit cam = Fin (s * Q2Qc (1 # 10))
    /\ upperRadiusLimit cam = Fin (s * Q2Qc (3 # 2) * Qc_of_Z 5)
    /\ Spec.le (lowerRadiusLimit cam) (cam_radius cam)
    /\ Spec.le (cam_radius cam) (upperRadiusLimit cam).
Proof.
  intros Hne Hall Hfin Hord Hcam.
  destruct (measure_spec loaded Hne Hall Hfin)
    as (f & s & E & Hmid & Hext & Hlargest & Esize & Eradius).
  assert (0 <= s) as Hs.
  { apply (largest_axis_nonneg (Spec.boxes_of loaded) (BabylonViewer.fit_extents f));
      try done.
    destruct loaded as [|m rest]; [done|].
    apply Forall_cons in Hall as [[box Hbox] _]. by rewrite (boxes_of_cons _ _ _ Hbox). }
  unfold BabylonViewer.loadModel_resume, BabylonViewer.reader_onload_resume.
  unfold Stmt.call, Stmt.try_finally, Stmt.try_catch, Stmt.block, Stmt.seq,
    BabylonViewer.frameModel.
  cbn [foldr Stmt.assign Stmt.skip]. rewrite E. unfold Stmt.on.
  destruct st as [canvas url loading err has en sc [cam|] listener log]; [|done].
  destruct sc as [sc|]; cbn; rewrite Esize, Eradius.
  all: eexists _, _, (BabylonViewer.fit_extents f), s.
  all: do 3 (split; [reflexivity|]); cbn.
  all: do 6 (split; [done|]).
  all: split.
  all: try (apply (Qcmult_le_mono_nonneg_l _ _ s Hs); by_evaluation).
  all: rewrite <- (Qcmult_1_r (s * Q2Qc (3 # 2))) at 1.
  all: apply Qcmult_le_mono_nonneg_l;
    [apply Qcmult_nonneg_nonneg; [done|by_evaluation]|by_evaluation].
Qed.

Lemma BabylonViewer_camera_witness :
  exists st' cam,
    BabylonViewer.perform
      (BabylonViewer.Mount None (Resolved [Sample.cube; Sample.shifted]))
      (BabylonViewer.created "model.glb") = Some st'
    /\ BabylonViewer.camera st' = Some cam
    /\ target cam = Sample.halves 1 1 1
    /\ cam_radius cam = JS.ratio 9 2
    /\ Spec.le (lowerRadiusLimit cam) (cam_radius cam)
    /\ Spec.le (cam_radius cam) (upperRadiusLimit cam).
Proof.
  edestruct (BabylonViewer_camera_within_its_limits "model.glb"
               [Sample.cube; Sample.shifted]
               (BabylonViewer.mkState true "model.glb" true None false
                  (Some (BabylonViewer.mkEngine true)) (Some (BabylonViewer.mkScene []))
                  (Some (mkCamera Vec.Zero (JS.of_Z 10) (JS.of_Z 2) (JS.of_Z 50)))
                  true []))
    as (st' & cam & e & s & E & _ & Hcam & _ & _ & _ & _ & _ & _ & Hlo & Hhi).
  - discriminate.
  - repeat constructor; by eexists.
  - repeat constructor.
  - repeat constructor; by_evaluation.
  - discriminate.
  - injection E as <-. injection Hcam as <-.
    eexists _, _. split; [reflexivity|]. split; [reflexivity|].
    split; [by_evaluation|]. split; [by_evaluation|]. split; [exact Hlo|exact Hhi].
Defined.

(** ** The modelUrl component: loads that end without geometry *)

Section ViewerEdges.

Import BabylonViewer.

Lemma handleFileSelected_without_scene (file : option string) (st : State) :
  scene st = None -> handleFileSelected file st = Normal st.
Proof.
  intros Hsc. unfold handleFileSelected, Stmt.call, Stmt.block, Stmt.when, Stmt.seq.
  cbn [foldr]. rewrite (bool_decide_eq_true_2 (scene st = None)) by done.
  by rewrite orb_true_r.
Qed.

Lemma shown_flags (st : State) :
  addModel_shown st = true <-> hasModel st = false /\ isLoading st = false.
Proof.
  unfold addModel_shown. rewrite andb_true_iff, !negb_true_iff. tauto.
Qed.

End ViewerEdges.

(** X11.  In the modelUrl component an import that resolves with no mesh
    at all counts as a loaded model: the framing block is skipped, the
    camera stays as it was, the model flag is set and model-loaded is
    emitted, although nothing is attached.  The Add Model overlay, which
    holds the file input, is then no longer rendered, so no further file
    can be chosen. *)
Theorem BabylonViewer_empty_import_counts_as_loaded
    (st : BabylonViewer.State) (file content : string) :
  Spec.settled st ->
  BabylonViewer.addModel_shown st = true ->
  BabylonViewer.scene st <> None ->
  exists st',
    BabylonViewer.perform
      (BabylonViewer.FileChosen file (Some (Some content)) (Resolved [])) st = Some st'
    /\ BabylonViewer.hasModel st' = true
    /\ BabylonViewer.errorLoading st' = None
    /\ BabylonViewer.isLoading st' = false
    /\ BabylonViewer.emitted st'
       = BabylonViewer.emitted st ++ [BabylonViewer.ModelLoaded file]
    /\ BabylonViewer.attached st' = []
    /\ BabylonViewer.camera st' = BabylonViewer.camera st
    /\ BabylonViewer.addModel_shown st' = false
    /\ (forall file' read outcome,
          BabylonViewer.perform (BabylonViewer.FileChosen file' read outcome) st' = None).
Proof.
  intros (_ & Hnone & _) Hgate Hsc.
  pose proof Hgate as [Hhas _]%shown_flags. specialize (Hnone Hhas).
  unfold BabylonViewer.perform. rewrite Hgate, handleFileSelected_begins by done.
  rewrite reader_onload_begins.
  destruct st as [canvas url loading err has en [sc|] cam listener log]; [|done].
  cbn in Hnone. eexists. split; [reflexivity|]. cbn. rewrite app_nil_r.
  by repeat split.
Qed.

Lemma BabylonViewer_empty_import_witness :
  exists st st',
    BabylonViewer.perform (BabylonViewer.Mount None (Resolved []))
                          (BabylonViewer.created "") = Some st
    /\ BabylonViewer.perform
         (BabylonViewer.FileChosen "empty.glb" (Some (Some "payload")) (Resolved [])) st
       = Some st'
    /\ BabylonViewer.hasModel st' = true
    /\ BabylonViewer.attached st' = []
    /\ BabylonViewer.perform
         (BabylonViewer.FileChosen "model.glb" (Some (Some "payload"))
                                   (Resolved [Sample.cube])) st' = None.
Proof.
  eexists.
  edestruct (BabylonViewer_empty_import_counts_as_loaded
               (BabylonViewer.mkState true "" false None false
                  (Some (BabylonViewer.mkEngine true)) (Some (BabylonViewer.mkScene []))
                  (Some (mkCamera Vec.Zero (JS.of_Z 10) (JS.of_Z 2) (JS.of_Z 50)))
                  true [])
               "empty.glb" "payload")
    as (st' & E & Hhas & _ & _ & _ & Hnone & _ & _ & Hgate).
  - by repeat split.
  - reflexivity.
  - discriminate.
  - exists st'. split; [reflexivity|]. split; [exact E|]. split; [exact Hhas|].
    split; [exact Hnone|]. apply Hgate.
Defined.

(** X12.  Three failures of the modelUrl component show a message but
    tell the parent nothing.  A model URL that starts with "blob:" is
    refused before any import is requested; a file that cannot be read,
    or whose content is empty, ends the load in the reader's callbacks.
    In each case the message is set, no event is emitted, the loading
    flag is cleared and the model flag is false, so the Add Model overlay
    is offered again. *)
Theorem BabylonViewer_failures_without_an_event (st : BabylonViewer.State) :
  (BabylonViewer.babylonCanvas st = true ->
   String.prefix "blob:" (BabylonViewer.modelUrl st) = true ->
   exists st',
     (forall outcome,
        BabylonViewer.perform (BabylonViewer.Mount None outcome) st = Some st')
     /\ BabylonViewer.errorLoading st'
        = Some "Please use the Add Model button to load models."
     /\ BabylonViewer.emitted st' = BabylonViewer.emitted st
     /\ BabylonViewer.attached st' = []
     /\ BabylonViewer.addModel_shown st' = true)
  /\ (BabylonViewer.addModel_shown st = true ->
      BabylonViewer.scene st <> None ->
      forall file, exists st1 st2,
        (forall outcome,
           BabylonViewer.perform (BabylonViewer.FileChosen file None outcome) st
           = Some st1)
        /\ BabylonViewer.errorLoading st1 = Some "Error: Failed to read the file"
        /\ BabylonViewer.emitted st1 = BabylonViewer.emitted st
        /\ BabylonViewer.addModel_shown st1 = true
        /\ (forall outcome,
              BabylonViewer.perform (BabylonViewer.FileChosen file (Some None) outcome) st
              = Some st2)
        /\ BabylonViewer.errorLoading st2 = Some "Error: Could not read file"
        /\ BabylonViewer.emitted st2 = BabylonViewer.emitted st
        /\ BabylonViewer.addModel_shown st2 = true).
Proof.
  split.
  - intros Hcanvas Hblob.
    assert (BabylonViewer.modelUrl st <> "") as Hurl.
    { intros E. rewrite E in Hblob. discriminate. }
    destruct (initializeBabylon_stops None st Hcanvas)
      as (st' & E & Hl & Hhas & _ & Hsc & Hlog & Herr); [auto|].
    exists st'. split; [|split; [|split; [done|split]]].
    + intros outcome. unfold BabylonViewer.perform. by rewrite E.
    + by rewrite Herr, bool_decide_eq_false_2.
    + unfold BabylonViewer.attached. by rewrite Hsc.
    + by apply shown_flags.
  - intros Hgate Hsc file.
    pose proof Hgate as [Hhas _]%shown_flags.
    unfold BabylonViewer.perform. rewrite Hgate, handleFileSelected_begins by done.
    eexists _, _. split; [reflexivity|]. cbn.
    split; [done|]. split; [done|]. split; [by apply shown_flags|].
    split; [reflexivity|]. cbn. split; [done|]. split; [done|]. by apply shown_flags.
Qed.

Lemma BabylonViewer_failures_witness :
  exists st',
    BabylonViewer.perform (BabylonViewer.Mount None (Resolved [Sample.cube]))
                          (BabylonViewer.created "blob:1234") = Some st'
    /\ BabylonViewer.errorLoading st'
       = Some "Please use the Add Model button to load models."
    /\ BabylonViewer.emitted st' = []
    /\ BabylonViewer.attached st' = [].
Proof.
  destruct (BabylonViewer_failures_without_an_event (BabylonViewer.created "blob:1234"))
    as [Hblob _].
  destruct Hblob as (st' & E & Herr & Hlog & Hnone & _); [reflexivity|reflexivity|].
  exists st'. split; [apply E|]. split; [exact Herr|]. split; [exact Hlog|exact Hnone].
Defined.

(** X13.  When the engine cannot be created, initializeBabylon reports
    the failure (message and model-error) and leaves no engine and no
    scene.  The Add Model overlay is then rendered, but a file chosen
    through it is ignored: handleFileSelected returns at once because
    there is no scene, whatever the file. *)
Theorem BabylonViewer_failed_start_ignores_files
    (st : BabylonViewer.State) (e : Error) :
  Spec.settled st ->
  BabylonViewer.babylonCanvas st = true ->
  exists st',
    (forall outcome,
       BabylonViewer.perform (BabylonViewer.Mount (Some e) outcome) st = Some st')
    /\ BabylonViewer.engine st' = None
    /\ BabylonViewer.scene st' = None
    /\ BabylonViewer.errorLoading st'
       = Some (or_else (message e) "Unknown error occurred.")
    /\ BabylonViewer.emitted st'
       = BabylonViewer.emitted st
         ++ [BabylonViewer.ModelErrored (or_else (message e) "Unknown error occurred.")]
    /\ BabylonViewer.addModel_shown st' = true
    /\ (forall file read outcome,
          BabylonViewer.perform (BabylonViewer.FileChosen file read outcome) st'
          = Some st').
Proof.
  intros (_ & _ & Heng & _) Hcanvas.
  destruct (initializeBabylon_stops (Some e) st Hcanvas)
    as (st' & E & Hl & Hhas & Hen & Hsc & Herr & Hlog); [by left|].
  assert (BabylonViewer.scene st' = None) as Hnone.
  { rewrite Hsc. destruct (BabylonViewer.engine st); [done|]. by apply Heng. }
  exists st'. split; [|do 4 (split; [done|]); split].
  - intros outcome. unfold BabylonViewer.perform. by rewrite E.
  - by apply shown_flags.
  - intros file read outcome. unfold BabylonViewer.perform.
    rewrite (proj2 (shown_flags st')) by done.
    by rewrite handleFileSelected_without_scene.
Qed.

Lemma BabylonViewer_failed_start_witness :
  exists st',
    BabylonViewer.perform
      (BabylonViewer.Mount (Some (mkError "WebGL not supported")) (Resolved []))
      (BabylonViewer.created "model.glb") = Some st'
    /\ BabylonViewer.errorLoading st' = Some "WebGL not supported"
    /\ BabylonViewer.perform
         (BabylonViewer.FileChosen "model.glb" (Some (Some "payload"))
                                   (Resolved [Sample.cube])) st' = Some st'.
Proof.
  destruct (BabylonViewer_failed_start_ignores_files
              (BabylonViewer.created "model.glb") (mkError "WebGL not supported"))
    as (st' & E & _ & _ & Herr & _ & _ & Hfiles); [by repeat split|reflexivity|].
  exists st'. split; [apply E|]. split; [exact Herr|]. apply Hfiles.
Defined.

(** X14.  disposeBabylon on a component whose engine exists removes the
    resize listener, stops and disposes the engine and the scene, and
    sets the three handles to null, so that nothing is attached; the
    three flags shown to the user are left as they were.  Afterwards
    loadModel and handleFileSelected return at once without touching
    anything. *)
Theorem BabylonViewer_teardown_releases_everything (st : BabylonViewer.State) :
  BabylonViewer.engine st <> None ->
  exists st',
    BabylonViewer.disposeBabylon st = Normal st'
    /\ BabylonViewer.engine st' = None
    /\ BabylonViewer.scene st' = None
    /\ BabylonViewer.camera st' = None
    /\ BabylonViewer.attached st' = []
    /\ BabylonViewer.resizeListener st' = false
    /\ BabylonViewer.isLoading st' = BabylonViewer.isLoading st
    /\ BabylonViewer.hasModel st' = BabylonViewer.hasModel st
    /\ BabylonViewer.errorLoading st' = BabylonViewer.errorLoading st
    /\ BabylonViewer.emitted st' = BabylonViewer.emitted st
    /\ (forall url, BabylonViewer.loadModel url st' = Normal st')
    /\ (forall file, BabylonViewer.handleFileSelected file st' = Normal st').
Proof.
  intros Hen. rewrite disposeBabylon_result.
  destruct st as [canvas url loading err has [en|] sc cam listener log]; [|done].
  eexists. split; [reflexivity|]. cbn. do 9 (split; [done|]). split.
  - intros url'. unfold BabylonViewer.loadModel, Stmt.call, Stmt.block, Stmt.when, Stmt.seq.
    by cbn.
  - intros file. by apply handleFileSelected_without_scene.
Qed.

Lemma BabylonViewer_teardown_witness :
  exists st st',
    BabylonViewer.perform (BabylonViewer.Mount None (Resolved [Sample.cube]))
                          (BabylonViewer.created "model.glb") = Some st
    /\ BabylonViewer.attached st = [Sample.cube]
    /\ BabylonViewer.disposeBabylon st = Normal st'
    /\ BabylonViewer.attached st' = []
    /\ BabylonViewer.handleFileSelected (Some "other.glb") st' = Normal st'.
Proof.
  eexists.
  edestruct (BabylonViewer_teardown_releases_everything)
    as (st' & E & _ & _ & _ & Hnone & _ & _ & _ & _ & _ & _ & Hfile);
    [|exists st'; split; [reflexivity|]; split; [reflexivity|]; split; [exact E|];
      split; [exact Hnone|apply Hfile]].
  discriminate.
Defined.

(** X15.  An import that ends after disposeBabylon has run.  The scene is
    gone, so nothing is attached.  If the import brought meshes, the
    framing block fails on the null camera (or on a mesh without a
    bounding box) and the load is reported as an error: a non-empty
    message, a model-error event, the model flag untouched.  If it brought
    no mesh, the block is skipped and the load is reported as a success:
    the model flag is set and model-loaded is emitted. *)
Theorem BabylonViewer_result_after_teardown
    (st st0 : BabylonViewer.State) (source : string) (loaded : list Mesh) :
  BabylonViewer.engine st <> None ->
  BabylonViewer.disposeBabylon st = Normal st0 ->
  exists st',
    BabylonViewer.loadModel_resume source (Resolved loaded) st0 = Normal st'
    /\ BabylonViewer.reader_onload_resume source (Resolved loaded) st0 = Normal st'
    /\ BabylonViewer.scene st' = None
    /\ BabylonViewer.attached st' = []
    /\ BabylonViewer.isLoading st' = false
    /\ (loaded <> [] ->
        exists text,
          BabylonViewer.errorLoading st' = Some text /\ text <> ""
          /\ BabylonViewer.emitted st'
             = BabylonViewer.emitted st ++ [BabylonViewer.ModelErrored text]
          /\ BabylonViewer.hasModel st' = BabylonViewer.hasModel st)
    /\ (loaded = [] ->
        BabylonViewer.hasModel st' = true
        /\ BabylonViewer.emitted st'
           = BabylonViewer.emitted st ++ [BabylonViewer.ModelLoaded source]).
Proof.
  intros Hen. rewrite disposeBabylon_result.
  destruct st as [canvas url loading err has [en|] sc cam listener log]; [|done].
  intros [= <-].
  unfold BabylonViewer.loadModel_resume, BabylonViewer.reader_onload_resume.
  unfold Stmt.call, Stmt.try_finally, Stmt.try_catch, Stmt.block, Stmt.seq,
    BabylonViewer.frameModel.
  cbn [foldr Stmt.assign Stmt.skip].
  destruct (BabylonViewer.measure loaded) as [e|[f|]] eqn:E.
  - cbn. eexists. do 5 (split; [reflexivity|]). split; [|by intros ->].
    intros _. eexists. repeat split. by apply or_else_nonempty.
  - cbn. eexists. do 5 (split; [reflexivity|]). split; [|by intros ->].
    intros _. eexists. by repeat split.
  - destruct loaded as [|m rest].
    + cbn. eexists. do 5 (split; [reflexivity|]). by split.
    + cbn in E. destruct (BabylonViewer.boxOf m); [done|].
      by destruct (BabylonViewer.unionFrom _ _ rest) as [?|[? ?]].
Qed.

Lemma BabylonViewer_result_after_teardown_witness :
  exists st',
    BabylonViewer.loadModel_resume "model.glb" (Resolved [Sample.cube])
      (BabylonViewer.mkState true "model.glb" true None false None None None false [])
    = Normal st'
    /\ BabylonViewer.attached st' = []
    /\ BabylonViewer.hasModel st' = false
    /\ exists text, BabylonViewer.emitted st' = [BabylonViewer.ModelErrored text].
Proof.
  destruct (BabylonViewer_result_after_teardown
              (BabylonViewer.mkState true "model.glb" true None false
                 (Some (BabylonViewer.mkEngine true)) (Some (BabylonViewer.mkScene []))
                 (Some (mkCamera Vec.Zero (JS.of_Z 10) (JS.of_Z 2) (JS.of_Z 50)))
                 true [])
              (BabylonViewer.mkState true "model.glb" true None false None None None false [])
              "model.glb" [Sample.cube])
    as (st' & E & _ & _ & Hnone & _ & Herr & _); [discriminate|reflexivity|].
  destruct Herr as (text & _ & _ & Hlog & Hhas); [discriminate|].
  exists st'. split; [exact E|]. split; [exact Hnone|]. split; [exact Hhas|].
  by exists text.
Defined.

(** ** The modelUrl component: a reload that fails *)

(** X16.  In the modelUrl component a change of the model URL tears the
    old scene down before the new import starts, so a reload that fails
    does not keep the model that was shown: when the URL changes to a new
    non-empty one and the import is rejected, nothing is attached, the
    model flag is false, the message of the rejection is shown and emitted
    as model-error, the camera is the fresh one, and the Add Model overlay
    is offered. *)
Theorem BabylonViewer_failed_reload_drops_the_model
    (st : BabylonViewer.State) (url' : string) (e : Error) :
  BabylonViewer.babylonCanvas st = true ->
  url' <> "" -> url' <> BabylonViewer.modelUrl st ->
  String.prefix "blob:" url' = false ->
  exists st',
    BabylonViewer.perform (BabylonViewer.UrlChange url' None (Rejected e)) st = Some st'
    /\ BabylonViewer.attached st' = []
    /\ BabylonViewer.hasModel st' = false
    /\ BabylonViewer.isLoading st' = false
    /\ BabylonViewer.errorLoading st'
       = Some (or_else (message e) "Unknown error occurred.")
    /\ BabylonViewer.emitted st'
       = BabylonViewer.emitted st
         ++ [BabylonViewer.ModelErrored (or_else (message e) "Unknown error occurred.")]
    /\ BabylonViewer.camera st'
       = Some (mkCamera Vec.Zero (JS.of_Z 10) (JS.of_Z 2) (JS.of_Z 50))
    /\ BabylonViewer.addModel_shown st' = true.
Proof.
  intros Hcanvas Hne Hnew Hblob.
  cbn [BabylonViewer.perform]. rewrite Hcanvas.
  rewrite (bool_decide_eq_true_2 (url' <> "")),
          (bool_decide_eq_true_2 (url' <> BabylonViewer.modelUrl st)) by done.
  cbn [andb]. rewrite initializeBabylon_begins by done.
  eexists. split; [reflexivity|]. by cbn.
Qed.

Lemma BabylonViewer_failed_reload_witness :
  exists st st',
    BabylonViewer.perform (BabylonViewer.Mount None (Resolved [Sample.cube]))
                          (BabylonViewer.created "first.glb") = Some st
    /\ BabylonViewer.attached st = [Sample.cube]
    /\ BabylonViewer.perform
         (BabylonViewer.UrlChange "second.glb" None (Rejected (mkError "not found"))) st
       = Some st'
    /\ BabylonViewer.attached st' = []
    /\ BabylonViewer.hasModel st' = false
    /\ BabylonViewer.errorLoading st' = Some "not found".
Proof.
  eexists.
  edestruct (BabylonViewer_failed_reload_drops_the_model)
    as (st' & E & Hnone & Hhas & _ & Herr & _);
    [| | | |exists st'; split; [reflexivity|]; split; [reflexivity|];
            split; [exact E|]; split; [exact Hnone|]; split; [exact Hhas|exact Herr]].
  - reflexivity.
  - discriminate.
  - discriminate.
  - reflexivity.
Defined.

(** ** BabylonScene.vue: the framing in the success callback *)

Section SceneFraming.

Import BabylonScene.

Lemma least_from_start (l : list num) (s m : num) :
  Forall (fun a => JS.isFinite a = true) l ->
  (exists a, a ∈ l /\ Spec.le a s) ->
  Spec.least m (s :: l) ->
  exists q, m = Fin q /\ Spec.least (Fin q) l.
Proof.
  intros Hfin (a & Ha & Has) [Hin Hle].
  assert (m ∈ l) as Hm.
  { apply elem_of_cons in Hin as [->|Hin]; [|done].
    assert (s = a) as ->; [|done].
    apply le_antisym; [|done]. apply Hle, elem_of_cons. by right. }
  destruct (member_finite _ _ Hm Hfin) as [q ->].
  exists q. split; [done|]. split; [done|].
  intros b Hb. apply Hle, elem_of_cons. by right.
Qed.

Lemma greatest_from_start (l : list num) (s m : num) :
  Forall (fun a => JS.isFinite a = true) l ->
  (exists a, a ∈ l /\ Spec.le s a) ->
  Spec.greatest m (s :: l) ->
  exists q, m = Fin q /\ Spec.greatest (Fin q) l.
Proof.
  intros Hfin (a & Ha & Has) [Hin Hle].
  assert (m ∈ l) as Hm.
  { apply elem_of_cons in Hin as [->|Hin]; [|done].
    assert (s = a) as ->; [|done].
    apply le_antisym; [done|]. apply Hle, elem_of_cons. by right. }
  destruct (member_finite _ _ Hm Hfin) as [q ->].
  exists q. split; [done|]. split; [done|].
  intros b Hb. apply Hle, elem_of_cons. by right.
Qed.

Lemma grow_folds (loaded : list Mesh) (lo hi : Vector3) :
  fold_left grow loaded (lo, hi) =
  (mkVector3
     (fold_left JS.smaller (map (fun b => x (minimumWorld b)) (Spec.boxes_of loaded)) (x lo))
     (fold_left JS.smaller (map (fun b => y (minimumWorld b)) (Spec.boxes_of loaded)) (y lo))
     (fold_left JS.smaller (map (fun b => z (minimumWorld b)) (Spec.boxes_of loaded)) (z lo)),
   mkVector3
     (fold_left JS.larger (map (fun b => x (maximumWorld b)) (Spec.boxes_of loaded)) (x hi))
     (fold_left JS.larger (map (fun b => y (maximumWorld b)) (Spec.boxes_of loaded)) (y hi))
     (fold_left JS.larger (map (fun b => z (maximumWorld b)) (Spec.boxes_of loaded)) (z hi))).
Proof.
  revert lo hi. induction loaded as [|m loaded IH]; intros lo hi.
  - by destruct lo, hi.
  - cbn [fold_left]. unfold grow at 2. cbn [fst snd].
    destruct (getBoundingInfo m) as [box|] eqn:Hbox.
    + rewrite (boxes_of_cons _ _ _ Hbox), IH. reflexivity.
    + rewrite IH. unfold Spec.boxes_of. simpl. by rewrite Hbox.
Qed.

(** Along an axis on which some box reaches the smallest positive
    double, and within the range of doubles, the running minimum and
    maximum started at MAX_VALUE and MIN_VALUE are the ends of the
    union. *)
Lemma span_from_limits axis boxes :
  Forall Spec.finite_box boxes -> axis ∈ Spec.axes ->
  (exists b, b ∈ boxes /\ Spec.le (axis (minimumWorld b)) JS.MAX_VALUE) ->
  (exists b, b ∈ boxes /\ Spec.le JS.MIN_VALUE (axis (maximumWorld b))) ->
  exists lo hi,
    Spec.spans axis boxes lo hi
    /\ fold_left JS.smaller (map (fun b => axis (minimumWorld b)) boxes) JS.MAX_VALUE
       = Fin lo
    /\ fold_left JS.larger (map (fun b => axis (maximumWorld b)) boxes) JS.MIN_VALUE
       = Fin hi.
Proof.
  intros Hfin Hax (bl & Hbl & Hlow) (bh & Hbh & Hhigh).
  destruct (finite_corners axis boxes Hax Hfin) as [Hlo Hhi].
  assert (forall l : list num, Forall (fun a => JS.isFinite a = true) l -> Forall ord l)
    as Hord by (intros l H; eapply Forall_impl; [done|apply isFinite_ord]).
  destruct (least_from_start _ JS.MAX_VALUE
              (fold_left JS.smaller (map (fun b => axis (minimumWorld b)) boxes)
                         JS.MAX_VALUE) Hlo)
    as (lo & Elo & Hleast).
  { exists (axis (minimumWorld bl)). split; [|done].
    by apply list_elem_of_In, (in_map (fun b => axis (minimumWorld b))), list_elem_of_In. }
  { apply fold_smaller_least; [done|by apply Hord]. }
  destruct (greatest_from_start _ JS.MIN_VALUE
              (fold_left JS.larger (map (fun b => axis (maximumWorld b)) boxes)
                         JS.MIN_VALUE) Hhi)
    as (hi & Ehi & Hgreatest).
  { exists (axis (maximumWorld bh)). split; [|done].
    by apply list_elem_of_In, (in_map (fun b => axis (maximumWorld b))), list_elem_of_In. }
  { apply fold_larger_greatest; [done|by apply Hord]. }
  exists lo, hi. split; [by split|]. by split.
Qed.

Lemma negated q : JS.mul (Fin q) (JS.of_Z (-1)) = JS.neg (Fin q).
Proof.
  unfold JS.of_Z. cbn. f_equal.
  assert (Qc_of_Z (-1) = - 1) as -> by by_evaluation. ring.
Qed.

Lemma doubled q : JS.mul (Fin q) (JS.of_Z 2) = Fin (q * Qc_of_Z 2).
Proof. reflexivity. Qed.

End SceneFraming.

Section SceneFit.

Import BabylonScene.

Lemma scene_fit (loaded : list Mesh) :
  Spec.boxes_of loaded <> [] ->
  Forall Spec.finite_box (Spec.boxes_of loaded) ->
  Forall Spec.within_doubles (Spec.boxes_of loaded) ->
  Spec.reaches_positive (Spec.boxes_of loaded) ->
  exists lx hx ly hy lz hz s,
    Spec.spans x (Spec.boxes_of loaded) lx hx
    /\ Spec.spans y (Spec.boxes_of loaded) ly hy
    /\ Spec.spans z (Spec.boxes_of loaded) lz hz
    /\ Spec.greatest (Fin s) [Fin (hx - lx); Fin (hy - ly); Fin (hz - lz)]
    /\ fit loaded =
       mkFit (mkVector3 (Fin ((lx + hx) / Qc_of_Z 2))
                        (Fin ((ly + hy) / Qc_of_Z 2))
                        (Fin ((lz + hz) / Qc_of_Z 2)))
             (mkVector3 (Fin (hx - lx)) (Fin (hy - ly)) (Fin (hz - lz)))
             (Fin s).
Proof.
  intros Hne Hfin Hrange Hpos.
  assert (forall axis, axis ∈ Spec.axes ->
            exists b, b ∈ Spec.boxes_of loaded
                      /\ Spec.le (axis (minimumWorld b)) JS.MAX_VALUE) as Hlow.
  { intros axis Hax. destruct (Spec.boxes_of loaded) as [|b0 rest]; [done|].
    apply Forall_cons in Hrange as [Hb0 _].
    unfold Spec.within_doubles in Hb0. rewrite Forall_forall in Hb0.
    exists b0. split; [by apply elem_of_cons; left|by apply Hb0]. }
  unfold Spec.reaches_positive in Hpos. rewrite Forall_forall in Hpos.
  assert (x ∈ Spec.axes /\ y ∈ Spec.axes /\ z ∈ Spec.axes) as (Ax & Ay & Az)
    by (unfold Spec.axes; rewrite !elem_of_cons; auto 6).
  destruct (span_from_limits x _ Hfin Ax (Hlow x Ax) (Hpos x Ax))
    as (lx & hx & Sx & Elx & Ehx).
  destruct (span_from_limits y _ Hfin Ay (Hlow y Ay) (Hpos y Ay))
    as (ly & hy & Sy & Ely & Ehy).
  destruct (span_from_limits z _ Hfin Az (Hlow z Az) (Hpos z Az))
    as (lz & hz & Sz & Elz & Ehz).
  destruct (max3_greatest (Fin (hx - lx)) (Fin (hy - ly)) (Fin (hz - lz)))
    as (s & Es & Hs); [done..|].
  exists lx, hx, ly, hy, lz, hz, s. do 4 (split; [done|]).
  unfold fit, bounds. rewrite grow_folds. cbn [x y z].
  rewrite Elx, Ehx, Ely, Ehy, Elz, Ehz.
  unfold Vec.Center, Vec.subtract. cbn [x y z JS.add JS.sub JS.neg].
  rewrite !half_Fin.
  change (Fin (hx + - lx)) with (Fin (hx - lx)).
  change (Fin (hy + - ly)) with (Fin (hy - ly)).
  change (Fin (hz + - lz)) with (Fin (hz - lz)).
  by rewrite Es.
Qed.

(** The success callback for at least one mesh. *)
Lemma onSuccess_frames (root : nat) (rebuilt : num) (loaded : list Mesh)
    (st : BabylonScene.State) (sc : BabylonScene.Scene) :
  loaded <> [] -> BabylonScene.scene st = Some sc ->
  BabylonScene.onSuccess root rebuilt loaded st
  = Normal
      (BabylonScene.set_scene
         (Some (BabylonScene.mkScene
                  (map (fun m => if bool_decide (uniqueId m ∈ map uniqueId loaded)
                                 then BabylonScene.adopt root m else m)
                       (BabylonScene.meshes sc))
                  (BabylonScene.transformNodes sc
                   ++ [(root, BabylonScene.rootPosition loaded)])
                  (match BabylonScene.activeCamera sc with
                   | Some cam =>
                       Some (mkCamera Vec.Zero rebuilt
                               (lowerRadiusLimit cam) (upperRadiusLimit cam))
                   | None => None
                   end)
                  (BabylonScene.scene_disposed sc)))
         (BabylonScene.set_loadedModel (map (BabylonScene.adopt root) loaded)
            (BabylonScene.set_loadingStatus "Model loaded successfully" st))).
Proof.
  intros Hne Hsc.
  unfold BabylonScene.onSuccess, Stmt.call, Stmt.block, Stmt.when, Stmt.seq, Stmt.on.
  cbn [foldr Stmt.assign].
  rewrite bool_decide_eq_false_2 by (by intros ?%nil_length_inv).
  destruct st as [c status e sc0 lm rh cl wl]. cbn in Hsc. subst sc0.
  cbn -[BabylonScene.fit BabylonScene.rootPosition bool_decide map JS.mul JS.of_Z].
  by destruct sc.
Qed.

End SceneFit.

(** X17.  The framing in the success callback of BabylonScene.vue starts
    its running maximum at Number.MIN_VALUE, the smallest positive double.
    When the boxes of the loaded meshes are finite and, on every axis,
    some box reaches at least that value (the model extends into the
    positive side), the computed centre is the midpoint of the union of
    the boxes, the size is its extent and maxSize its largest axis;
    meshes without getBoundingInfo are skipped.  The position given to
    the model root is minus that midpoint. *)
Theorem BabylonScene_framing_on_the_positive_side (loaded : list Mesh) :
  Spec.boxes_of loaded <> [] ->
  Forall Spec.finite_box (Spec.boxes_of loaded) ->
  Forall Spec.within_doubles (Spec.boxes_of loaded) ->
  Spec.reaches_positive (Spec.boxes_of loaded) ->
  exists s,
    Spec.midpoint_of_union (Spec.boxes_of loaded)
                           (BabylonScene.fit_center (BabylonScene.fit loaded))
    /\ Spec.extent_of_union (Spec.boxes_of loaded)
                            (BabylonScene.fit_size (BabylonScene.fit loaded))
    /\ Spec.largest_axis (BabylonScene.fit_size (BabylonScene.fit loaded)) s
    /\ BabylonScene.fit_maxSize (BabylonScene.fit loaded) = Fin s
    /\ Spec.midpoint_of_union
         (Spec.boxes_of loaded)
         (mkVector3 (JS.neg (x (BabylonScene.rootPosition loaded)))
                    (JS.neg (y (BabylonScene.rootPosition loaded)))
                    (JS.neg (z (BabylonScene.rootPosition loaded)))).
Proof.
  intros Hne Hfin Hrange Hpos.
  destruct (scene_fit loaded Hne Hfin Hrange Hpos)
    as (lx & hx & ly & hy & lz & hz & s & Sx & Sy & Sz & Hs & Efit).
  assert (Spec.midpoint_of_union (Spec.boxes_of loaded)
            (mkVector3 (Fin ((lx + hx) / Qc_of_Z 2)) (Fin ((ly + hy) / Qc_of_Z 2))
                       (Fin ((lz + hz) / Qc_of_Z 2)))) as Hmid.
  { apply on_axes. simpl. repeat split; eauto. }
  exists s. unfold BabylonScene.rootPosition. rewrite Efit.
  cbn [BabylonScene.fit_center BabylonScene.fit_size BabylonScene.fit_maxSize].
  split; [done|]. split; [|split; [done|split; [done|]]].
  { apply on_axes. simpl. repeat split; eauto. }
  unfold Vec.scale. cbn [x y z]. rewrite !negated.
  cbn [JS.neg]. by rewrite !Qcopp_involutive.
Qed.

Lemma BabylonScene_framing_witness :
  exists s,
    Spec.midpoint_of_union
      (Spec.boxes_of [Sample.cube; Sample.bare; Sample.shifted])
      (BabylonScene.fit_center (BabylonScene.fit [Sample.cube; Sample.bare; Sample.shifted]))
    /\ Spec.largest_axis
         (BabylonScene.fit_size (BabylonScene.fit [Sample.cube; Sample.bare; Sample.shifted]))
         s
    /\ BabylonScene.fit_maxSize (BabylonScene.fit [Sample.cube; Sample.bare; Sample.shifted])
       = Fin s.
Proof.
  destruct (BabylonScene_framing_on_the_positive_side
              [Sample.cube; Sample.bare; Sample.shifted])
    as (s & Hmid & _ & Hlargest & Esize & _).
  - discriminate.
  - repeat constructor.
  - repeat constructor; by_evaluation.
  - repeat constructor;
      exists (mkBox (Sample.vec (-1) (-1) (-1)) (Sample.vec 1 1 1));
      (split; [apply elem_of_cons; by left|by_evaluation]).
  - by exists s.
Defined.

(** ** BabylonScene.vue: what the handlers leave alone *)

Section SceneHandles.

Import BabylonScene.

(** [handleFileImport] with a file and a scene: the status line announces
    the load, the tracked meshes leave the scene and the list is
    emptied. *)
Lemma handleFileImport_result (file : string) (st : State) :
  scene st <> None ->
  exists ms,
    handleFileImport (Some file) st
    = Await (set_loadedModel []
               (on_meshes (fun _ => ms)
                  (set_loadingStatus ("Loading " ++ file ++ "...") st))).
Proof.
  intros Hsc.
  unfold handleFileImport, Stmt.call, Stmt.block, Stmt.when, Stmt.seq.
  cbn [foldr Stmt.assign].
  rewrite (bool_decide_eq_false_2 (scene st = None)) by done.
  rewrite (bool_decide_eq_false_2 (Some file = None)) by done.
  cbn [orb default].
  change (loadedModel (set_loadingStatus _ st)) with (loadedModel st).
  destruct (decide (loadedModel st = [])) as [E|E].
  - rewrite bool_decide_eq_true_2 by done. cbn [negb]. exists (attached st).
    destruct st as [c s e [[ms tn cam d]|] lm rh cl wl]; [|done].
    cbn in E. by subst.
  - rewrite bool_decide_eq_false_2 by done. cbn -[disposeLoaded].
    match goal with
    | |- context [disposeLoaded ?s] => destruct (disposeLoaded_frame s) as [ms ->]
    end.
    exists ms. by destruct st as [c s e [[ms' tn cam d]|] lm rh cl wl].
Qed.

Lemma onSuccess_nothing (root : nat) (rebuilt : num) (st : State) :
  onSuccess root rebuilt [] st
  = Normal (set_loadingStatus "Warning: No meshes were loaded"
              (set_loadedModel [] (set_loadingStatus "Model loaded successfully" st))).
Proof. reflexivity. Qed.

Lemma step_set_up ev w w' :
  step ev w = Some w' -> Spec.set_up (component w) -> Spec.set_up (component w').
Proof.
  unfold Spec.set_up. destruct w as [st reads imports].
  cbn [component BabylonScene.reads BabylonScene.imports].
  intros Hstep (Hcanvas & Hhandler & Hengine & Hscene).
  destruct ev as [file| content sync | | percentage | root outcome];
    cbn [step component BabylonScene.reads BabylonScene.imports] in Hstep.
  - injection Hstep as <-. cbn [component]. destruct file as [file|].
    + destruct (handleFileImport_result file st Hscene) as [ms ->].
      destruct st as [c s e [[ms' tn cam d]|] lm rh cl wl]; [|done]. by cbn.
    + unfold handleFileImport, Stmt.call, Stmt.block, Stmt.when, Stmt.seq.
      cbn [foldr]. rewrite (bool_decide_eq_true_2 (None = None)) by done. by cbn.
  - destruct reads as [|n]; [done|]. injection Hstep as <-. cbn [component].
    destruct content as [c|], sync as [e|]; by cbn.
  - destruct reads as [|n]; [done|]. injection Hstep as <-. by cbn.
  - destruct imports as [|n]; [done|]. injection Hstep as <-.
    destruct percentage; by cbn.
  - destruct imports as [|n]; [done|]. destruct outcome as [loaded|e].
    + injection Hstep as <-. cbn [component].
      destruct st as [c s e [[ms' tn cam d]|] lm rh cl wl]; [|done].
      destruct loaded as [|m loaded]; [by cbn|].
      erewrite onSuccess_frames; [|done|reflexivity]. by cbn.
    + injection Hstep as <-. by cbn.
Qed.

Lemma run_set_up evs w w' :
  run evs w = Some w' -> Spec.set_up (component w) -> Spec.set_up (component w').
Proof.
  revert w. induction evs as [|ev evs IH]; intros w; simpl.
  - by intros [= <-].
  - destruct (step ev w) as [w1|] eqn:E; [|done]. eauto using step_set_up.
Qed.

End SceneHandles.

(** X18.  initScene brings the created component of BabylonScene.vue to
    its initialised state.  From there, whatever has happened since and
    whatever is still in flight, the onBeforeUnmount hook ends normally
    with no mesh and no model root left in the scene, the scene and the
    engine disposed, and the listeners on the canvas and on the window
    removed.  It does not clear the handles: the scene, the engine and
    the list of tracked meshes are still set afterwards, so that
    handleFileImport would still accept a file. *)
Theorem BabylonScene_teardown_from_any_state
    (evs : list BabylonScene.Event) (w : BabylonScene.World) :
  BabylonScene.run evs BabylonScene.initial = Some w ->
  BabylonScene.initScene BabylonScene.created = Normal BabylonScene.initialised
  /\ exists st' sc',
       BabylonScene.onBeforeUnmount (BabylonScene.component w) = Normal st'
       /\ BabylonScene.scene st' = Some sc'
       /\ BabylonScene.scene_disposed sc' = true
       /\ BabylonScene.attached st' = []
       /\ Spec.model_roots st' = []
       /\ BabylonScene.engine st' = Some (BabylonScene.mkEngine true)
       /\ BabylonScene.canvasListeners st' = false
       /\ BabylonScene.windowListener st' = false
       /\ BabylonScene.loadedModel st'
          = BabylonScene.loadedModel (BabylonScene.component w)
       /\ forall file, exists st'',
            BabylonScene.handleFileImport (Some file) st' = Await st''.
Proof.
  intros Hrun. split; [reflexivity|].
  assert (Spec.set_up (BabylonScene.component w)) as (Hcanvas & Hhandler & Hengine & Hscene).
  { apply (run_set_up evs BabylonScene.initial); [done|]. by repeat split. }
  rewrite onBeforeUnmount_result. rewrite Hcanvas, Hhandler.
  destruct (BabylonScene.component w) as [c s [e|] [[ms tn cam d]|] lm rh cl wl];
    try done.
  eexists _, _. split; [reflexivity|]. cbn. do 8 (split; [done|]).
  intros file. by apply handleFileImport_accepts.
Qed.

Lemma BabylonScene_teardown_witness :
  exists st',
    BabylonScene.onBeforeUnmount
      (BabylonScene.mkState true "Loading model.glb..."
         (Some (BabylonScene.mkEngine false))
         (Some (BabylonScene.mkScene [] []
                  (Some (mkCamera Vec.Zero (JS.of_Z 10) (JS.ratio 1 10) (JS.of_Z 100)))
                  false))
         [] true true true) = Normal st'
    /\ BabylonScene.engine st' = Some (BabylonScene.mkEngine true)
    /\ BabylonScene.windowListener st' = false.
Proof.
  destruct (BabylonScene_teardown_from_any_state
              [BabylonScene.FileImport (Some "model.glb")]
              (BabylonScene.mkWorld
                 (BabylonScene.mkState true "Loading model.glb..."
                    (Some (BabylonScene.mkEngine false))
                    (Some (BabylonScene.mkScene [] []
                       (Some (mkCamera Vec.Zero (JS.of_Z 10) (JS.ratio 1 10) (JS.of_Z 100)))
                       false))
                    [] true true true) 1 0))
    as (_ & st' & sc' & E & _ & _ & _ & _ & Hengine & _ & Hwindow & _); [reflexivity|].
  exists st'. by repeat split.
Defined.

(** ** BabylonScene.vue: model roots and empty imports *)

Section SceneRoots.

Import BabylonScene.

Lemma run_app evs evs' w0 w1 :
  run evs w0 = Some w1 -> run (evs ++ evs') w0 = run evs' w1.
Proof.
  revert w0. induction evs as [|ev evs IH]; intros w0; simpl.
  - by intros [= ->].
  - destruct (step ev w0); [apply IH|done].
Qed.

(** A load that runs alone adds a model root exactly when its import
    succeeds with at least one mesh; the camera changes only then. *)
Lemma load_roots (l : Load) (w : World) :
  Spec.at_rest w ->
  exists w',
    run (events_of l) w = Some w'
    /\ Spec.model_roots (component w')
       = Spec.model_roots (component w) ++ Spec.roots_of [l]
    /\ (Spec.roots_of [l] = [] ->
        activeCamera <$> scene (component w') = activeCamera <$> scene (component w)).
Proof.
  destruct w as [st reads imports]. unfold Spec.at_rest, in_flight.
  cbn [component BabylonScene.reads BabylonScene.imports].
  intros (Hnone & Hsc & _).
  assert (reads = 0%nat /\ imports = 0%nat) as [-> ->] by lia.
  assert (exists file, events_of l = FileImport (Some file) :: tail (events_of l))
    as [file ->] by (destruct l; by eexists).
  destruct (handleFileImport_result file st Hsc) as [ms E1].
  cbn [run step component BabylonScene.reads BabylonScene.imports].
  rewrite E1. cbn [Stmt.state_of Stmt.suspended].
  destruct st as [c s e [[ms' tn cam d]|] lm rh cl wl]; [|done].
  destruct l as [f|f|f content err|f content root err|f content root loaded];
    cbn [events_of tail run step component BabylonScene.reads BabylonScene.imports
         Spec.roots_of flat_map].
  1-4: eexists; split; [reflexivity|]; cbn; by rewrite app_nil_r.
  destruct loaded as [|m loaded].
  - eexists. split; [reflexivity|]. rewrite onSuccess_nothing. cbn.
    by rewrite app_nil_r.
  - cbn [reader_onload].
    match goal with
    | |- context [reader_onload (Some content) None ?s] =>
        change (reader_onload (Some content) None s) with (@Await State s)
    end.
    cbn [Stmt.state_of Stmt.suspended].
    erewrite onSuccess_frames; [|done|reflexivity].
    eexists. split; [reflexivity|]. cbn -[fit]. split; [|done].
    by rewrite map_app.
Qed.

End SceneRoots.

(** X19.  In BabylonScene.vue an import that succeeds without any mesh
    ends as a warning.  The load has disposed the meshes of the model
    shown before, but nothing else follows: the status line reads
    "Warning: No meshes were loaded", no mesh is attached or tracked, no
    model root is created, and the camera stays where the previous load
    left it. *)
Theorem BabylonScene_empty_import_warns
    (w : BabylonScene.World) (file content : string) (root : nat) :
  Spec.at_rest w ->
  exists w',
    BabylonScene.run
      (BabylonScene.events_of (BabylonScene.ImportSucceeds file content root [])) w
    = Some w'
    /\ Spec.at_rest w'
    /\ BabylonScene.loadingStatus (BabylonScene.component w')
       = "Warning: No meshes were loaded"
    /\ BabylonScene.attached (BabylonScene.component w') = []
    /\ BabylonScene.loadedModel (BabylonScene.component w') = []
    /\ Spec.model_roots (BabylonScene.component w')
       = Spec.model_roots (BabylonScene.component w)
    /\ BabylonScene.activeCamera <$> BabylonScene.scene (BabylonScene.component w')
       = BabylonScene.activeCamera <$> BabylonScene.scene (BabylonScene.component w).
Proof.
  intros Hrest.
  destruct (load_alone (BabylonScene.ImportSucceeds file content root []) w Hrest)
    as (w' & E & Hrest' & Hids).
  destruct (load_roots (BabylonScene.ImportSucceeds file content root []) w Hrest)
    as (w'' & E' & Hroots & Hcam).
  rewrite E in E'. injection E' as <-.
  exists w'. split; [done|]. split; [done|].
  assert (BabylonScene.attached (BabylonScene.component w') = []) as Hnone
    by (by apply (fmap_nil_inv uniqueId)).
  destruct Hrest' as (_ & _ & Htracked).
  split; [|split; [done|split; [by rewrite <- Htracked|split]]].
  - destruct w as [st reads imports], Hrest as (Hflight & Hsc & _).
    unfold BabylonScene.in_flight in Hflight. cbn in Hflight, Hsc.
    assert (reads = 0%nat /\ imports = 0%nat) as [-> ->] by lia.
    destruct (handleFileImport_result file st Hsc) as [ms E1].
    cbn [BabylonScene.events_of BabylonScene.run BabylonScene.step
         BabylonScene.component BabylonScene.reads BabylonScene.imports] in E.
    rewrite E1 in E. cbn in E. by injection E as <-.
  - cbn in Hroots. by rewrite app_nil_r in Hroots.
  - by apply Hcam.
Qed.

Lemma BabylonScene_empty_import_witness :
  exists w',
    BabylonScene.run
      (BabylonScene.events_of (BabylonScene.ImportSucceeds "empty.glb" "payload" 9 []))
      BabylonScene.initial = Some w'
    /\ BabylonScene.loadingStatus (BabylonScene.component w')
       = "Warning: No meshes were loaded"
    /\ Spec.model_roots (BabylonScene.component w') = [].
Proof.
  destruct (BabylonScene_empty_import_warns BabylonScene.initial "empty.glb" "payload" 9)
    as (w' & E & _ & Hstatus & _ & _ & Hroots & _); [by repeat split|].
  by exists w'.
Defined.

(** X20.  handleFileImport disposes the meshes of the previous model but
    not the model root that was created for them.  After any sequence of
    loads of BabylonScene.vue that run one after the other, the scene
    holds one model root for every import that succeeded with at least
    one mesh, in the order of the loads, although at most the meshes of
    the last load are attached. *)
Theorem BabylonScene_model_roots_accumulate (ls : list BabylonScene.Load) :
  exists w,
    BabylonScene.run (flat_map BabylonScene.events_of ls) BabylonScene.initial = Some w
    /\ Spec.at_rest w
    /\ Spec.model_roots (BabylonScene.component w) = Spec.roots_of ls.
Proof.
  assert (forall w0, Spec.at_rest w0 ->
            exists w,
              BabylonScene.run (flat_map BabylonScene.events_of ls) w0 = Some w
              /\ Spec.at_rest w
              /\ Spec.model_roots (BabylonScene.component w)
                 = Spec.model_roots (BabylonScene.component w0) ++ Spec.roots_of ls)
    as Hfrom.
  { induction ls as [|l ls IH]; intros w0 Hrest.
    - exists w0. split; [done|]. split; [done|]. by rewrite app_nil_r.
    - destruct (load_alone l w0 Hrest) as (w1 & E1 & Hrest1 & _).
      destruct (load_roots l w0 Hrest) as (w1' & E1' & Hroots1 & _).
      rewrite E1 in E1'. injection E1' as <-.
      destruct (IH w1 Hrest1) as (w2 & E2 & Hrest2 & Hroots2).
      exists w2. cbn [flat_map]. rewrite (run_app _ _ _ _ E1).
      split; [done|]. split; [done|].
      rewrite Hroots2, Hroots1, <- app_assoc. f_equal.
      unfold Spec.roots_of. cbn [flat_map]. by rewrite app_nil_r. }
  destruct (Hfrom BabylonScene.initial) as (w & E & Hrest & Hroots); [by repeat split|].
  by exists w.
Qed.

(** ** BabylonScene.vue: mounting *)

Section SceneMount.

Import BabylonScene.

Lemma mount_callback_initialises (cb : Stmt.t State) (st : State) :
  cb = onWindowLoad \/ cb = onFallbackTimer ->
  st = created \/ st = initialised ->
  cb st = Normal initialised.
Proof. by intros [-> | ->] [-> | ->]. Qed.

End SceneMount.

(** X21.  onMounted of BabylonScene.vue registers initScene twice: on the
    load event of the window, and on a timer that runs it only when no
    engine exists yet.  From the created component, any sequence of these
    two callbacks, in any order and number, ends in the initialised
    state.  Without the canvas neither does anything.  The timer never
    initialises a component that has an engine, but the load event always
    does: fired on a component that is already set up, it replaces the
    scene by an empty one with a fresh camera, while the list of tracked
    meshes and the status line stay as they were. *)
Theorem BabylonScene_mount_callbacks :
  (forall cbs : list (Stmt.t BabylonScene.State),
     cbs <> [] ->
     Forall (fun cb => cb = BabylonScene.onWindowLoad
                       \/ cb = BabylonScene.onFallbackTimer) cbs ->
     Stmt.block cbs BabylonScene.created = Normal BabylonScene.initialised)
  /\ (forall st,
        BabylonScene.canvasRef st = false ->
        BabylonScene.onWindowLoad st = Normal st
        /\ BabylonScene.onFallbackTimer st = Normal st)
  /\ (forall st,
        BabylonScene.engine st <> None -> BabylonScene.onFallbackTimer st = Normal st)
  /\ (forall st,
        BabylonScene.canvasRef st = true ->
        exists st',
          BabylonScene.onWindowLoad st = Normal st'
          /\ Spec.set_up st'
          /\ BabylonScene.scene st' = BabylonScene.scene BabylonScene.initialised
          /\ BabylonScene.engine st' = BabylonScene.engine BabylonScene.initialised
          /\ BabylonScene.canvasListeners st' = true
          /\ BabylonScene.windowListener st' = true
          /\ BabylonScene.loadedModel st' = BabylonScene.loadedModel st
          /\ BabylonScene.loadingStatus st' = BabylonScene.loadingStatus st).
Proof.
  split; [|split; [|split]].
  - intros cbs Hne Hall.
    assert (forall st, st = BabylonScene.created \/ st = BabylonScene.initialised ->
              Stmt.block cbs st = Normal BabylonScene.initialised) as Hfrom; [|by auto].
    induction Hall as [|cb cbs Hcb Hall IH]; [done|]. intros st Hst.
    cbn [Stmt.block foldr]. unfold Stmt.seq at 1.
    rewrite (mount_callback_initialises cb st Hcb Hst).
    destruct cbs as [|cb' cbs]; [done|]. apply IH; [done|by right].
  - intros st Hcanvas.
    unfold BabylonScene.onWindowLoad, BabylonScene.onFallbackTimer, BabylonScene.initScene,
      Stmt.call, Stmt.block, Stmt.when, Stmt.seq.
    cbn [foldr]. rewrite Hcanvas. by destruct (bool_decide _).
  - intros st Hengine. unfold BabylonScene.onFallbackTimer, Stmt.when.
    by rewrite bool_decide_eq_false_2.
  - intros st Hcanvas.
    unfold BabylonScene.onWindowLoad, BabylonScene.initScene,
      Stmt.call, Stmt.block, Stmt.when, Stmt.seq.
    cbn [foldr]. rewrite Hcanvas. eexists. split; [reflexivity|]. by repeat split.
Qed.

Lemma BabylonScene_mount_witness :
  Stmt.block [BabylonScene.onFallbackTimer; BabylonScene.onWindowLoad]
             BabylonScene.created
  = Normal BabylonScene.initialised.
Proof.
  apply (proj1 BabylonScene_mount_callbacks).
  - discriminate.
  - apply Forall_cons. split; [by right|].
    apply Forall_cons. split; [by left|]. constructor.
Defined.
